(** * Automated attendance system: the face identification pipeline and the
      attendance ledger

    Shallow embedding of [mediapipe_face_recognition.py]
    (class [MediaPipeFaceRecognition]) and of the attendance route of [app.py].

    Conventions of the embedding.
    - Python [int] is [Z]; [uint8] pixels are [Z].
    - The floats delivered by the detector (relative bounding boxes, scores,
      key points) are exact rationals [Q]: the code only multiplies them by an
      integer and truncates, so these definitions compute.
    - In the pipeline the floats of embeddings and similarity scores are
      exact reals [R]: what is proved there about them rests on how the
      scores compare with each other and with the threshold.  The arithmetic
      of [compare_faces] and of the normalisation of an embedding, and the
      loop that matches a face against the gallery, are also embedded on
      floats as NumPy and Python compute, in IEEE 754 binary32 and binary64
      with rounding, overflow and NaN (module [Ieee754]).
    - An exception is the [Raise] outcome of [result]; a [try ... except
      Exception] block is [try_except].
    - OpenCV, MediaPipe and the [face_recognition] package are external: their
      calls are the fields of a [Backend] record. The two MediaPipe graph
      objects of [__init__] are stateful, so their calls thread a state [G].
    - [print] and [logger.error] calls have no effect on any returned value and
      are left out. *)

From Stdlib Require Import Ascii String Bool Arith ZArith QArith Qround Reals
  Lra Lia List SpecFloat.
Import ListNotations.

Set Implicit Arguments.

(* ------------------------------------------------------------------------- *)
(** ** Python run-time helpers *)
(* ------------------------------------------------------------------------- *)

Module Py.

(** Outcome of a computation that may raise. *)
Inductive result (A : Type) : Type :=
| Ok (a : A)
| Raise.
Arguments Ok {A} a.
Arguments Raise {A}.

Definition rbind {A B} (r : result A) (k : A -> result B) : result B :=
  match r with
  | Ok a => k a
  | Raise => Raise
  end.

(** A loop that builds a list by [append], aborted by the first exception. *)
Fixpoint for_each {A B} (body : A -> result B) (l : list A) : result (list B) :=
  match l with
  | [] => Ok []
  | a :: l' =>
      rbind (body a) (fun b => rbind (for_each body l') (fun bs => Ok (b :: bs)))
  end.

(** Computations over the state [G] of the MediaPipe graphs. *)
Definition M (G A : Type) : Type := G -> result A * G.

Definition ret {G A} (a : A) : M G A := fun g => (Ok a, g).

Definition bind {G A B} (m : M G A) (k : A -> M G B) : M G B :=
  fun g =>
    match m g with
    | (Ok a, g') => k a g'
    | (Raise, g') => (Raise, g')
    end.

Definition lift {G A} (r : result A) : M G A := fun g => (r, g).

(** [try: m  except Exception: return dflt]. *)
Definition try_except {G A} (m : M G A) (dflt : A) : G -> A * G :=
  fun g =>
    match m g with
    | (Ok a, g') => (a, g')
    | (Raise, g') => (dflt, g')
    end.

(** [int(x)] on a float: truncation toward zero. *)
Definition int (x : Q) : Z := Z.quot (Qnum x) (Zpos (Qden x)).

(** Bound of a slice [a[start:stop]] on a sequence of length [n]
    ([slice.indices] with step 1). *)
Definition slice_bound (n i : Z) : Z :=
  if (i <? 0)%Z then Z.max (i + n) 0 else Z.min i n.

(** Truthiness of an optional list ([if xs:]). *)
Definition truthy {A} (xs : option (list A)) : bool :=
  match xs with
  | Some (_ :: _) => true
  | _ => false
  end.

End Py.

Import Py.

Declare Scope py_scope.
Delimit Scope py_scope with py.
Notation "x <- m ;; k" := (bind m (fun x => k))
  (at level 61, m at next level, right associativity) : py_scope.
Notation "x <~ r ;; k" := (rbind r (fun x => k))
  (at level 61, r at next level, right associativity) : py_scope.

(* ------------------------------------------------------------------------- *)
(** ** NumPy arrays *)
(* ------------------------------------------------------------------------- *)

Module Numpy.

(** An [ndarray] of [uint8]: its shape and its elements in row-major order. *)
Record ndarray : Type := mk_ndarray { shape : list Z; data : list Z }.

Definition prod (l : list Z) : Z := fold_right Z.mul 1%Z l.

(** [a.size]. *)
Definition size (a : ndarray) : Z := prod (shape a).

(** [len(a.shape)]. *)
Definition ndim (a : ndarray) : nat := length (shape a).

(** Cuts [l] into [k] consecutive chunks of [n] elements. *)
Fixpoint chunks {A} (n : nat) (k : nat) (l : list A) : list (list A) :=
  match k with
  | O => []
  | S k' => firstn n l :: chunks n k' (skipn n l)
  end.

(** [a[r0:r1, c0:c1]] on an array of at least two dimensions. *)
Definition getitem2 (a : ndarray) (r0 r1 c0 c1 : Z) : result ndarray :=
  match shape a with
  | h :: w :: rest =>
      let item := prod rest in
      let rs := slice_bound h r0 in
      let re := slice_bound h r1 in
      let cs := slice_bound w c0 in
      let ce := slice_bound w c1 in
      let nr := Z.max 0 (re - rs) in
      let nc := Z.max 0 (ce - cs) in
      let rows := chunks (Z.to_nat (w * item)) (Z.to_nat h) (data a) in
      let rows' := firstn (Z.to_nat nr) (skipn (Z.to_nat rs) rows) in
      Ok {| shape := nr :: nc :: rest;
            data := flat_map
                      (fun row => firstn (Z.to_nat (nc * item))
                                    (skipn (Z.to_nat (cs * item)) row))
                      rows' |}
  | _ => Raise
  end.

(** [np.dot] of two one-dimensional arrays of equal length. *)
Fixpoint dot (u v : list R) : R :=
  match u, v with
  | x :: u', y :: v' => (x * y + dot u' v')%R
  | _, _ => 0%R
  end.

(** [np.linalg.norm] of a one-dimensional array. *)
Definition norm (u : list R) : R := sqrt (dot u u).

(** [np.zeros(n)]. *)
Definition zeros (n : nat) : list R := repeat 0%R n.

(** [np.pad(u, (0, n))]. *)
Definition pad_right (u : list R) (n : nat) : list R := u ++ repeat 0%R n.

End Numpy.

Import Numpy.

(* ------------------------------------------------------------------------- *)
(** ** External engines: OpenCV and MediaPipe *)
(* ------------------------------------------------------------------------- *)

Module Engine.

(** [cv2.COLOR_*] codes used by the recognizer. *)
Inductive ColorConversionCode : Type :=
| COLOR_BGR2RGB
| COLOR_RGB2GRAY.

(** [detection.location_data.relative_bounding_box]. *)
Record RelativeBoundingBox : Type :=
  { xmin : Q; ymin : Q; width : Q; height : Q }.

(** One entry of [results.detections]. *)
Record Detection : Type :=
  { relative_bounding_box : RelativeBoundingBox;
    relative_keypoints : list (Q * Q);
    score : list Q }.

(** One landmark of a face mesh. *)
Record Landmark : Type := { x : R; y : R; z : R }.

(** The calls the recognizer makes into OpenCV and into the two MediaPipe
    graphs built by [__init__]; [G] is the state of those graphs. *)
Record Backend (G : Type) : Type :=
  { cvtColor : ndarray -> ColorConversionCode -> result ndarray;
    resize : ndarray -> Z * Z -> result ndarray;
    (** [self.face_detection.process(img).detections] *)
    face_detection_process : ndarray -> M G (option (list Detection));
    (** [self.face_mesh.process(img).multi_face_landmarks] *)
    face_mesh_process : ndarray -> M G (option (list (list Landmark))) }.

End Engine.

Import Engine.

(* ------------------------------------------------------------------------- *)
(** ** [mediapipe_face_recognition.py] *)
(* ------------------------------------------------------------------------- *)

(** The dictionary built for each detected face by [detect_faces]. *)
Module FaceInfo.
Record t : Type :=
  { bbox : Z * Z * Z * Z;
    confidence : Q;
    landmarks : list (string * (Q * Q));
    face_region : ndarray }.
End FaceInfo.

(** An entry of [known_faces]. The key ['encoding'] may be absent (outer
    [None]) and its value may be [None] (inner [None]). *)
Module KnownFace.
Record t : Type :=
  { id : Z;
    name : string;
    roll_number : string;
    encoding : option (option (list R)) }.
End KnownFace.

(** The dictionary appended to [identified_faces] by [identify_faces]. *)
Module FaceResult.
Record t : Type :=
  { bbox : Z * Z * Z * Z;
    confidence : Q;
    similarity : R;
    identified : bool;
    student_info : option KnownFace.t;
    encoding : list R }.
End FaceResult.

Module MediaPipeFaceRecognition.

(** The attributes of the object that the methods read. *)
Record t : Type :=
  { encoding_size : nat;
    similarity_threshold : R }.

(** [__init__]. *)
Definition __init__ : t :=
  {| encoding_size := 128;
     similarity_threshold := 0.3%R |}.

(** [x > y] on floats. *)
Definition Rgtb (a b : R) : bool := if Rgt_dec a b then true else false.

(** [x == 0] on floats. *)
Definition Reqb0 (a : R) : bool := if Req_dec_T a 0%R then true else false.

(** [_extract_key_landmarks]: the names of the first six key points. *)
Definition point_names : list string :=
  ["nose_tip"; "left_eye"; "right_eye"; "mouth_center"; "left_ear";
   "right_ear"]%string.

Definition _extract_key_landmarks (detection : Detection)
  : list (string * (Q * Q)) :=
  combine point_names
          (firstn (length point_names) (relative_keypoints detection)).

(** Lines 82-91: pixel box of a relative box in an image of [h] rows and [w]
    columns. *)
Definition pixel_bbox (h w : Z) (bbox : RelativeBoundingBox)
  : Z * Z * Z * Z :=
  let x := int (xmin bbox * inject_Z w) in
  let y := int (ymin bbox * inject_Z h) in
  let width := int (width bbox * inject_Z w) in
  let height := int (height bbox * inject_Z h) in
  let x := Z.max 0 x in
  let y := Z.max 0 y in
  let width := Z.min width (w - x) in
  let height := Z.min height (h - y) in
  (x, y, width, height).

(** Body of the loop of [detect_faces] (lines 78-100). *)
Definition face_info_of (image : ndarray) (h w : Z) (detection : Detection)
  : result FaceInfo.t :=
  let '(x, y, width, height) :=
    pixel_bbox h w (relative_bounding_box detection) in
  (confidence <~ match score detection with
                 | s :: _ => Ok s
                 | [] => Raise
                 end ;;
   face_region <~ getitem2 image y (y + height) x (x + width) ;;
   Ok {| FaceInfo.bbox := (x, y, width, height);
         FaceInfo.confidence := confidence;
         FaceInfo.landmarks := _extract_key_landmarks detection;
         FaceInfo.face_region := face_region |})%py.

Section Methods.

Context {G : Type}.
Variable backend : Backend G.
Variable self : t.

(** Lines 64-67: the image handed to the detection graph. *)
Definition rgb_of (image : ndarray) : result ndarray :=
  match shape image with
  | [_; _; 3%Z] => cvtColor backend image COLOR_BGR2RGB
  | _ => Ok image
  end.

(** The [try] block of [detect_faces] (lines 62-104). *)
Definition detect_faces_try (image : ndarray) : M G (list FaceInfo.t) :=
  (rgb_image <- lift (rgb_of image) ;;
   detections <- face_detection_process backend rgb_image ;;
   match detections with
   | Some ((_ :: _) as detections) =>
       lift (match shape image with
             | h :: w :: _ => for_each (face_info_of image h w) detections
             | _ => Raise
             end)
   | _ => ret []
   end)%py.

(** [detect_faces]. *)
Definition detect_faces (image : option ndarray) : G -> list FaceInfo.t * G :=
  match image with
  | None => fun g => ([], g)
  | Some image => try_except (detect_faces_try image) []
  end.

(** Lines 176-179 of [_generate_basic_encoding]: the 32 x 32 grey image. *)
Definition gray32 (face_image : ndarray) : result ndarray :=
  (gray <~ (if (ndim face_image =? 3)%nat
            then cvtColor backend face_image COLOR_RGB2GRAY
            else Ok face_image) ;;
   resize backend gray (32, 32)%Z)%py.

(** Lines 186-189: pad or truncate to [encoding_size]. *)
Definition fit (encoding : list R) : list R :=
  if (encoding_size self <? length encoding)%nat
  then firstn (encoding_size self) encoding
  else if (length encoding <? encoding_size self)%nat
       then pad_right encoding (encoding_size self - length encoding)
       else encoding.

(** [_generate_basic_encoding]. *)
Definition _generate_basic_encoding (face_image : ndarray) : list R :=
  match gray32 face_image with
  | Ok gray => fit (map (fun p => (IZR p / 255)%R) (data gray))
  | Raise => zeros (encoding_size self)
  end.

(** Lines 155-161: the landmark coordinates, truncated and normalised.
    When the truncated vector is zero NumPy divides 0 by 0 and the entries
    are NaN ([Ieee754.normalize]); real numbers have no such value, and
    what is stated about this function is stated for a non-zero norm. *)
Definition landmark_encoding (landmarks : list Landmark) : list R :=
  let landmark_points :=
    flat_map (fun landmark => [x landmark; y landmark; z landmark])
             landmarks in
  let encoding := firstn (encoding_size self) landmark_points in
  map (fun v => (v / norm encoding)%R) encoding.

(** The [try] block of [generate_face_encoding] after the guard of line 136
    (lines 139-166). *)
Definition generate_face_encoding_try (face_image : ndarray)
  : M G (option (list R)) :=
  (face_resized <- lift (resize backend face_image (160, 160)%Z) ;;
   face_rgb <- lift (if (ndim face_resized =? 3)%nat
                     then cvtColor backend face_resized COLOR_BGR2RGB
                     else Ok face_resized) ;;
   multi_face_landmarks <- face_mesh_process backend face_rgb ;;
   match multi_face_landmarks with
   | Some (landmarks :: _) => ret (Some (landmark_encoding landmarks))
   | _ => ret (Some (_generate_basic_encoding face_rgb))
   end)%py.

(** [generate_face_encoding]. *)
Definition generate_face_encoding (face_image : option ndarray)
  : G -> option (list R) * G :=
  match face_image with
  | None => fun g => (None, g)
  | Some face_image =>
      if (size face_image =? 0)%Z
      then fun g => (None, g)
      else try_except (generate_face_encoding_try face_image) None
  end.

(** [compare_faces]. Nothing in its [try] block raises on one-dimensional
    arrays, so the [except] branch is not reachable in the model. *)
Definition compare_faces (encoding1 encoding2 : option (list R)) : R :=
  match encoding1, encoding2 with
  | Some encoding1, Some encoding2 =>
      let min_len := Nat.min (length encoding1) (length encoding2) in
      let enc1 := firstn min_len encoding1 in
      let enc2 := firstn min_len encoding2 in
      let dot_product := dot enc1 enc2 in
      let norm1 := norm enc1 in
      let norm2 := norm enc2 in
      if Reqb0 norm1 || Reqb0 norm2
      then 0%R
      else
        let similarity := (dot_product / (norm1 * norm2))%R in
        ((similarity + 1) / 2)%R
  | _, _ => 0%R
  end.

(** Body of the loop over [known_faces] (lines 263-268); the accumulator is
    [(best_match, best_similarity)]. *)
Definition best_match_step (face_encoding : list R)
    (acc : option KnownFace.t * R) (known_face : KnownFace.t)
  : option KnownFace.t * R :=
  let '(best_match, best_similarity) := acc in
  match KnownFace.encoding known_face with
  | Some known_encoding =>
      let similarity := compare_faces (Some face_encoding) known_encoding in
      if Rgtb similarity best_similarity
         && Rgtb similarity (similarity_threshold self)
      then (Some known_face, similarity)
      else (best_match, best_similarity)
  | None => (best_match, best_similarity)
  end.

(** Lines 258-268: [best_match] and [best_similarity] after the loop. *)
Definition best_match (face_encoding : list R) (known_faces : list KnownFace.t)
  : option KnownFace.t * R :=
  fold_left (best_match_step face_encoding) known_faces (None, 0%R).

(** Lines 271-278: the result dictionary of one encodable face. *)
Definition face_result_of (face : FaceInfo.t) (face_encoding : list R)
    (known_faces : list KnownFace.t) : FaceResult.t :=
  let best := best_match face_encoding known_faces in
  let best_match := fst best in
  let best_similarity := snd best in
  {| FaceResult.bbox := FaceInfo.bbox face;
     FaceResult.confidence := FaceInfo.confidence face;
     FaceResult.similarity := best_similarity;
     FaceResult.identified := match best_match with
                              | Some _ => true
                              | None => false
                              end;
     FaceResult.student_info := best_match;
     FaceResult.encoding := face_encoding |}.

(** The loop over [detected_faces] (lines 253-280). *)
Fixpoint identify_loop (detected_faces : list FaceInfo.t)
    (known_faces : list KnownFace.t) : G -> list FaceResult.t * G :=
  match detected_faces with
  | [] => fun g => ([], g)
  | face :: rest =>
      fun g =>
        let '(face_encoding, g1) :=
          generate_face_encoding (Some (FaceInfo.face_region face)) g in
        let '(identified_faces, g2) := identify_loop rest known_faces g1 in
        (match face_encoding with
         | Some face_encoding =>
             face_result_of face face_encoding known_faces :: identified_faces
         | None => identified_faces
         end, g2)
  end.

(** [identify_faces]. Every call in its [try] block handles its own
    exceptions, so the block never reaches its [except] branch. *)
Definition identify_faces (image : option ndarray)
    (known_faces : list KnownFace.t) : G -> list FaceResult.t * G :=
  fun g =>
    let '(detected_faces, g1) := detect_faces image g in
    identify_loop detected_faces known_faces g1.

End Methods.

(** The dictionary listed for each face by [process_image_for_attendance]. *)
Module FaceSummary.
Record t : Type :=
  { bbox : Z * Z * Z * Z;
    confidence : Q;
    encoding : option (list R) }.
End FaceSummary.

(** The dictionary returned by [process_image_for_attendance]:
    [{'success': True, 'faces_detected': n, 'faces': [...]}],
    [{'success': False, 'error': 'Invalid image data'}], or
    [{'success': False, 'error': str(e)}] for an exception [e]. *)
Inductive processing : Type :=
| Processed (faces_detected : nat) (faces : list FaceSummary.t)
| Refused (error : string)
| Errored.

Section EntryPoint.

Context {G : Type}.
Variable backend : Backend G.

(** [cv2.imdecode(np.frombuffer(image_data, np.uint8), cv2.IMREAD_COLOR)]:
    an image, [None] for bytes that are no image, or an exception. *)
Variable imdecode : list Z -> result (option ndarray).

(** Lines 315-319: the dictionaries of [detect_faces] have no key
    ['encoding'], so [face.get('encoding', None)] is [None]. *)
Definition face_summary (face : FaceInfo.t) : FaceSummary.t :=
  {| FaceSummary.bbox := FaceInfo.bbox face;
     FaceSummary.confidence := FaceInfo.confidence face;
     FaceSummary.encoding := None |}.

(** [process_image_for_attendance]. *)
Definition process_image_for_attendance (image_data : list Z)
  : G -> processing * G :=
  fun g =>
    match imdecode image_data with
    | Raise => (Errored, g)
    | Ok None => (Refused "Invalid image data", g)
    | Ok (Some image) =>
        let '(faces, g1) := detect_faces backend (Some image) g in
        (Processed (length faces) (map face_summary faces), g1)
    end.

End EntryPoint.

End MediaPipeFaceRecognition.

(* ------------------------------------------------------------------------- *)
(** ** The arithmetic of [compare_faces] in IEEE 754 *)
(* ------------------------------------------------------------------------- *)

(** NumPy computes [np.dot], [np.linalg.norm] and the scalar operations that
    follow in the format of the arrays: binary32 for the [float32] arrays
    that [generate_face_encoding] builds and that the callers read from the
    database, binary64 for [float64] arrays such as the [np.zeros] of the
    fallback.  Every operation rounds to nearest, ties to even; none raises:
    an overflow gives an infinity and an invalid operation a NaN. *)
Module Ieee754.

(** Precision and exponent bound of a binary format. *)
Record format : Type := { prec : Z; emax : Z }.

Definition binary32 : format := {| prec := 24; emax := 128 |}.
Definition binary64 : format := {| prec := 53; emax := 1024 |}.

(** An entry of [known_faces] with its array of floats; the dictionary may
    lack the key ['encoding'], and the value may be [None]. *)
Record known_face : Type :=
  { id : Z;
    encoding : option (option (list spec_float)) }.

Section Arithmetic.

Variable fmt : format.

(** The float [m * 2 ^ e], for integers [m] and [e] (rounded if need be);
    [of_int m] is the conversion of a Python [int]. *)
Definition two_power (m e : Z) : spec_float :=
  binary_normalize (prec fmt) (emax fmt) m e false.

Definition of_int (m : Z) : spec_float := two_power m 0.

Definition add : spec_float -> spec_float -> spec_float :=
  SFadd (prec fmt) (emax fmt).
Definition mul : spec_float -> spec_float -> spec_float :=
  SFmul (prec fmt) (emax fmt).
Definition div : spec_float -> spec_float -> spec_float :=
  SFdiv (prec fmt) (emax fmt).
Definition sqrt : spec_float -> spec_float := SFsqrt (prec fmt) (emax fmt).

(** [np.dot(u, v)] on two 1-D arrays of one length, summed in index
    order. *)
Definition dot (u v : list spec_float) : spec_float :=
  fold_left (fun acc uv => add acc (mul (fst uv) (snd uv))) (combine u v)
            (of_int 0).

(** [np.linalg.norm(u)] on a 1-D array: [sqrt(u.dot(u))]. *)
Definition norm (u : list spec_float) : spec_float := sqrt (dot u u).

(** [compare_faces] (lines 197-234) on two arrays of one format.  The
    [except] branch is not reached, as no operation of the [try] block
    raises on arrays of floats, and [float(similarity)] keeps the value. *)
Definition compare_faces (encoding1 encoding2 : option (list spec_float))
  : spec_float :=
  match encoding1, encoding2 with
  | Some encoding1, Some encoding2 =>
      let min_len := Nat.min (length encoding1) (length encoding2) in
      let enc1 := firstn min_len encoding1 in
      let enc2 := firstn min_len encoding2 in
      let dot_product := dot enc1 enc2 in
      let norm1 := norm enc1 in
      let norm2 := norm enc2 in
      if SFeqb norm1 (of_int 0) || SFeqb norm2 (of_int 0)
      then of_int 0
      else
        let similarity := div dot_product (mul norm1 norm2) in
        div (add similarity (of_int 1)) (of_int 2)
  | _, _ => of_int 0
  end.

(** [float(x)]: the binary64 float of the same value. *)
Definition to_float (x : spec_float) : spec_float :=
  match x with
  | S754_finite s m e =>
      binary_normalize (prec binary64) (emax binary64)
        (if s then Zneg m else Zpos m) e s
  | _ => x
  end.

(** Body of the loop over [known_faces] (lines 263-268) on the Python
    floats it compares: [similarity], [best_similarity] and
    [self.similarity_threshold] are binary64. *)
Definition best_match_step (similarity_threshold : spec_float)
    (face_encoding : list spec_float)
    (acc : option known_face * spec_float) (known : known_face)
  : option known_face * spec_float :=
  let '(best_match, best_similarity) := acc in
  match encoding known with
  | Some known_encoding =>
      let similarity :=
        to_float (compare_faces (Some face_encoding) known_encoding) in
      if SFltb best_similarity similarity
         && SFltb similarity_threshold similarity
      then (Some known, similarity)
      else (best_match, best_similarity)
  | None => (best_match, best_similarity)
  end.

(** Lines 258-268: [best_match] and [best_similarity] after the loop, from
    [None] and [0.0]; the face is identified when [best_match] is not
    [None] (line 274). *)
Definition best_match (similarity_threshold : spec_float)
    (face_encoding : list spec_float) (known_faces : list known_face)
  : option known_face * spec_float :=
  fold_left (best_match_step similarity_threshold face_encoding) known_faces
            (None, S754_zero false).

(** [encoding / np.linalg.norm(encoding)] (line 161). *)
Definition normalize (encoding : list spec_float) : list spec_float :=
  map (fun v => div v (norm encoding)) encoding.

(** [0 <= x <= 1] on floats; false for a NaN. *)
Definition in_unit_interval (x : spec_float) : bool :=
  SFleb (of_int 0) x && SFleb x (of_int 1).

End Arithmetic.

End Ieee754.

(* ------------------------------------------------------------------------- *)
(** ** [app.py]: the attendance ledger and the [/mark_attendance] route *)
(* ------------------------------------------------------------------------- *)

Module App.

(** [datetime.date]. *)
Record date : Type := { year : Z; month : Z; day : Z }.

Definition date_eqb (a b : date) : bool :=
  (year a =? year b)%Z && (month a =? month b)%Z && (day a =? day b)%Z.

(** [datetime.datetime]: a date and the microseconds since midnight. *)
Record datetime : Type := { on : date; microseconds : Z }.

(** A row of the [student] table. *)
Module Student.
Record t : Type :=
  { id : Z;
    name : string;
    roll_number : string;
    photo_path : string;
    face_encoding : option string }.
End Student.

(** A row of the [attendance] table. *)
Module Attendance.
Record t : Type :=
  { id : Z;
    student_id : Z;
    date : App.date;
    time_in : datetime;
    status : string }.
End Attendance.

(** The attendance ledger: the rows of [attendance] in insertion order. *)
Definition ledger : Type := list Attendance.t.

Definition same_key (student_id : Z) (d : date) (r : Attendance.t) : bool :=
  (Attendance.student_id r =? student_id)%Z && date_eqb (Attendance.date r) d.

(** [Attendance.query.filter_by(student_id=..., date=...)]. *)
Definition filter_by (l : ledger) (student_id : Z) (d : date) : ledger :=
  filter (same_key student_id d) l.

(** [.first()]. *)
Definition first {A} (rows : list A) : option A :=
  match rows with
  | r :: _ => Some r
  | [] => None
  end.

(** Number of records of the ledger for a student and a date. *)
Definition records_for (l : ledger) (student_id : Z) (d : date) : nat :=
  length (filter_by l student_id d).

(** The primary key given to a new row. *)
Definition next_id (l : ledger) : Z :=
  (fold_right Z.max 0 (map Attendance.id l) + 1)%Z.

(** [db.session.add(Attendance(...)); db.session.commit()]: the row is
    stored unless [unique_attendance] (line 44) rejects it, in which case the
    commit raises. *)
Definition add_commit (student_id : Z) (d : date) (t : datetime)
    (status : string) : M ledger unit :=
  fun l =>
    match first (filter_by l student_id d) with
    | Some _ => (Raise, l)
    | None =>
        (Ok tt,
         l ++ [ {| Attendance.id := next_id l;
                   Attendance.student_id := student_id;
                   Attendance.date := d;
                   Attendance.time_in := t;
                   Attendance.status := status |} ])
    end.

(** An entry of [recognized_students]. *)
Module Recognized.
Record t : Type :=
  { name : string;
    roll_number : string;
    status : string }.
End Recognized.

(** Lines 161-189: the attendance decision for a matched student;
    [today] is [date.today()] and [utcnow] is [datetime.utcnow()]. *)
Definition mark_student (student : Student.t) (today : date)
    (utcnow : datetime) : M ledger Recognized.t :=
  fun l =>
    match first (filter_by l (Student.id student) today) with
    | None =>
        bind (add_commit (Student.id student) today utcnow "Present")
             (fun _ =>
                ret {| Recognized.name := Student.name student;
                       Recognized.roll_number := Student.roll_number student;
                       Recognized.status := "Attendance marked" |})
             l
    | Some _ =>
        (Ok {| Recognized.name := Student.name student;
               Recognized.roll_number := Student.roll_number student;
               Recognized.status := "Already marked today" |}, l)
    end.

(** The JSON answer of the route. *)
Inductive response : Type :=
| Recognised (students : list Recognized.t)
| Failure (message : string)
| Error.

(** One face of the captured image: its encoding, and the clock values read
    if it matches a student. *)
Record face : Type :=
  { face_encoding : list R; today : date; utcnow : datetime }.

Section Route.

(** [J] is the type of what [np.array(json.loads(text))] builds from a stored
    encoding: any JSON value parses, not only a list of 128 numbers.
    [json_loads text] is [Raise] when the text is not JSON, and
    [compare_faces stored probe] is
    [face_recognition.compare_faces([stored], probe, tolerance=0.6)[0]],
    which raises when the stored array cannot be subtracted from the probe
    (another length, entries that are not numbers).  Both are called inside
    the [try] of the route. *)
Context {J : Type}.
Variable json_loads : string -> result J.
Variable compare_faces : J -> list R -> result bool.

(** [if student.face_encoding:]. *)
Definition has_encoding (student : Student.t) : option string :=
  match Student.face_encoding student with
  | Some EmptyString => None
  | e => e
  end.

(** The loop over [all_students] for one face (lines 152-190): the first
    matching student is handled and ends the loop. *)
Fixpoint match_students (all_students : list Student.t) (f : face)
  : M ledger (list Recognized.t) :=
  match all_students with
  | [] => ret []
  | student :: rest =>
      match has_encoding student with
      | Some text =>
          (stored_encoding <- lift (json_loads text) ;;
           matches <- lift (compare_faces stored_encoding (face_encoding f)) ;;
           if (matches : bool)
           then (r <- mark_student student (today f) (utcnow f) ;; ret [r])
           else match_students rest f)%py
      | None => match_students rest f
      end
  end.

(** The loop over [face_encodings] (lines 151-190). *)
Fixpoint match_faces (all_students : list Student.t) (faces : list face)
  : M ledger (list Recognized.t) :=
  match faces with
  | [] => ret []
  | f :: rest =>
      (rs <- match_students all_students f ;;
       rs' <- match_faces all_students rest ;;
       ret (rs ++ rs'))%py
  end.

(** [mark_attendance]: [face_encodings] is the outcome of decoding the
    posted image and of [face_recognition.face_encodings]. *)
Definition mark_attendance (all_students : list Student.t)
    (face_encodings : result (list face)) (l : ledger) : response * ledger :=
  match face_encodings with
  | Raise => (Error, l)
  | Ok [] => (Failure "No face detected in the image", l)
  | Ok faces =>
      match match_faces all_students faces l with
      | (Ok [], l') =>
          (Failure "No registered students recognized in the image", l')
      | (Ok recognized_students, l') => (Recognised recognized_students, l')
      | (Raise, l') => (Error, l')
      end
  end.

(** A sequence of requests served one after the other. *)
Fixpoint serve (all_students : list Student.t)
    (requests : list (result (list face))) (l : ledger) : ledger :=
  match requests with
  | [] => l
  | request :: rest =>
      serve all_students rest (snd (mark_attendance all_students request l))
  end.

End Route.

(** [os.path.join(a, b)] for a non-empty [a] without a trailing separator:
    an absolute [b] replaces [a]. *)
Definition os_path_join (a b : string) : string :=
  match b with
  | String "/"%char _ => b
  | _ => (a ++ "/" ++ b)%string
  end.

(** The student table and the files of [static/uploads] (and elsewhere). *)
Record site : Type := { students : list Student.t; files : list string }.

(** What [file.save(path)] and [os.remove(path)] do to the files when they
    succeed; whether they succeed is decided by the file system, see
    [add_student]. *)
Definition save (path : string) (fs : list string) : list string :=
  if in_dec string_dec path fs then fs else fs ++ [path].

Definition remove (path : string) (fs : list string) : list string :=
  filter (fun p => negb (String.eqb p path)) fs.

(** [Student.query.filter_by(roll_number=...)]. *)
Definition by_roll_number (all_students : list Student.t)
    (roll_number : string) : list Student.t :=
  filter (fun s => String.eqb (Student.roll_number s) roll_number)
         all_students.

Definition next_student_id (all_students : list Student.t) : Z :=
  (fold_right Z.max 0 (map Student.id all_students) + 1)%Z.

(** [db.session.add(new_student); db.session.commit()]: the row is stored
    unless the [unique=True] of [roll_number] (line 28) rejects it. *)
Definition add_student_commit (name roll_number photo_path : string)
    (face_encoding : string) (all_students : list Student.t)
  : result (list Student.t) :=
  match first (by_roll_number all_students roll_number) with
  | Some _ => Raise
  | None =>
      Ok (all_students
          ++ [ {| Student.id := next_student_id all_students;
                  Student.name := name;
                  Student.roll_number := roll_number;
                  Student.photo_path := photo_path;
                  Student.face_encoding := Some face_encoding |} ])
  end.

Inductive http_method : Type := GET | POST.

(** A request to [/add_student]: the form fields when the form has them,
    the file name of [request.files['photo']] when that key is present, and
    what [face_recognition.face_encodings] finds in the saved photo. *)
Record enrolment : Type :=
  { method : http_method;
    form_name : option string;
    form_roll_number : option string;
    photo : option string;
    photo_encodings : result (list (list R)) }.

(** What the route answers: the form without a message, the form with a
    flashed error, the form with the flashed 'Error processing photo: ...',
    the redirection after 'Student added successfully!', the 400 answer
    Flask gives to a [KeyError] on [request.form], or the 500 answer to an
    exception that leaves the view. *)
Inductive enrolment_answer : Type :=
| Form
| Rejected (flashed : string)
| PhotoError
| Added
| BadRequest
| Crashed.

Section AddStudent.

(** [json.dumps(face_encoding.tolist())]. *)
Variable json_dumps : list R -> string.

(** The file system: whether [file.save(path)] and [os.remove(path)] raise
    ([OSError]: missing directory, permissions, full disk, ...), and the
    files that a [file.save] that raised leaves behind. *)
Variable file_save_raises : string -> bool.
Variable failed_save : string -> list string -> list string.
Variable os_remove_raises : string -> bool.

(** The [except] clause (lines 112-116): the photo is removed when it
    exists; an [os.remove] that raises there leaves the view. *)
Definition except_clause (filepath : string) (all_students : list Student.t)
    (fs : list string) : enrolment_answer * site :=
  if in_dec string_dec filepath fs
  then
    if os_remove_raises filepath
    then (Crashed, {| students := all_students; files := fs |})
    else (PhotoError,
          {| students := all_students; files := remove filepath fs |})
  else (PhotoError, {| students := all_students; files := fs |}).

(** [add_student] (lines 56-118).  [file.save] (line 82) is called before
    the [try]: when it raises, the exception leaves the view. *)
Definition add_student (request : enrolment) (db : site)
  : enrolment_answer * site :=
  match method request with
  | GET => (Form, db)
  | POST =>
      match form_name request, form_roll_number request with
      | Some name, Some roll_number =>
          match first (by_roll_number (students db) roll_number) with
          | Some _ => (Rejected "Roll number already exists!", db)
          | None =>
              match photo request with
              | None => (Rejected "No photo uploaded!", db)
              | Some EmptyString => (Rejected "No photo selected!", db)
              | Some file_name =>
                  let filename := (roll_number ++ "_" ++ file_name)%string in
                  let filepath := os_path_join "static/uploads" filename in
                  if file_save_raises filepath
                  then
                    (Crashed,
                     {| students := students db;
                        files := failed_save filepath (files db) |})
                  else
                    let saved := save filepath (files db) in
                    match photo_encodings request with
                    | Raise => except_clause filepath (students db) saved
                    | Ok [] =>
                        if os_remove_raises filepath
                        then except_clause filepath (students db) saved
                        else
                          (Rejected
                             "No face detected in the photo. Please upload a clear photo with a visible face.",
                           {| students := students db;
                              files := remove filepath saved |})
                    | Ok (face_encoding :: _) =>
                        match
                          add_student_commit name roll_number filepath
                            (json_dumps face_encoding) (students db)
                        with
                        | Ok students' =>
                            (Added,
                             {| students := students'; files := saved |})
                        | Raise =>
                            except_clause filepath (students db) saved
                        end
                    end
              end
          end
      | _, _ => (BadRequest, db)
      end
  end.

End AddStudent.

(** [db.session.query(Attendance, Student).join(Student)
       .filter(Attendance.date == d).all()]. *)
Definition report (all_students : list Student.t) (l : ledger) (d : date)
  : list (Attendance.t * Student.t) :=
  flat_map
    (fun a =>
       map (pair a)
           (filter (fun s => (Student.id s =? Attendance.student_id a)%Z)
                   all_students))
    (filter (fun a => date_eqb (Attendance.date a) d) l).

(** What [/reports/<date_str>] shows: the rows of a date, or the flashed
    'Invalid date format' and the redirection to [/reports]. *)
Inductive report_page : Type :=
| Report (attendance_records : list (Attendance.t * Student.t)) (d : date)
| InvalidDate.

(** [reports_by_date] (lines 217-228); [strptime] is
    [datetime.strptime(date_str, '%Y-%m-%d').date()], which raises
    [ValueError] on a malformed string. *)
Definition reports_by_date (strptime : string -> result date)
    (date_str : string) (all_students : list Student.t) (l : ledger)
  : report_page :=
  match strptime date_str with
  | Ok report_date => Report (report all_students l report_date) report_date
  | Raise => InvalidDate
  end.

End App.

(* ------------------------------------------------------------------------- *)
(** ** Test doubles and inputs for the concrete runs *)
(* ------------------------------------------------------------------------- *)

Module Scenario.

Import MediaPipeFaceRecognition.

(** Channel reversal of every pixel of a three-channel image. *)
Definition swap_channels (a : ndarray) : result ndarray :=
  match shape a with
  | [h; w; 3%Z] =>
      Ok {| shape := shape a;
            data := flat_map (@rev Z)
                      (chunks 3 (Z.to_nat (h * w)) (data a)) |}
  | _ => Raise
  end.

(** Integer luma of every pixel of a three-channel image. *)
Definition luma (a : ndarray) : result ndarray :=
  match shape a with
  | [h; w; 3%Z] =>
      Ok {| shape := [h; w];
            data := map (fun px =>
                           match px with
                           | [r; g; b] =>
                               ((299 * r + 587 * g + 114 * b + 500) / 1000)%Z
                           | _ => 0%Z
                           end)
                      (chunks 3 (Z.to_nat (h * w)) (data a)) |}
  | _ => Raise
  end.

(** Nearest-neighbour resampling to [(width, height)]; an empty source
    raises, as [cv2.resize] does. *)
Definition nearest (a : ndarray) (dsize : Z * Z) : result ndarray :=
  let '(W, H) := dsize in
  match shape a with
  | h :: w :: rest =>
      if (size a =? 0)%Z then Raise
      else
        let item := Z.to_nat (prod rest) in
        let rows := chunks (Z.to_nat w * item) (Z.to_nat h) (data a) in
        Ok {| shape := H :: W :: rest;
              data :=
                flat_map
                  (fun i =>
                     let row := nth (i * Z.to_nat h / Z.to_nat H) rows [] in
                     flat_map
                       (fun j =>
                          firstn item
                            (skipn (j * Z.to_nat w / Z.to_nat W * item) row))
                       (seq 0 (Z.to_nat W)))
                  (seq 0 (Z.to_nat H)) |}
  | _ => Raise
  end.

(** A backend whose graphs count the frames they have processed and answer
    every frame with the given detections and face meshes. *)
Definition stub (detections : option (list Detection))
    (meshes : option (list (list Landmark))) : Backend nat :=
  {| cvtColor := fun a code =>
                   match code with
                   | COLOR_BGR2RGB => swap_channels a
                   | COLOR_RGB2GRAY => luma a
                   end;
     resize := nearest;
     face_detection_process := fun _ frames => (Ok detections, S frames);
     face_mesh_process := fun _ frames => (Ok meshes, S frames) |}.

(** A backend whose detection graph raises on every frame. *)
Definition broken : Backend nat :=
  {| cvtColor := fun a _ => Ok a;
     resize := nearest;
     face_detection_process := fun _ frames => (Raise, S frames);
     face_mesh_process := fun _ frames => (Ok None, S frames) |}.

(** A 4 x 4 colour image. *)
Definition image : ndarray :=
  {| shape := [4; 4; 3]%Z; data := map Z.of_nat (seq 10 48) |}.

(** A 2 x 2 black colour crop. *)
Definition black_crop : ndarray :=
  {| shape := [2; 2; 3]%Z; data := repeat 0%Z 12 |}.

Definition detection (xmin ymin width height : Q) : Detection :=
  {| relative_bounding_box :=
       {| xmin := xmin; ymin := ymin; width := width; height := height |};
     relative_keypoints := [(0.5, 0.5)];
     score := [0.9] |}.

(** Two faces inside the image and one reported beyond its right edge. *)
Definition three_detections : list Detection :=
  [ detection 0 0 0.5 0.5;
    detection 0.5 0.5 0.5 0.5;
    detection 1.5 0.25 0.5 0.5 ].

(** A face mesh of one landmark. *)
Definition mesh : list (list Landmark) :=
  [ [ {| x := 1%R; y := 0%R; z := 0%R |} ] ].

Definition known (id : Z) (name : string) (encoding : list R) : KnownFace.t :=
  {| KnownFace.id := id;
     KnownFace.name := name;
     KnownFace.roll_number := name;
     KnownFace.encoding := Some (Some encoding) |}.

(** A gallery of one student, at similarity 0.2 from the encoding [[1; 0]]. *)
Definition gallery_far : list KnownFace.t :=
  [ known 1 "A" [(-3)%R; 4%R] ].

(** A gallery of two students at the same similarity 1 from [[1; 0]]. *)
Definition gallery_tie : list KnownFace.t :=
  [ known 1 "A" [(-3)%R; 4%R]; known 2 "B" [2%R; 0%R]; known 3 "C" [5%R; 0%R] ].

(** A recognizer whose threshold has been set to 1/5. *)
Definition strict : t :=
  {| encoding_size := 128; similarity_threshold := (1 / 5)%R |}.

Definition some_face : FaceInfo.t :=
  {| FaceInfo.bbox := (0, 0, 2, 2)%Z;
     FaceInfo.confidence := 0.9;
     FaceInfo.landmarks := [];
     FaceInfo.face_region := black_crop |}.

(** Ledger inputs. *)
Definition monday : App.date :=
  {| App.year := 2024; App.month := 1; App.day := 8 |}.

Definition at_0805 : App.datetime :=
  {| App.on := monday; App.microseconds := 29100000000 |}.

Definition at_0810 : App.datetime :=
  {| App.on := monday; App.microseconds := 29400000000 |}.

Definition student_a : App.Student.t :=
  {| App.Student.id := 7;
     App.Student.name := "A";
     App.Student.roll_number := "R7";
     App.Student.photo_path := "static/uploads/R7_a.jpg";
     App.Student.face_encoding := Some "[1.0, 0.0]"%string |}.

End Scenario.

(* ------------------------------------------------------------------------- *)
(** ** Vocabulary of the properties *)
(* ------------------------------------------------------------------------- *)

Module Spec.

Import MediaPipeFaceRecognition.

Local Open Scope R_scope.

(** Cosine similarity of two vectors, as the specification words it. *)
Definition cosine_similarity (a b : list R) : R :=
  dot a b / (norm a * norm b).

(** The similarities the loop computes: one for every gallery entry that has
    the key ['encoding'], in gallery order. *)
Definition scores (face_encoding : list R) (known_faces : list KnownFace.t)
  : list R :=
  flat_map (fun known_face =>
              match KnownFace.encoding known_face with
              | Some known_encoding =>
                  [compare_faces (Some face_encoding) known_encoding]
              | None => []
              end)
           known_faces.

(** [m] is the maximum of the list [l]. *)
Definition is_max (m : R) (l : list R) : Prop :=
  In m l /\ forall s, In s l -> s <= m.

(** The entry at position [i] scores [m] and every earlier entry scores
    strictly less. *)
Definition first_at (face_encoding : list R) (known_faces : list KnownFace.t)
    (i : nat) (known_face : KnownFace.t) (m : R) : Prop :=
  nth_error known_faces i = Some known_face
  /\ (exists known_encoding,
         KnownFace.encoding known_face = Some known_encoding
         /\ compare_faces (Some face_encoding) known_encoding = m)
  /\ forall j other other_encoding,
       (j < i)%nat ->
       nth_error known_faces j = Some other ->
       KnownFace.encoding other = Some other_encoding ->
       compare_faces (Some face_encoding) other_encoding < m.

(** Invariant of the loop of lines 262-268 after the entries [seen]. *)
Definition loop_inv (self : t) (q : list R) (seen : list KnownFace.t)
    (acc : option KnownFace.t * R) : Prop :=
  match acc with
  | (None, best) =>
      best = 0
      /\ forall s, In s (scores q seen) ->
                   ~ (s > 0 /\ s > similarity_threshold self)
  | (Some known_face, best) =>
      best > 0 /\ best > similarity_threshold self
      /\ (forall s, In s (scores q seen) -> s <= best)
      /\ exists i, first_at q seen i known_face best
  end.

(** The same notions on the floats of the code.  The similarity computed
    for a gallery entry, as the Python float that the loop compares. *)
Definition float_score (fmt : Ieee754.format) (q : list spec_float)
    (known_encoding : option (list spec_float)) : spec_float :=
  Ieee754.to_float (Ieee754.compare_faces fmt (Some q) known_encoding).

Definition float_scores (fmt : Ieee754.format) (q : list spec_float)
    (known_faces : list Ieee754.known_face) : list spec_float :=
  flat_map (fun known =>
              match Ieee754.encoding known with
              | Some known_encoding => [float_score fmt q known_encoding]
              | None => []
              end)
           known_faces.

(** The entry at position [i] scores [m] and no earlier entry scores a
    float equal to [m]. *)
Definition float_first_at (fmt : Ieee754.format) (q : list spec_float)
    (known_faces : list Ieee754.known_face) (i : nat)
    (known : Ieee754.known_face) (m : spec_float) : Prop :=
  nth_error known_faces i = Some known
  /\ (exists known_encoding,
         Ieee754.encoding known = Some known_encoding
         /\ float_score fmt q known_encoding = m)
  /\ forall j other other_encoding,
       (j < i)%nat ->
       nth_error known_faces j = Some other ->
       Ieee754.encoding other = Some other_encoding ->
       SFeqb (float_score fmt q other_encoding) m = false.

(** Invariant of the loop of lines 262-268 on floats. *)
Definition float_loop_inv (fmt : Ieee754.format) (threshold : spec_float)
    (q : list spec_float) (seen : list Ieee754.known_face)
    (acc : option Ieee754.known_face * spec_float) : Prop :=
  match acc with
  | (None, best) =>
      best = S754_zero false
      /\ forall s, In s (float_scores fmt q seen) ->
                   SFltb (S754_zero false) s && SFltb threshold s = false
  | (Some known, best) =>
      SFltb (S754_zero false) best = true
      /\ SFltb threshold best = true
      /\ (forall s, In s (float_scores fmt q seen) -> SFltb best s = false)
      /\ exists i, float_first_at fmt q seen i known best
  end.

(** What the matcher reports on floats, for a threshold that is not
    negative: a match exactly when some entry scores above the threshold;
    with a match, a similarity above the threshold that no score of the
    gallery exceeds, from the first entry that scores it; without a match,
    the similarity 0.0. *)
Definition float_matcher_spec (fmt : Ieee754.format) (threshold : spec_float)
    (q : list spec_float) (known_faces : list Ieee754.known_face) : Prop :=
  let best := Ieee754.best_match fmt threshold q known_faces in
  ((exists known, fst best = Some known)
   <-> exists known known_encoding,
         In known known_faces
         /\ Ieee754.encoding known = Some known_encoding
         /\ SFltb threshold (float_score fmt q known_encoding) = true)
  /\ (forall known,
         fst best = Some known ->
         SFltb threshold (snd best) = true
         /\ (forall other other_encoding,
                In other known_faces ->
                Ieee754.encoding other = Some other_encoding ->
                SFltb (snd best) (float_score fmt q other_encoding) = false)
         /\ exists i, float_first_at fmt q known_faces i known (snd best))
  /\ (fst best = None -> snd best = S754_zero false).

Section Pipeline.

Context {G : Type}.
Variable backend : Backend G.
Variable self : t.

(** The outcome of [generate_face_encoding] for each detected face, in
    detection order, from the graph state [g]. *)
Fixpoint encodings (detected_faces : list FaceInfo.t) (g : G)
  : list (FaceInfo.t * option (list R)) :=
  match detected_faces with
  | [] => []
  | face :: rest =>
      let '(face_encoding, g1) :=
        generate_face_encoding backend self
          (Some (FaceInfo.face_region face)) g in
      (face, face_encoding) :: encodings rest g1
  end.

(** The outcomes kept for a list of faces and their encodings. *)
Definition outcomes (known_faces : list KnownFace.t)
    (encoded : list (FaceInfo.t * option (list R))) : list FaceResult.t :=
  flat_map (fun fe =>
              match snd fe with
              | Some q => [face_result_of self (fst fe) q known_faces]
              | None => []
              end)
           encoded.

(** The crop that the face mesh sees: [face_image] is a crop that is not
    empty, [face_resized] its resizing to 160 x 160 and [face_rgb] the
    colour conversion of the latter when it has three dimensions. *)
Definition prepared (face_image : option ndarray) (face_rgb : ndarray)
  : Prop :=
  exists image face_resized,
    face_image = Some image
    /\ size image <> 0%Z
    /\ resize backend image (160, 160)%Z = Ok face_resized
    /\ (if (ndim face_resized =? 3)%nat
        then cvtColor backend face_resized COLOR_BGR2RGB
        else Ok face_resized) = Ok face_rgb.

(** The graphs answer a frame alike whatever frames they processed before. *)
Definition stateless : Prop :=
  (forall frame g g',
      fst (face_detection_process backend frame g)
      = fst (face_detection_process backend frame g'))
  /\ (forall frame g g',
         fst (face_mesh_process backend frame g)
         = fst (face_mesh_process backend frame g')).

End Pipeline.

(** The ledger holds at most one record per student and date. *)
Definition unique (l : App.ledger) : Prop :=
  forall student_id d, (App.records_for l student_id d <= 1)%nat.

(** An array whose dimensions are non-negative and whose data fill its
    shape. *)
Definition well_formed (a : ndarray) : Prop :=
  Forall (fun d => (0 <= d)%Z) (shape a)
  /\ length (data a) = Z.to_nat (prod (shape a)).

(** The box lies in an image of [h] rows and [w] columns, up to its right
    and bottom edges, from a non-negative corner. *)
Definition clamped (h w : Z) (box : Z * Z * Z * Z) : Prop :=
  let '(x, y, width, height) := box in
  (0 <= x /\ 0 <= y /\ x + width <= w /\ y + height <= h)%Z.

(** Number of entries of [recognized_students] with the status
    'Attendance marked'. *)
Definition marked (rs : list App.Recognized.t) : nat :=
  length (filter (fun r => String.eqb (App.Recognized.status r)
                                      "Attendance marked") rs).

(** The record [r] is the one written for the face [f]: a 'Present' record,
    at the clock values of the face, of a student of the table whose stored
    encoding parses and matches the face. *)
Definition written_for {J : Type} (json_loads : string -> result J)
    (compare_faces : J -> list R -> result bool)
    (all_students : list App.Student.t) (f : App.face)
    (r : App.Attendance.t) : Prop :=
  exists student text stored,
    In student all_students
    /\ App.has_encoding student = Some text
    /\ json_loads text = Ok stored
    /\ compare_faces stored (App.face_encoding f) = Ok true
    /\ App.Attendance.student_id r = App.Student.id student
    /\ App.Attendance.date r = App.today f
    /\ App.Attendance.time_in r = App.utcnow f
    /\ App.Attendance.status r = "Present"%string.

(** The student does not stop the loop over [all_students] for the face
    [f]: it has no stored encoding, or its encoding parses and does not
    match. *)
Definition passed_over {J : Type} (json_loads : string -> result J)
    (compare_faces : J -> list R -> result bool) (f : App.face)
    (student : App.Student.t) : Prop :=
  App.has_encoding student = None
  \/ exists text stored,
       App.has_encoding student = Some text
       /\ json_loads text = Ok stored
       /\ compare_faces stored (App.face_encoding f) = Ok false.

(** The stored encoding of the student parses and can be compared with
    every face of the request. *)
Definition comparable {J : Type} (json_loads : string -> result J)
    (compare_faces : J -> list R -> result bool) (faces : list App.face)
    (student : App.Student.t) : Prop :=
  forall text,
    App.has_encoding student = Some text ->
    exists stored,
      json_loads text = Ok stored
      /\ forall f, In f faces ->
                   compare_faces stored (App.face_encoding f) <> Raise.

End Spec.

Import Spec.

(* ------------------------------------------------------------------------- *)
(** ** Properties of [detect_faces] *)
(* ------------------------------------------------------------------------- *)

Module DetectFacesProps.

Import MediaPipeFaceRecognition.

(** What the clamping of lines 88-91 does establish: the box starts at a
    non-negative corner and ends inside the image. *)
Lemma pixel_bbox_upper_clamp (h w : Z) (bbox : RelativeBoundingBox) :
  let '(x, y, width, height) := pixel_bbox h w bbox in
  (0 <= x /\ 0 <= y /\ x + width <= w /\ y + height <= h)%Z.
Proof.
  unfold pixel_bbox. cbv zeta. repeat split; lia.
Qed.

(** C8, run on a detection reported beyond the right edge of a 4 x 4 image:
    the third returned box starts at column 6, outside the image, and has
    width -2, so the returned boxes do not all lie inside the image with
    positive extent. *)
Theorem detect_faces_box_outside_image :
  map FaceInfo.bbox
      (fst (detect_faces
              (Scenario.stub (Some Scenario.three_detections)
                             (Some Scenario.mesh))
              (Some Scenario.image) 0%nat))
  = [(0, 0, 2, 2); (2, 2, 2, 2); (6, 1, -2, 2)]%Z.
Proof. vm_compute. reflexivity. Qed.

Section Failures.

Context {G : Type}.
Variable backend : Backend G.

Lemma detect_faces_unfold (image : ndarray) (g : G) :
  fst (detect_faces backend (Some image) g)
  = match fst (detect_faces_try backend image g) with
    | Ok faces => faces
    | Raise => []
    end.
Proof.
  unfold detect_faces, try_except.
  destruct (detect_faces_try backend image g) as [[faces|] g']; reflexivity.
Qed.

Lemma detect_faces_try_unfold (image : ndarray) (g : G) :
  detect_faces_try backend image g
  = match rgb_of backend image with
    | Raise => (Raise, g)
    | Ok rgb_image =>
        match face_detection_process backend rgb_image g with
        | (Raise, g') => (Raise, g')
        | (Ok (Some ((_ :: _) as detections)), g') =>
            (match shape image with
             | h :: w :: _ => for_each (face_info_of image h w) detections
             | _ => Raise
             end, g')
        | (Ok _, g') => (Ok [], g')
        end
    end.
Proof.
  unfold detect_faces_try, bind, lift, ret.
  destruct (rgb_of backend image) as [rgb|]; [|reflexivity].
  destruct (face_detection_process backend rgb g) as [[[[|d ds]|]|] g'];
    reflexivity.
Qed.

Lemma for_each_raise {A B} (body : A -> result B) (l : list A) (a : A) :
  In a l -> body a = Raise -> for_each body l = Raise.
Proof.
  induction l as [|a' l IH]; intros Hin Hraise; [contradiction|].
  destruct Hin as [->|Hin]; simpl.
  - rewrite Hraise. reflexivity.
  - rewrite (IH Hin Hraise). destruct (body a'); reflexivity.
Qed.

(** C10: [detect_faces] always returns a list.  A missing image, a colour
    conversion that raises, a detection graph that raises, and a detection
    whose score list is empty (so that [score[0]] raises) all give the empty
    list, which is also the answer for an image in which the graph finds no
    face. *)
Theorem detect_faces_never_raises :
  (forall g, detect_faces backend None g = ([], g))
  /\ (forall image g,
        rgb_of backend image = Raise ->
        detect_faces backend (Some image) g = ([], g))
  /\ (forall image rgb_image g,
        rgb_of backend image = Ok rgb_image ->
        fst (face_detection_process backend rgb_image g) = Raise ->
        fst (detect_faces backend (Some image) g) = [])
  /\ (forall image rgb_image g detections detection,
        rgb_of backend image = Ok rgb_image ->
        fst (face_detection_process backend rgb_image g)
        = Ok (Some detections) ->
        In detection detections ->
        score detection = [] ->
        fst (detect_faces backend (Some image) g) = [])
  /\ (forall image rgb_image g detections,
        rgb_of backend image = Ok rgb_image ->
        fst (face_detection_process backend rgb_image g) = Ok detections ->
        truthy detections = false ->
        fst (detect_faces backend (Some image) g) = []).
Proof.
  split; [reflexivity|].
  split.
  { intros image g Hrgb. unfold detect_faces, try_except.
    rewrite detect_faces_try_unfold, Hrgb. reflexivity. }
  split.
  { intros image rgb g Hrgb Hdet.
    rewrite detect_faces_unfold, detect_faces_try_unfold, Hrgb.
    destruct (face_detection_process backend rgb g) as [r g'].
    simpl in Hdet. subst r. reflexivity. }
  split.
  { intros image rgb g detections detection Hrgb Hdet Hin Hscore.
    rewrite detect_faces_unfold, detect_faces_try_unfold, Hrgb.
    destruct (face_detection_process backend rgb g) as [r g'].
    simpl in Hdet. subst r.
    destruct detections as [|d ds]; [contradiction|].
    destruct (shape image) as [|h [|w rest]]; try reflexivity.
    cbn [fst].
    rewrite (for_each_raise (face_info_of image h w) (d :: ds) detection Hin).
    - reflexivity.
    - unfold face_info_of.
      destruct (pixel_bbox h w (relative_bounding_box detection))
        as [[[x y] width] height].
      rewrite Hscore. reflexivity. }
  { intros image rgb g detections Hrgb Hdet Hfalsy.
    rewrite detect_faces_unfold, detect_faces_try_unfold, Hrgb.
    destruct (face_detection_process backend rgb g) as [r g'].
    simpl in Hdet. subst r.
    destruct detections as [[|d ds]|]; try reflexivity. discriminate. }
Qed.

End Failures.

(** C10 at work: a missing image, a detection graph that raises and a graph
    that finds no face are answered alike. *)
Lemma detect_faces_never_raises_run :
  fst (detect_faces Scenario.broken None 0%nat) = []
  /\ fst (detect_faces Scenario.broken (Some Scenario.image) 0%nat) = []
  /\ fst (detect_faces (Scenario.stub None None) (Some Scenario.image) 0%nat)
     = [].
Proof.
  split; [reflexivity|]. split.
  - exact (proj1 (proj2 (proj2 (detect_faces_never_raises Scenario.broken)))
             Scenario.image Scenario.image 0%nat eq_refl eq_refl).
  - exact (proj2 (proj2 (proj2 (proj2
             (detect_faces_never_raises (Scenario.stub None None)))))
             Scenario.image
             {| shape := [4; 4; 3]%Z;
                data := flat_map (@rev Z)
                          (chunks 3 16 (data Scenario.image)) |}
             0%nat None eq_refl eq_refl eq_refl).
Defined.

End DetectFacesProps.

(* ------------------------------------------------------------------------- *)
(** ** Properties of the gallery matcher of [identify_faces] *)
(* ------------------------------------------------------------------------- *)

Module MatcherProps.

Import MediaPipeFaceRecognition.

Local Open Scope R_scope.

Lemma Rgtb_true (a b : R) : Rgtb a b = true <-> a > b.
Proof. unfold Rgtb. destruct (Rgt_dec a b); split; intros; congruence. Qed.

Lemma Rgtb_false (a b : R) : Rgtb a b = false <-> a <= b.
Proof.
  unfold Rgtb. destruct (Rgt_dec a b); split; intros; try congruence; lra.
Qed.

(** Decides the float comparisons of a concrete run. *)
Ltac decide_Rgtb :=
  repeat match goal with
         | |- context [Rgtb ?a ?b] =>
             first [ replace (Rgtb a b) with true
                       by (symmetry; apply Rgtb_true; simpl; lra)
                   | replace (Rgtb a b) with false
                       by (symmetry; apply Rgtb_false; simpl; lra) ];
             cbn [andb]
         end.

Lemma in_scores (q : list R) (known_faces : list KnownFace.t) (s : R) :
  In s (scores q known_faces)
  <-> exists kf enc, In kf known_faces /\ KnownFace.encoding kf = Some enc
                     /\ compare_faces (Some q) enc = s.
Proof.
  unfold scores. rewrite in_flat_map. split.
  - intros (kf & Hin & Hs). destruct (KnownFace.encoding kf) as [enc|] eqn:E.
    + destruct Hs as [<-|[]]. eauto.
    + contradiction.
  - intros (kf & enc & Hin & E & <-). exists kf. split; [assumption|].
    rewrite E. left. reflexivity.
Qed.

Section Loop.

Variable self : t.
Variable q : list R.

Lemma scores_app (l1 l2 : list KnownFace.t) :
  scores q (l1 ++ l2) = scores q l1 ++ scores q l2.
Proof. unfold scores. apply flat_map_app. Qed.

Lemma first_at_app (seen : list KnownFace.t) (kf' : KnownFace.t) (i : nat)
    (kf : KnownFace.t) (m : R) :
  first_at q seen i kf m -> first_at q (seen ++ [kf']) i kf m.
Proof.
  intros (Hnth & Henc & Hbefore).
  assert (Hi : (i < length seen)%nat)
    by (apply nth_error_Some; congruence).
  split; [|split].
  - rewrite nth_error_app1; assumption.
  - assumption.
  - intros j other oenc Hj Hnthj. apply (Hbefore j other oenc Hj).
    rewrite nth_error_app1 in Hnthj; [assumption|lia].
Qed.

Lemma loop_inv_step (seen : list KnownFace.t) (acc : option KnownFace.t * R)
    (kf : KnownFace.t) :
  loop_inv self q seen acc ->
  loop_inv self q (seen ++ [kf]) (best_match_step self q acc kf).
Proof.
  destruct acc as [bm best]. unfold best_match_step.
  destruct (KnownFace.encoding kf) as [enc|] eqn:Eenc.
  2:{ (* no key 'encoding': the entry is skipped *)
    assert (Hs : scores q (seen ++ [kf]) = scores q seen).
    { rewrite scores_app. unfold scores at 2. simpl. rewrite Eenc.
      simpl. apply app_nil_r. }
    destruct bm as [known|]; simpl; rewrite Hs.
    - intros (H0 & Ht & Hle & i & Hfirst). repeat split; try assumption.
      exists i. apply first_at_app. assumption.
    - trivial. }
  set (s := compare_faces (Some q) enc).
  assert (Hs : forall x, In x (scores q (seen ++ [kf]))
                         <-> In x (scores q seen) \/ x = s).
  { intro x. rewrite scores_app, in_app_iff. unfold scores at 2. simpl.
    rewrite Eenc. simpl. intuition. }
  destruct (Rgtb s best) eqn:Egt; simpl;
    [destruct (Rgtb s (similarity_threshold self)) eqn:Ethr; simpl|].
  - (* the entry becomes the best match *)
    apply Rgtb_true in Egt. apply Rgtb_true in Ethr.
    assert (Hbest : loop_inv self q seen (bm, best) ->
                    best >= 0 /\ forall x, In x (scores q seen) ->
                            x <= best \/ x <= similarity_threshold self).
    { destruct bm as [known|]; intro Hinv.
      - destruct Hinv as (H0 & Ht & Hle & _). split; [lra|]. auto.
      - destruct Hinv as (-> & Hno). split; [lra|].
        intros x Hx. specialize (Hno x Hx).
        destruct (Rle_dec x 0); [left; assumption|].
        destruct (Rle_dec x (similarity_threshold self)); [right; assumption|].
        exfalso. apply Hno. lra. }
    intro Hinv. destruct (Hbest Hinv) as [Hb0 Hprev]. clear Hbest.
    unfold loop_inv. split; [lra|]. split; [assumption|]. split.
    + intros x Hx. apply Hs in Hx. destruct Hx as [Hx| ->]; [|lra].
      destruct (Hprev x Hx); lra.
    + exists (length seen). split; [|split].
      * rewrite nth_error_app2, Nat.sub_diag; [reflexivity|lia].
      * exists enc. split; [assumption|reflexivity].
      * intros j other oenc Hj Hnth Hoenc.
        rewrite nth_error_app1 in Hnth by assumption.
        assert (Hin : In (compare_faces (Some q) oenc) (scores q seen)).
        { apply in_scores. exists other, oenc.
          split; [eapply nth_error_In; eassumption|]. auto. }
        destruct (Hprev _ Hin); fold s; lra.
  - (* above every earlier score but not above the threshold *)
    apply Rgtb_true in Egt. apply Rgtb_false in Ethr.
    destruct bm as [known|].
    + intros (H0 & Ht & Hle & i & Hfirst). lra.
    + intros (-> & Hno). unfold loop_inv. split; [reflexivity|].
      intros x Hx. apply Hs in Hx. destruct Hx as [Hx| ->];
        [apply Hno; assumption|lra].
  - (* not above the best score so far *)
    apply Rgtb_false in Egt.
    destruct bm as [known|].
    + intros (H0 & Ht & Hle & i & Hfirst). unfold loop_inv.
      split; [assumption|]. split; [assumption|]. split.
      * intros x Hx. apply Hs in Hx. destruct Hx as [Hx| ->]; auto.
      * exists i. apply first_at_app. assumption.
    + intros (-> & Hno). unfold loop_inv. split; [reflexivity|].
      intros x Hx. apply Hs in Hx. destruct Hx as [Hx| ->];
        [apply Hno; assumption|lra].
Qed.

Lemma loop_inv_fold (todo seen : list KnownFace.t)
    (acc : option KnownFace.t * R) :
  loop_inv self q seen acc ->
  loop_inv self q (seen ++ todo) (fold_left (best_match_step self q) todo acc).
Proof.
  revert seen acc. induction todo as [|kf todo IH]; intros seen acc Hinv.
  - rewrite app_nil_r. assumption.
  - simpl. replace (seen ++ kf :: todo) with ((seen ++ [kf]) ++ todo)
      by (rewrite <- app_assoc; reflexivity).
    apply IH. apply loop_inv_step. assumption.
Qed.

Lemma best_match_inv (known_faces : list KnownFace.t) :
  loop_inv self q known_faces (best_match self q known_faces).
Proof.
  unfold best_match. apply (loop_inv_fold known_faces []).
  simpl. split; [reflexivity|]. intros s [].
Qed.

End Loop.

End MatcherProps.

(* ------------------------------------------------------------------------- *)
(** ** Properties of [compare_faces] *)
(* ------------------------------------------------------------------------- *)

Module SimilarityProps.

Import MediaPipeFaceRecognition.

Local Open Scope R_scope.

Lemma dot_self_nonneg (u : list R) : 0 <= dot u u.
Proof. induction u as [|v u IH]; simpl; [lra|nra]. Qed.

Lemma le_of_sqr_le (a b : R) : 0 <= b -> a * a <= b * b -> a <= b.
Proof. intros. nra. Qed.

Lemma cauchy_schwarz_step (a b d A B : R) :
  0 <= A -> 0 <= B -> d * d <= A * B ->
  (a * b + d) * (a * b + d) <= (a * a + A) * (b * b + B).
Proof.
  intros HA HB Hd.
  assert (H : 2 * (a * b * d) <= a * a * B + b * b * A).
  { apply le_of_sqr_le.
    - apply Rplus_le_le_0_compat; apply Rmult_le_pos; try assumption;
        apply Rle_0_sqr.
    - assert (H1 : (a*b)*(a*b) * (d*d) <= (a*b)*(a*b) * (A*B)).
      { apply Rmult_le_compat_l; [apply Rle_0_sqr|assumption]. }
      assert (H2 : 0 <= (a*a*B - b*b*A) * (a*a*B - b*b*A))
        by apply Rle_0_sqr.
      apply Rle_trans with (4 * ((a*b)*(a*b) * (A*B))).
      + replace (2 * (a * b * d) * (2 * (a * b * d)))
          with (4 * ((a*b)*(a*b) * (d*d))) by ring. lra.
      + replace ((a * a * B + b * b * A) * (a * a * B + b * b * A))
          with ((a*a*B - b*b*A) * (a*a*B - b*b*A)
                + 4 * ((a*b)*(a*b) * (A*B))) by ring. lra. }
  replace ((a * b + d) * (a * b + d))
    with ((a*b)*(a*b) + 2 * (a*b*d) + d*d) by ring.
  replace ((a * a + A) * (b * b + B))
    with ((a*b)*(a*b) + (a*a*B + b*b*A) + A*B) by ring.
  lra.
Qed.

(** Cauchy-Schwarz for [np.dot]. *)
Lemma cauchy_schwarz (u v : list R) :
  dot u v * dot u v <= dot u u * dot v v.
Proof.
  revert v. induction u as [|a u IH]; intros [|b v]; simpl; try lra.
  apply cauchy_schwarz_step; auto using dot_self_nonneg.
Qed.

Lemma norm_nonneg (u : list R) : 0 <= norm u.
Proof. apply sqrt_pos. Qed.

Lemma norm_sqr (u : list R) : norm u * norm u = dot u u.
Proof. apply sqrt_sqrt, dot_self_nonneg. Qed.

Lemma norm_of_square (u : list R) (n : R) :
  0 <= n -> dot u u = n * n -> norm u = n.
Proof. intros Hn Hd. unfold norm. rewrite Hd. apply sqrt_square, Hn. Qed.

Lemma dot_self_zero (u : list R) :
  dot u u = 0 <-> Forall (fun v => v = 0) u.
Proof.
  induction u as [|a u IH]; simpl.
  - split; [constructor|reflexivity].
  - pose proof (dot_self_nonneg u) as Hu. split.
    + intro H. constructor; [nra|]. apply IH. nra.
    + intro H. inversion H as [|? ? Ha Hr]; subst.
      apply IH in Hr. rewrite Hr. lra.
Qed.

Lemma norm_zero (u : list R) : norm u = 0 <-> Forall (fun v => v = 0) u.
Proof.
  rewrite <- dot_self_zero. unfold norm. split.
  - intro H. apply sqrt_eq_0; [apply dot_self_nonneg|assumption].
  - intros ->. apply sqrt_0.
Qed.

Lemma norm_zero_firstn (n : nat) (u : list R) :
  norm u = 0 -> norm (firstn n u) = 0.
Proof.
  rewrite !norm_zero. intro H.
  rewrite <- (firstn_skipn n u) in H. apply Forall_app in H. apply H.
Qed.

Lemma Reqb0_true (a : R) : Reqb0 a = true <-> a = 0.
Proof. unfold Reqb0. destruct (Req_dec_T a 0); split; congruence. Qed.

Lemma Reqb0_false (a : R) : Reqb0 a = false <-> a <> 0.
Proof. unfold Reqb0. destruct (Req_dec_T a 0); split; congruence. Qed.

(** The value of [compare_faces] on two arrays, in terms of the common
    prefixes the code compares. *)
Lemma compare_faces_unfold (a b : list R) :
  let n := Nat.min (length a) (length b) in
  let a' := firstn n a in
  let b' := firstn n b in
  compare_faces (Some a) (Some b)
  = if Reqb0 (norm a') || Reqb0 (norm b')
    then 0
    else (dot a' b' / (norm a' * norm b') + 1) / 2.
Proof. reflexivity. Qed.

Lemma rescaled_cosine_range (d n1 n2 : R) :
  0 < n1 -> 0 < n2 -> d * d <= (n1 * n2) * (n1 * n2) ->
  0 <= (d / (n1 * n2) + 1) / 2 <= 1.
Proof.
  intros H1 H2 Hd.
  assert (Hp : 0 < n1 * n2) by (apply Rmult_lt_0_compat; assumption).
  assert (Hle : - (n1 * n2) <= d <= n1 * n2) by (split; nra).
  assert (Hq : -1 <= d / (n1 * n2) <= 1).
  { split.
    - apply Rmult_le_reg_r with (n1 * n2); [assumption|].
      unfold Rdiv. rewrite Rmult_assoc, Rinv_l by lra. lra.
    - apply Rmult_le_reg_r with (n1 * n2); [assumption|].
      unfold Rdiv. rewrite Rmult_assoc, Rinv_l by lra. lra. }
  lra.
Qed.

Lemma compare_faces_range (encoding1 encoding2 : option (list R)) :
  0 <= compare_faces encoding1 encoding2 <= 1.
Proof.
  destruct encoding1 as [a|], encoding2 as [b|]; simpl; try lra.
  set (n := Nat.min (length a) (length b)).
  destruct (Reqb0 (norm (firstn n a))) eqn:E1; simpl; [lra|].
  destruct (Reqb0 (norm (firstn n b))) eqn:E2; simpl; [lra|].
  apply Reqb0_false in E1. apply Reqb0_false in E2.
  pose proof (norm_nonneg (firstn n a)).
  pose proof (norm_nonneg (firstn n b)).
  apply rescaled_cosine_range; try lra.
  replace (norm (firstn n a) * norm (firstn n b)
           * (norm (firstn n a) * norm (firstn n b)))
    with ((norm (firstn n a) * norm (firstn n a))
          * (norm (firstn n b) * norm (firstn n b))) by ring.
  rewrite !norm_sqr. apply cauchy_schwarz.
Qed.

(** The value of [compare_faces] once both norms are known. *)
Lemma compare_faces_value (a b : list R) (n1 n2 : R) :
  length a = length b ->
  0 < n1 -> 0 < n2 -> dot a a = n1 * n1 -> dot b b = n2 * n2 ->
  compare_faces (Some a) (Some b) = (dot a b / (n1 * n2) + 1) / 2.
Proof.
  intros Hlen H1 H2 Ha Hb.
  rewrite compare_faces_unfold. cbv zeta.
  rewrite <- Hlen, Nat.min_id, firstn_all, Hlen, firstn_all.
  rewrite (norm_of_square a (n := n1)), (norm_of_square b (n := n2))
    by (assumption || lra).
  replace (Reqb0 n1) with false by (symmetry; apply Reqb0_false; lra).
  replace (Reqb0 n2) with false by (symmetry; apply Reqb0_false; lra).
  reflexivity.
Qed.

Lemma compare_faces_zero_norm (a b : list R) :
  norm a = 0 \/ norm b = 0 -> compare_faces (Some a) (Some b) = 0.
Proof.
  intros Hzero. rewrite compare_faces_unfold. cbv zeta.
  set (n := Nat.min (length a) (length b)).
  destruct Hzero as [H|H]; apply (norm_zero_firstn n) in H;
    apply Reqb0_true in H; rewrite H; [|rewrite orb_true_r]; reflexivity.
Qed.

(** What [compare_faces] is written to compute, in exact arithmetic: a
    value of [[0, 1]]; on two arrays of the same length and non-zero norm
    the cosine similarity rescaled by [(cos + 1) / 2]; when either array has
    zero norm, and when either argument is [None], exactly 0.  The floats of
    the code do not keep all of this, see [FloatSimilarityProps]. *)
Theorem compare_faces_rescaled_cosine (a b : list R) :
  (forall encoding1 encoding2,
      0 <= compare_faces encoding1 encoding2 <= 1)
  /\ (length a = length b -> norm a <> 0 -> norm b <> 0 ->
      compare_faces (Some a) (Some b) = (cosine_similarity a b + 1) / 2)
  /\ (norm a = 0 \/ norm b = 0 -> compare_faces (Some a) (Some b) = 0)
  /\ compare_faces None (Some b) = 0
  /\ compare_faces (Some a) None = 0.
Proof.
  split; [apply compare_faces_range|].
  split.
  { intros Hlen Ha Hb. rewrite compare_faces_unfold. cbv zeta.
    rewrite <- Hlen, Nat.min_id, firstn_all, Hlen, firstn_all.
    replace (Reqb0 (norm a)) with false by (symmetry; apply Reqb0_false, Ha).
    replace (Reqb0 (norm b)) with false by (symmetry; apply Reqb0_false, Hb).
    reflexivity. }
  split; [|split; reflexivity].
  apply compare_faces_zero_norm.
Qed.

(** In exact arithmetic [[1; 0]] and [[-3; 4]] have cosine -3/5, hence
    similarity 1/5; the zero vector scores 0 against [[-3; 4]]. *)
Lemma compare_faces_rescaled_cosine_run :
  compare_faces (Some [1; 0]) (Some [-3; 4]) = 1 / 5
  /\ 0 <= compare_faces (Some [1; 0]) (Some [-3; 4]) <= 1
  /\ compare_faces (Some [0; 0]) (Some [-3; 4]) = 0.
Proof.
  pose proof (compare_faces_rescaled_cosine [1; 0] [-3; 4]) as (Hr & Hc & _).
  pose proof (compare_faces_rescaled_cosine [0; 0] [-3; 4]) as (_ & _ & Hz & _).
  assert (N1 : norm [1; 0] = 1)
    by (apply norm_of_square; simpl; lra).
  assert (N2 : norm [-3; 4] = 5)
    by (apply norm_of_square; simpl; lra).
  split; [|split].
  - rewrite Hc; [|reflexivity|lra|lra].
    unfold cosine_similarity. rewrite N1, N2. simpl. lra.
  - apply Hr.
  - apply Hz. left. apply norm_of_square; simpl; lra.
Defined.

End SimilarityProps.

(* ------------------------------------------------------------------------- *)
(** ** [compare_faces] on floats *)
(* ------------------------------------------------------------------------- *)

Module FloatSimilarityProps.

Import Ieee754.

(** A zero norm, as computed, gives the similarity 0.0, and so does a
    missing argument. *)
Lemma float_zero_norm_scores_zero (fmt : format) (a b : list spec_float) :
  length a = length b ->
  SFeqb (norm fmt a) (of_int fmt 0) = true
  \/ SFeqb (norm fmt b) (of_int fmt 0) = true ->
  compare_faces fmt (Some a) (Some b) = of_int fmt 0.
Proof.
  intros Hlen Hzero. unfold compare_faces.
  rewrite <- Hlen, Nat.min_id, firstn_all, Hlen, firstn_all.
  destruct Hzero as [-> | ->]; [reflexivity|rewrite orb_true_r; reflexivity].
Qed.

Lemma float_none_scores_zero (fmt : format) (a : option (list spec_float)) :
  compare_faces fmt None a = of_int fmt 0
  /\ compare_faces fmt a None = of_int fmt 0.
Proof. destruct a; split; reflexivity. Qed.

Local Open Scope Z_scope.

(** C6, the code against its docstring ('Similarity score (0-1, ...)',
    '# Convert to 0-1 range'): the float returned by [compare_faces] can lie
    outside [[0, 1]].  On the [float64] arrays [[2., 3.]] and [[-2., -3.]],
    of cosine -1, every product and sum is exact, the norm is the rounded
    square root of 13 and the product of the two norms rounds below 13: the
    quotient is below -1 and the similarity is [-2^-53], a negative number.
    The same happens in [float32] on [[1., 1.]] and [[-1., -1.]], with
    [-2^-24].  On [[2^600, 0.]] against itself the squares overflow and the
    similarity is NaN; on [[2^-600, 0.]] against itself, a non-zero vector
    of cosine 1, the squares underflow, the norm is 0.0 and the similarity
    is 0.0; and [[1., 1.]] against itself scores below 1. *)
Theorem compare_faces_leaves_the_unit_interval :
  let f64 := of_int binary64 in
  let f32 := of_int binary32 in
  let huge := two_power binary64 1 600 in
  let tiny := two_power binary64 1 (-600) in
  compare_faces binary64 (Some [f64 2; f64 3]) (Some [f64 (-2); f64 (-3)])
  = two_power binary64 (-1) (-53)
  /\ in_unit_interval binary64
       (compare_faces binary64 (Some [f64 2; f64 3])
          (Some [f64 (-2); f64 (-3)])) = false
  /\ compare_faces binary32 (Some [f32 1; f32 1]) (Some [f32 (-1); f32 (-1)])
     = two_power binary32 (-1) (-24)
  /\ in_unit_interval binary32
       (compare_faces binary32 (Some [f32 1; f32 1])
          (Some [f32 (-1); f32 (-1)])) = false
  /\ compare_faces binary64 (Some [huge; f64 0]) (Some [huge; f64 0])
     = S754_nan
  /\ in_unit_interval binary64
       (compare_faces binary64 (Some [huge; f64 0]) (Some [huge; f64 0]))
     = false
  /\ SFeqb tiny (f64 0) = false
  /\ compare_faces binary64 (Some [tiny; f64 0]) (Some [tiny; f64 0]) = f64 0
  /\ SFltb (compare_faces binary64 (Some [f64 1; f64 1])
              (Some [f64 1; f64 1]))
           (f64 1) = true.
Proof. vm_compute. repeat split. Qed.

(** Line 161 on a zero landmark vector: 0.0 / 0.0, three times NaN, and no
    exception. *)
Remark zero_landmarks_normalize_to_nan :
  let zero := of_int binary32 0 in
  normalize binary32 [zero; zero; zero] = [S754_nan; S754_nan; S754_nan].
Proof. vm_compute. reflexivity. Qed.

(** Line 161 on a landmark vector whose squares overflow: the norm is
    infinite and every quotient is 0.0. *)
Remark huge_landmarks_normalize_to_zero :
  let zero := of_int binary32 0 in
  normalize binary32 [two_power binary32 1 100; zero; zero]
  = [zero; zero; zero].
Proof. vm_compute. reflexivity. Qed.

End FloatSimilarityProps.

(* ------------------------------------------------------------------------- *)
(** ** The matcher on floats *)
(* ------------------------------------------------------------------------- *)

Module FloatMatcherProps.

Import Ieee754.

Ltac order_cases :=
  repeat match goal with
         | H : context [Z.compare ?a ?b] |- _ =>
             destruct (Z.compare_spec a b)
         | H : context [Pos.compare ?a ?b] |- _ =>
             destruct (Pos.compare_spec a b)
         | |- context [Z.compare ?a ?b] => destruct (Z.compare_spec a b)
         | |- context [Pos.compare ?a ?b] => destruct (Pos.compare_spec a b)
         end.

Lemma SFltb_trans (a b c : spec_float) :
  SFltb a b = true -> SFltb b c = true -> SFltb a c = true.
Proof.
  unfold SFltb, SFcompare.
  destruct a as [[|]|[|]| |[|] ma ea], b as [[|]|[|]| |[|] mb eb],
           c as [[|]|[|]| |[|] mc ec];
    try discriminate; try reflexivity;
    change (Pos.compare_cont Eq ?x ?y) with (Pos.compare x y);
    intros Hab Hbc; order_cases; cbn in *;
    try discriminate; try reflexivity; subst; lia.
Qed.

Lemma SFltb_above_nonneg (t s : spec_float) :
  SFleb (S754_zero false) t = true -> SFltb t s = true ->
  SFltb (S754_zero false) s = true.
Proof.
  unfold SFleb, SFltb, SFcompare.
  destruct t as [[|]|[|]| |[|] mt et], s as [[|]|[|]| |[|] ms es];
    try discriminate; try reflexivity.
Qed.

Lemma SFltb_eqb_r (a b c : spec_float) :
  SFltb a b = true -> SFeqb c b = true -> SFltb a c = true.
Proof.
  unfold SFltb, SFeqb, SFcompare.
  destruct a as [[|]|[|]| |[|] ma ea], b as [[|]|[|]| |[|] mb eb],
           c as [[|]|[|]| |[|] mc ec];
    try discriminate; try reflexivity;
    change (Pos.compare_cont Eq ?x ?y) with (Pos.compare x y);
    intros Hab Hbc; order_cases; cbn in *;
    try discriminate; try reflexivity; subst; lia.
Qed.

Lemma SFltb_irrefl (a : spec_float) : SFltb a a = false.
Proof.
  unfold SFltb, SFcompare.
  destruct a as [[|]|[|]| |[|] ma ea]; try reflexivity;
    rewrite Z.compare_refl;
    change (Pos.compare_cont Eq ?x ?y) with (Pos.compare x y);
    rewrite Pos.compare_refl; reflexivity.
Qed.

Section Loop.
Variable fmt : format.
Variable threshold : spec_float.
Variable q : list spec_float.

Lemma in_float_scores (known_faces : list known_face) (s : spec_float) :
  In s (float_scores fmt q known_faces)
  <-> exists known known_encoding,
        In known known_faces
        /\ encoding known = Some known_encoding
        /\ float_score fmt q known_encoding = s.
Proof.
  unfold float_scores. rewrite in_flat_map. split.
  - intros (known & Hin & Hs).
    destruct (encoding known) as [enc|] eqn:E; [|contradiction].
    destruct Hs as [<-|[]]. eauto.
  - intros (known & enc & Hin & E & <-). exists known.
    split; [exact Hin|]. rewrite E. left. reflexivity.
Qed.

Lemma float_scores_app (a b : list known_face) :
  float_scores fmt q (a ++ b) = float_scores fmt q a ++ float_scores fmt q b.
Proof. unfold float_scores. apply flat_map_app. Qed.

Lemma SFltb_false_of (a b : spec_float) :
  (SFltb a b = true -> False) -> SFltb a b = false.
Proof. destruct (SFltb a b); [intro H; exfalso; auto|reflexivity]. Qed.

Lemma float_first_at_app (seen : list known_face) (extra : list known_face)
    (i : nat) (known : known_face) (m : spec_float) :
  float_first_at fmt q seen i known m ->
  float_first_at fmt q (seen ++ extra) i known m.
Proof.
  intros (Hnth & Henc & Hbefore).
  assert (Hi : (i < length seen)%nat)
    by (apply nth_error_Some; congruence).
  split; [rewrite nth_error_app1 by exact Hi; exact Hnth|].
  split; [exact Henc|].
  intros j other oenc Hj Hother Ho.
  rewrite nth_error_app1 in Hother by lia.
  exact (Hbefore j other oenc Hj Hother Ho).
Qed.

Lemma float_loop_inv_step (seen : list known_face)
    (acc : option known_face * spec_float) (known : known_face) :
  float_loop_inv fmt threshold q seen acc ->
  float_loop_inv fmt threshold q (seen ++ [known])
    (best_match_step fmt threshold q acc known).
Proof.
  intro Hinv. destruct acc as [best_match best]. unfold best_match_step.
  destruct (encoding known) as [enc|] eqn:Eenc.
  2:{ assert (Hs : float_scores fmt q (seen ++ [known])
                   = float_scores fmt q seen).
      { rewrite float_scores_app. unfold float_scores at 2. cbn.
        rewrite Eenc. apply app_nil_r. }
      unfold float_loop_inv in *. rewrite Hs.
      destruct best_match as [k|]; [|exact Hinv].
      destruct Hinv as (H0 & Ht & Hle & i & Hfirst).
      repeat split; try assumption. exists i.
      apply float_first_at_app, Hfirst. }
  assert (Hs : float_scores fmt q (seen ++ [known])
               = float_scores fmt q seen ++ [float_score fmt q enc]).
  { rewrite float_scores_app. unfold float_scores at 2. cbn.
    rewrite Eenc. reflexivity. }
  cbv zeta. fold (float_score fmt q enc). set (s := float_score fmt q enc) in *.
  assert (Hnew :
            SFltb (S754_zero false) s = true ->
            SFltb threshold s = true ->
            (forall c, In c (float_scores fmt q seen) ->
                       SFltb s c = false /\ SFeqb c s = false) ->
            float_loop_inv fmt threshold q (seen ++ [known]) (Some known, s)).
  { intros H0 Ht Hold. unfold float_loop_inv. rewrite Hs.
    split; [exact H0|]. split; [exact Ht|]. split.
    - intros c Hc. apply in_app_or in Hc. destruct Hc as [Hc|[<-|[]]].
      + apply Hold, Hc.
      + apply SFltb_irrefl.
    - exists (length seen). split.
      { rewrite nth_error_app2 by lia. rewrite Nat.sub_diag. reflexivity. }
      split; [exists enc; auto|].
      intros j other oenc Hj Hother Ho.
      rewrite nth_error_app1 in Hother by exact Hj.
      apply Hold, in_float_scores. exists other, oenc.
      split; [eapply nth_error_In; eassumption|]. auto. }
  destruct (SFltb best s) eqn:Eb; destruct (SFltb threshold s) eqn:Et;
    cbn [andb].
  - (* the entry becomes the best match *)
    destruct best_match as [k|]; unfold float_loop_inv in Hinv.
    + destruct Hinv as (H0 & Hthr & Hle & _).
      apply Hnew; [eapply SFltb_trans; eassumption|reflexivity|].
      intros c Hc. split; apply SFltb_false_of || idtac.
      * intro H. specialize (Hle c Hc).
        rewrite (SFltb_trans _ _ _ Eb H) in Hle. discriminate.
      * destruct (SFeqb c s) eqn:Ec; [|reflexivity].
        specialize (Hle c Hc).
        rewrite (SFltb_eqb_r _ _ _ Eb Ec) in Hle. discriminate.
    + destruct Hinv as (-> & Hno).
      apply Hnew; [exact Eb|reflexivity|].
      intros c Hc. specialize (Hno c Hc). split.
      * apply SFltb_false_of. intro H.
        rewrite (SFltb_trans _ _ _ Eb H), (SFltb_trans _ _ _ Et H) in Hno.
        discriminate.
      * destruct (SFeqb c s) eqn:Ec; [|reflexivity].
        rewrite (SFltb_eqb_r _ _ _ Eb Ec), (SFltb_eqb_r _ _ _ Et Ec) in Hno.
        discriminate.
  - (* above the best, not above the threshold *)
    destruct best_match as [k|]; unfold float_loop_inv in *; rewrite Hs.
    + destruct Hinv as (H0 & Hthr & Hle & i & Hfirst). exfalso.
      rewrite (SFltb_trans _ _ _ Hthr Eb) in Et. discriminate.
    + destruct Hinv as (-> & Hno). split; [reflexivity|].
      intros c Hc. apply in_app_or in Hc. destruct Hc as [Hc|[<-|[]]].
      * apply Hno, Hc.
      * rewrite Et. apply andb_false_r.
  - (* not above the best *)
    destruct best_match as [k|]; unfold float_loop_inv in *; rewrite Hs.
    + destruct Hinv as (H0 & Hthr & Hle & i & Hfirst).
      repeat split; try assumption.
      * intros c Hc. apply in_app_or in Hc. destruct Hc as [Hc|[<-|[]]].
        -- apply Hle, Hc.
        -- exact Eb.
      * exists i. apply float_first_at_app, Hfirst.
    + destruct Hinv as (-> & Hno). split; [reflexivity|].
      intros c Hc. apply in_app_or in Hc. destruct Hc as [Hc|[<-|[]]].
      * apply Hno, Hc.
      * rewrite Eb. reflexivity.
  - destruct best_match as [k|]; unfold float_loop_inv in *; rewrite Hs.
    + destruct Hinv as (H0 & Hthr & Hle & i & Hfirst).
      repeat split; try assumption.
      * intros c Hc. apply in_app_or in Hc. destruct Hc as [Hc|[<-|[]]].
        -- apply Hle, Hc.
        -- exact Eb.
      * exists i. apply float_first_at_app, Hfirst.
    + destruct Hinv as (-> & Hno). split; [reflexivity|].
      intros c Hc. apply in_app_or in Hc. destruct Hc as [Hc|[<-|[]]].
      * apply Hno, Hc.
      * rewrite Eb. reflexivity.
Qed.

Lemma float_loop_inv_fold (rest seen : list known_face)
    (acc : option known_face * spec_float) :
  float_loop_inv fmt threshold q seen acc ->
  float_loop_inv fmt threshold q (seen ++ rest)
    (fold_left (best_match_step fmt threshold q) rest acc).
Proof.
  revert seen acc. induction rest as [|known rest IH]; intros seen acc Hinv.
  - rewrite app_nil_r. exact Hinv.
  - cbn [fold_left].
    replace (seen ++ known :: rest) with ((seen ++ [known]) ++ rest)
      by (rewrite <- app_assoc; reflexivity).
    apply IH, float_loop_inv_step, Hinv.
Qed.

Lemma float_best_match_inv (known_faces : list known_face) :
  float_loop_inv fmt threshold q known_faces
    (best_match fmt threshold q known_faces).
Proof.
  apply (@float_loop_inv_fold known_faces [] (None, S754_zero false)).
  split; [reflexivity|]. intros s [].
Qed.

(** The matcher on floats meets its specification, NaN and infinite scores
    included. *)
Lemma float_matcher (known_faces : list known_face) :
  SFleb (S754_zero false) threshold = true ->
  float_matcher_spec fmt threshold q known_faces.
Proof.
  intros Hthr. unfold float_matcher_spec. cbv zeta.
  pose proof (float_best_match_inv known_faces) as Hinv.
  destruct (best_match fmt threshold q known_faces) as [[k|] b];
    cbn [fst snd]; unfold float_loop_inv in Hinv.
  - destruct Hinv as (H0 & Ht & Hle & i & Hfirst).
    split; [|split; [|discriminate]].
    + split; [|eauto]. intros _.
      destruct Hfirst as (Hnth & (enc & He & Hv) & _).
      exists k, enc. split; [eapply nth_error_In; eassumption|].
      split; [exact He|]. rewrite Hv. exact Ht.
    + intros known Hk. injection Hk as <-.
      split; [exact Ht|]. split; [|eauto].
      intros other oenc Hin Ho. apply Hle, in_float_scores. eauto.
  - destruct Hinv as (-> & Hno).
    split; [|split; [discriminate|reflexivity]].
    split; [intros (known & H); discriminate|].
    intros (known & enc & Hin & He & Hgt). exfalso.
    assert (Hs : In (float_score fmt q enc) (float_scores fmt q known_faces))
      by (apply in_float_scores; eauto).
    specialize (Hno _ Hs).
    rewrite Hgt, (SFltb_above_nonneg _ _ Hthr Hgt) in Hno. discriminate.
Qed.

End Loop.

(** The threshold 0.3 of [__init__] is not negative. *)
Lemma threshold_nonneg :
  SFleb (S754_zero false) (div binary64 (of_int binary64 3)
                             (of_int binary64 10)) = true.
Proof. vm_compute. reflexivity. Qed.

End FloatMatcherProps.

(* ------------------------------------------------------------------------- *)
(** ** Properties of [identify_faces] *)
(* ------------------------------------------------------------------------- *)

Module IdentifyProps.

Import MediaPipeFaceRecognition MatcherProps SimilarityProps.

Local Open Scope R_scope.

Section Results.

Variable self : t.

Lemma face_result_of_fields (face : FaceInfo.t) (q : list R)
    (known_faces : list KnownFace.t) :
  FaceResult.encoding (face_result_of self face q known_faces) = q
  /\ FaceResult.bbox (face_result_of self face q known_faces)
     = FaceInfo.bbox face
  /\ FaceResult.student_info (face_result_of self face q known_faces)
     = fst (best_match self q known_faces)
  /\ FaceResult.similarity (face_result_of self face q known_faces)
     = snd (best_match self q known_faces)
  /\ FaceResult.identified (face_result_of self face q known_faces)
     = match fst (best_match self q known_faces) with
       | Some _ => true
       | None => false
       end.
Proof. repeat split. Qed.

(** The matcher on one encoding (lines 258-278): what is reported when some
    score exceeds the threshold, and what is reported otherwise. *)
Lemma face_result_of_spec (face : FaceInfo.t) (q : list R)
    (known_faces : list KnownFace.t) :
  0 <= similarity_threshold self ->
  let r := face_result_of self face q known_faces in
  ((exists s, In s (scores q known_faces) /\ s > similarity_threshold self) ->
   FaceResult.identified r = true
   /\ is_max (FaceResult.similarity r) (scores q known_faces)
   /\ exists i known_face,
        FaceResult.student_info r = Some known_face
        /\ first_at q known_faces i known_face (FaceResult.similarity r))
  /\ ((forall s, In s (scores q known_faces) ->
                 s <= similarity_threshold self) ->
      FaceResult.identified r = false
      /\ FaceResult.student_info r = None
      /\ FaceResult.similarity r = 0).
Proof.
  intros Hthr r. subst r.
  destruct (face_result_of_fields face q known_faces)
    as (_ & _ & Hinfo & Hsim & Hid).
  rewrite Hinfo, Hsim, Hid. clear Hinfo Hsim Hid.
  pose proof (best_match_inv self q known_faces) as Hinv.
  destruct (best_match self q known_faces) as [[known|] best];
    cbn [fst snd]; unfold loop_inv in Hinv.
  - destruct Hinv as (H0 & Ht & Hle & i & Hfirst). split.
    + intros _. split; [reflexivity|]. split.
      * split; [|assumption].
        destruct Hfirst as (Hnth & (enc & Henc & Hval) & _).
        apply in_scores. exists known, enc.
        split; [eapply nth_error_In; eassumption|]. auto.
      * exists i, known. auto.
    + intros Hall. exfalso.
      destruct Hfirst as (Hnth & (enc & Henc & Hval) & _).
      assert (Hin : In best (scores q known_faces)).
      { apply in_scores. exists known, enc.
        split; [eapply nth_error_In; eassumption|]. auto. }
      specialize (Hall best Hin). lra.
  - destruct Hinv as (-> & Hno). split.
    + intros (s & Hin & Hs). exfalso. apply (Hno s Hin). lra.
    + intros _. auto.
Qed.

Lemma face_result_of_identified (face : FaceInfo.t) (q : list R)
    (known_faces : list KnownFace.t) :
  FaceResult.identified (face_result_of self face q known_faces) = true ->
  exists known_face known_encoding,
    In known_face known_faces
    /\ KnownFace.encoding known_face = Some known_encoding
    /\ compare_faces (Some q) known_encoding > similarity_threshold self.
Proof.
  destruct (face_result_of_fields face q known_faces)
    as (_ & _ & _ & _ & Hid).
  rewrite Hid. clear Hid.
  pose proof (best_match_inv self q known_faces) as Hinv.
  destruct (best_match self q known_faces) as [[known|] best];
    cbn [fst]; unfold loop_inv in Hinv; [|discriminate].
  intros _. destruct Hinv as (_ & Ht & _ & i & Hnth & (enc & He & Hv) & _).
  exists known, enc. split; [eapply nth_error_In; eassumption|].
  split; [assumption|]. rewrite Hv. assumption.
Qed.

Lemma length_outcomes (known_faces : list KnownFace.t)
    (encoded : list (FaceInfo.t * option (list R))) :
  length (outcomes self known_faces encoded)
  = length (filter (fun fe => match snd fe with
                              | Some _ => true
                              | None => false
                              end) encoded).
Proof.
  induction encoded as [|[face [q|]] rest IH]; simpl; auto.
Qed.

Section Pipeline.

Context {G : Type}.
Variable backend : Backend G.
Variable known_faces : list KnownFace.t.

(** Every result of the loop is the matcher's result for a detected face
    and the encoding generated for it. *)
Lemma identify_loop_Forall (P : FaceResult.t -> Prop)
    (detected_faces : list FaceInfo.t) (g : G) :
  (forall face q, In face detected_faces ->
                  P (face_result_of self face q known_faces)) ->
  Forall P (fst (identify_loop backend self detected_faces known_faces g)).
Proof.
  revert g. induction detected_faces as [|face rest IH]; intros g HP.
  - constructor.
  - cbn [identify_loop].
    destruct (generate_face_encoding backend self
                (Some (FaceInfo.face_region face)) g) as [enc g1].
    specialize (IH g1 (fun f q Hin => HP f q (or_intror Hin))).
    destruct (identify_loop backend self rest known_faces g1) as [rs g2].
    cbn [fst] in *. destruct enc as [q|]; [|assumption].
    constructor; [|assumption]. apply HP. left. reflexivity.
Qed.

Lemma identify_faces_Forall (P : FaceResult.t -> Prop)
    (image : option ndarray) (g : G) :
  (forall face q, P (face_result_of self face q known_faces)) ->
  Forall P (fst (identify_faces backend self image known_faces g)).
Proof.
  intro HP. unfold identify_faces.
  destruct (detect_faces backend image g) as [faces g1].
  apply identify_loop_Forall. auto.
Qed.

(** The loop returns the matcher's result of every face that has an
    encoding, in the order of the faces. *)
Lemma identify_loop_outcomes (detected_faces : list FaceInfo.t) (g : G) :
  fst (identify_loop backend self detected_faces known_faces g)
  = outcomes self known_faces (encodings backend self detected_faces g).
Proof.
  revert g. induction detected_faces as [|face rest IH]; intro g.
  - reflexivity.
  - cbn [identify_loop encodings].
    destruct (generate_face_encoding backend self
                (Some (FaceInfo.face_region face)) g) as [enc g1].
    specialize (IH g1).
    destruct (identify_loop backend self rest known_faces g1) as [rs g2].
    cbn [fst] in *. unfold outcomes. cbn [flat_map fst snd].
    fold (outcomes self known_faces (encodings backend self rest g1)).
    rewrite <- IH. destruct enc; reflexivity.
Qed.

Lemma identify_faces_outcomes (image : option ndarray) (g : G) :
  fst (identify_faces backend self image known_faces g)
  = outcomes self known_faces
      (encodings backend self (fst (detect_faces backend image g))
         (snd (detect_faces backend image g))).
Proof.
  unfold identify_faces.
  destruct (detect_faces backend image g) as [faces g1]. cbn [fst snd].
  apply identify_loop_outcomes.
Qed.

End Pipeline.

End Results.

Lemma score_far : compare_faces (Some [1; 0]) (Some [-3; 4]) = 1 / 5.
Proof.
  rewrite (compare_faces_value [1; 0] [-3; 4] (n1 := 1) (n2 := 5));
    simpl; try reflexivity; lra.
Qed.

Lemma score_b : compare_faces (Some [1; 0]) (Some [2; 0]) = 1.
Proof.
  rewrite (compare_faces_value [1; 0] [2; 0] (n1 := 1) (n2 := 2));
    simpl; try reflexivity; lra.
Qed.

Lemma score_c : compare_faces (Some [1; 0]) (Some [5; 0]) = 1.
Proof.
  rewrite (compare_faces_value [1; 0] [5; 0] (n1 := 1) (n2 := 5));
    simpl; try reflexivity; lra.
Qed.

(** C2: with a non-negative threshold, such as the 0.3 set by [__init__],
    [identify_faces] returns the match result of every detected face that
    has an encoding, one per such face and in detection order; and for every
    query encoding and every gallery, that match result is flagged
    identified if and only if some gallery entry scores strictly above the
    threshold against the query.  A gallery none of whose scores exceeds the
    threshold, in particular one whose best score equals it, gives
    identified = false.  The same is true of the loop on the floats of the
    code, whatever the scores are, NaN and infinities included: a match is
    found if and only if some entry scores above the threshold. *)
Theorem identified_iff_above_threshold {G : Type} (backend : Backend G)
    (self : t) (image : option ndarray) (known_faces : list KnownFace.t)
    (g : G) :
  0 <= similarity_threshold self ->
  fst (identify_faces backend self image known_faces g)
  = outcomes self known_faces
      (encodings backend self (fst (detect_faces backend image g))
         (snd (detect_faces backend image g)))
  /\ (forall (face : FaceInfo.t) (q : list R),
         let r := face_result_of self face q known_faces in
         FaceResult.encoding r = q
         /\ (FaceResult.identified r = true
             <-> exists known_face known_encoding,
                   In known_face known_faces
                   /\ KnownFace.encoding known_face = Some known_encoding
                   /\ compare_faces (Some q) known_encoding
                      > similarity_threshold self)
         /\ ((forall known_face known_encoding,
                 In known_face known_faces ->
                 KnownFace.encoding known_face = Some known_encoding ->
                 compare_faces (Some q) known_encoding
                 <= similarity_threshold self) ->
             FaceResult.identified r = false))
  /\ (forall (fmt : Ieee754.format) (threshold : spec_float)
             (q : list spec_float) (gallery : list Ieee754.known_face),
         SFleb (S754_zero false) threshold = true ->
         let best := Ieee754.best_match fmt threshold q gallery in
         ((exists known, fst best = Some known)
          <-> exists known known_encoding,
                In known gallery
                /\ Ieee754.encoding known = Some known_encoding
                /\ SFltb threshold (float_score fmt q known_encoding) = true)
         /\ ((forall known known_encoding,
                 In known gallery ->
                 Ieee754.encoding known = Some known_encoding ->
                 SFltb threshold (float_score fmt q known_encoding) = false) ->
             fst best = None)).
Proof.
  intro Hthr. split; [apply identify_faces_outcomes|]. split.
  - intros face q. cbv zeta.
    destruct (face_result_of_spec self face q known_faces Hthr)
      as [Habove Hbelow].
    split; [reflexivity|]. split; [split|].
    + apply face_result_of_identified.
    + intros (kf & enc & Hin & He & Hgt). apply Habove.
      exists (compare_faces (Some q) enc). split; [|assumption].
      apply in_scores. eauto.
    + intro H. apply Hbelow. intros s Hs.
      apply in_scores in Hs. destruct Hs as (kf & enc & Hin & He & <-).
      eauto.
  - intros fmt threshold q gallery Hnonneg. cbv zeta.
    destruct (@FloatMatcherProps.float_matcher fmt threshold q gallery
                Hnonneg)
      as (Hiff & _ & _).
    split; [exact Hiff|]. intro Hnone.
    destruct (fst (Ieee754.best_match fmt threshold q gallery)) as [k|];
      [|reflexivity].
    destruct (proj1 Hiff (ex_intro _ k eq_refl))
      as (known & enc & Hin & He & Hgt).
    rewrite (Hnone known enc Hin He) in Hgt. discriminate.
Qed.

(** C2 at work with the threshold set to 1/5: the image yields two match
    results; against the gallery whose only entry scores exactly the
    threshold the query is not identified, and against a gallery with an
    entry scoring 1 it is.  On floats, with the threshold 0.3: the query
    [[2^600, 0.]] scores NaN against the entry that stores the same array,
    and is not matched to it. *)
Lemma identified_iff_above_threshold_run :
  length (fst (identify_faces
                 (Scenario.stub (Some Scenario.three_detections)
                                (Some Scenario.mesh))
                 Scenario.strict (Some Scenario.image) Scenario.gallery_far
                 0%nat)) = 2%nat
  /\ FaceResult.identified
       (face_result_of Scenario.strict Scenario.some_face [1; 0]
          Scenario.gallery_far) = false
  /\ FaceResult.identified
       (face_result_of Scenario.strict Scenario.some_face [1; 0]
          Scenario.gallery_tie) = true
  /\ (let f64 := Ieee754.of_int Ieee754.binary64 in
      let huge := [Ieee754.two_power Ieee754.binary64 1 600; f64 0%Z] in
      float_score Ieee754.binary64 huge (Some huge) = S754_nan
      /\ fst (Ieee754.best_match Ieee754.binary64
                (Ieee754.div Ieee754.binary64 (f64 3%Z) (f64 10%Z)) huge
                [ {| Ieee754.id := 1; Ieee754.encoding := Some (Some huge) |} ])
         = None).
Proof.
  assert (Hthr : 0 <= similarity_threshold Scenario.strict)
    by (simpl; lra).
  destruct (@identified_iff_above_threshold nat
              (Scenario.stub (Some Scenario.three_detections)
                             (Some Scenario.mesh))
              Scenario.strict (Some Scenario.image) Scenario.gallery_far
              0%nat Hthr)
    as (Heq & Hfar & Hfloat).
  destruct (@identified_iff_above_threshold nat
              (Scenario.stub (Some Scenario.three_detections)
                             (Some Scenario.mesh))
              Scenario.strict (Some Scenario.image) Scenario.gallery_tie
              0%nat Hthr)
    as (_ & Htie & _).
  split; [rewrite Heq; vm_compute; reflexivity|]. split; [|split].
  - apply (Hfar Scenario.some_face [1; 0]).
    intros kf enc [<-|[]] He. injection He as <-.
    rewrite score_far. simpl. lra.
  - apply (Htie Scenario.some_face [1; 0]).
    exists (Scenario.known 2 "B" [2; 0]), (Some [2; 0]).
    split; [right; left; reflexivity|]. split; [reflexivity|].
    rewrite score_b. simpl. lra.
  - cbv zeta. split; [vm_compute; reflexivity|].
    apply Hfloat; [apply FloatMatcherProps.threshold_nonneg|].
    intros known enc [<-|[]] He. injection He as <-.
    vm_compute. reflexivity.
Defined.

(** Why C2 asks for a non-negative threshold: [best_similarity] starts at
    0, so with the threshold at -1 an entry of zero norm, which scores 0,
    is above the threshold and still not matched. *)
Remark negative_threshold_misses_a_match :
  let self := {| encoding_size := 128; similarity_threshold := -1 |} in
  let gallery := [Scenario.known 1 "A" [0; 0]] in
  compare_faces (Some [1; 0]) (Some [0; 0]) > similarity_threshold self
  /\ FaceResult.identified
       (face_result_of self Scenario.some_face [1; 0] gallery) = false.
Proof.
  cbv zeta.
  assert (Hs : compare_faces (Some [1; 0]) (Some [0; 0]) = 0).
  { apply compare_faces_zero_norm. right.
    apply norm_zero. repeat constructor. }
  split.
  - rewrite Hs. simpl. lra.
  - unfold face_result_of, best_match, Scenario.known.
    cbn [fold_left best_match_step KnownFace.encoding].
    rewrite Hs. decide_Rgtb. reflexivity.
Qed.

Lemma scores_far : scores [1; 0] Scenario.gallery_far = [1 / 5].
Proof.
  unfold scores, Scenario.gallery_far, Scenario.known.
  cbn [flat_map KnownFace.encoding app]. rewrite score_far. reflexivity.
Qed.

Lemma scores_tie : scores [1; 0] Scenario.gallery_tie = [1 / 5; 1; 1].
Proof.
  unfold scores, Scenario.gallery_tie, Scenario.known.
  cbn [flat_map KnownFace.encoding app].
  rewrite score_far, score_b, score_c. reflexivity.
Qed.

(** C3, refuted as stated: against a gallery whose only entry scores 1/5,
    below the threshold 0.3, the reported similarity is 0 and not the
    maximum 1/5 of the computed similarities. *)
Lemma reported_similarity_is_not_the_maximum :
  let r := face_result_of __init__ Scenario.some_face [1; 0]
             Scenario.gallery_far in
  scores [1; 0] Scenario.gallery_far = [1 / 5]
  /\ FaceResult.similarity r = 0
  /\ FaceResult.identified r = false
  /\ ~ is_max (FaceResult.similarity r) (scores [1; 0] Scenario.gallery_far).
Proof.
  cbv zeta.
  pose proof scores_far as Hs.
  assert (Hr : face_result_of __init__ Scenario.some_face [1; 0]
                 Scenario.gallery_far
               = {| FaceResult.bbox := (0, 0, 2, 2)%Z;
                    FaceResult.confidence := 0.9%Q;
                    FaceResult.similarity := 0;
                    FaceResult.identified := false;
                    FaceResult.student_info := None;
                    FaceResult.encoding := [1; 0] |}).
  { unfold face_result_of, best_match, Scenario.gallery_far, Scenario.known.
    cbn [fold_left best_match_step KnownFace.encoding].
    rewrite score_far. decide_Rgtb. reflexivity. }
  rewrite Hr, Hs. cbn [FaceResult.similarity FaceResult.identified].
  repeat split. intros [[H|[]] _]. lra.
Qed.

(** Of two entries tied at the maximum, the one met first is matched. *)
Lemma first_of_tied_entries_is_matched :
  best_match __init__ [1; 0] Scenario.gallery_tie
  = (Some (Scenario.known 2 "B" [2; 0]), 1).
Proof.
  unfold best_match, Scenario.gallery_tie, Scenario.known.
  cbn [fold_left best_match_step KnownFace.encoding].
  rewrite score_far. decide_Rgtb.
  cbn [best_match_step KnownFace.encoding]. rewrite score_b. decide_Rgtb.
  cbn [best_match_step KnownFace.encoding]. rewrite score_c. decide_Rgtb.
  reflexivity.
Qed.

(** C3, amended: with a non-negative threshold, [identify_faces] returns
    the match result of every detected face that has an encoding, one per
    such face and in detection order; and for every query encoding and
    every gallery: if some gallery entry scores above the threshold, the
    match result is identified, its similarity is the maximum of the scores
    of the gallery and its matched entry is the first one attaining that
    maximum; if no entry scores above the threshold, the match result is not
    identified, has no matched entry and reports the similarity 0.  The
    same is true of the loop on the floats of the code, whatever the scores
    are: with a match, the reported similarity is the score of the matched
    entry, above the threshold, no score of the gallery exceeds it and no
    earlier entry scores it; without a match it is 0.0. *)
Theorem reported_similarity_and_match {G : Type} (backend : Backend G)
    (self : t) (image : option ndarray) (known_faces : list KnownFace.t)
    (g : G) :
  0 <= similarity_threshold self ->
  fst (identify_faces backend self image known_faces g)
  = outcomes self known_faces
      (encodings backend self (fst (detect_faces backend image g))
         (snd (detect_faces backend image g)))
  /\ (forall (face : FaceInfo.t) (q : list R),
         let r := face_result_of self face q known_faces in
         FaceResult.encoding r = q
         /\ ((exists s, In s (scores q known_faces)
                        /\ s > similarity_threshold self) ->
             FaceResult.identified r = true
             /\ is_max (FaceResult.similarity r) (scores q known_faces)
             /\ exists i known_face,
                  FaceResult.student_info r = Some known_face
                  /\ first_at q known_faces i known_face
                       (FaceResult.similarity r))
         /\ ((forall s, In s (scores q known_faces) ->
                        s <= similarity_threshold self) ->
             FaceResult.identified r = false
             /\ FaceResult.student_info r = None
             /\ FaceResult.similarity r = 0))
  /\ (forall (fmt : Ieee754.format) (threshold : spec_float)
             (q : list spec_float) (gallery : list Ieee754.known_face),
         SFleb (S754_zero false) threshold = true ->
         let best := Ieee754.best_match fmt threshold q gallery in
         ((exists known known_encoding,
              In known gallery
              /\ Ieee754.encoding known = Some known_encoding
              /\ SFltb threshold (float_score fmt q known_encoding) = true) ->
          exists i known,
            fst best = Some known
            /\ float_first_at fmt q gallery i known (snd best)
            /\ SFltb threshold (snd best) = true
            /\ forall other other_encoding,
                 In other gallery ->
                 Ieee754.encoding other = Some other_encoding ->
                 SFltb (snd best) (float_score fmt q other_encoding) = false)
         /\ ((forall known known_encoding,
                 In known gallery ->
                 Ieee754.encoding known = Some known_encoding ->
                 SFltb threshold (float_score fmt q known_encoding) = false) ->
             best = (None, S754_zero false))).
Proof.
  intro Hthr. split; [apply identify_faces_outcomes|]. split.
  - intros face q. cbv zeta. split; [reflexivity|].
    apply (face_result_of_spec self face q known_faces Hthr).
  - intros fmt threshold q gallery Hnonneg. cbv zeta.
    destruct (@FloatMatcherProps.float_matcher fmt threshold q gallery
                Hnonneg)
      as (Hiff & Hsome & Hnone).
    split.
    + intro Habove. apply Hiff in Habove. destruct Habove as (known & Hk).
      destruct (Hsome known Hk) as (Ht & Hle & i & Hfirst).
      exists i, known. auto.
    + intro Hbelow.
      destruct (Ieee754.best_match fmt threshold q gallery) as [[k|] b];
        cbn [fst snd] in *.
      * destruct (proj1 Hiff (ex_intro _ k eq_refl))
          as (known & enc & Hin & He & Hgt).
        rewrite (Hbelow known enc Hin He) in Hgt. discriminate.
      * rewrite (Hnone eq_refl). reflexivity.
Qed.

(** C3, amended, at work with the threshold 0.3 of [__init__]: the image
    yields two match results; against the gallery with two entries tied at
    the maximum 1 the query is identified with the similarity 1 and matched
    to the first of the two; against the gallery whose only entry scores
    1/5 it is not identified and the similarity is 0.  On floats the query
    [[1., 0.]] scores 0.2 against [[-3., 4.]]: no match and the similarity
    0.0. *)
Lemma reported_similarity_and_match_run :
  length (fst (identify_faces
                 (Scenario.stub (Some Scenario.three_detections)
                                (Some Scenario.mesh))
                 __init__ (Some Scenario.image) Scenario.gallery_tie
                 0%nat)) = 2%nat
  /\ (let r := face_result_of __init__ Scenario.some_face [1; 0]
                 Scenario.gallery_tie in
      FaceResult.identified r = true
      /\ FaceResult.similarity r = 1
      /\ FaceResult.student_info r = Some (Scenario.known 2 "B" [2; 0]))
  /\ (let r := face_result_of __init__ Scenario.some_face [1; 0]
                 Scenario.gallery_far in
      FaceResult.identified r = false
      /\ FaceResult.student_info r = None
      /\ FaceResult.similarity r = 0)
  /\ (let f64 := Ieee754.of_int Ieee754.binary64 in
      Ieee754.best_match Ieee754.binary64
        (Ieee754.div Ieee754.binary64 (f64 3%Z) (f64 10%Z))
        [f64 1%Z; f64 0%Z]
        [ {| Ieee754.id := 1;
             Ieee754.encoding := Some (Some [f64 (-3)%Z; f64 4%Z]) |} ]
      = (None, S754_zero false)).
Proof.
  assert (Hthr : 0 <= similarity_threshold __init__) by (simpl; lra).
  destruct (@reported_similarity_and_match nat
              (Scenario.stub (Some Scenario.three_detections)
                             (Some Scenario.mesh))
              __init__ (Some Scenario.image) Scenario.gallery_tie 0%nat Hthr)
    as (Heq & Htie & Hfloat).
  destruct (@reported_similarity_and_match nat
              (Scenario.stub (Some Scenario.three_detections)
                             (Some Scenario.mesh))
              __init__ (Some Scenario.image) Scenario.gallery_far 0%nat Hthr)
    as (_ & Hfar & _).
  split; [rewrite Heq; vm_compute; reflexivity|].
  split; [|split]; cbv zeta.
  - destruct (Htie Scenario.some_face [1; 0]) as (_ & Habove & _).
    destruct Habove as (Hid & [Hin Hmax] & i & kf & Hinfo & Hfirst).
    { exists 1. rewrite scores_tie. split; [right; left; reflexivity|].
      simpl. lra. }
    split; [exact Hid|].
    assert (Hone : FaceResult.similarity
                     (face_result_of __init__ Scenario.some_face [1; 0]
                        Scenario.gallery_tie) = 1).
    { rewrite scores_tie in Hin, Hmax.
      specialize (Hmax 1 (or_intror (or_introl eq_refl))).
      destruct Hin as [H|[H|[H|[]]]]; lra. }
    split; [exact Hone|].
    rewrite Hinfo. f_equal.
    rewrite Hone in Hfirst.
    destruct Hfirst as (Hnth & (enc & He & Hv) & Hbefore).
    destruct i as [|[|[|i]]]; cbn in Hnth.
    + injection Hnth as <-. cbn in He. injection He as <-.
      rewrite score_far in Hv. lra.
    + injection Hnth as <-. reflexivity.
    + exfalso.
      specialize (Hbefore 1%nat (Scenario.known 2 "B" [2; 0]) (Some [2; 0])).
      rewrite score_b in Hbefore.
      assert (H : 1 < 1) by (apply Hbefore; [lia|reflexivity|reflexivity]).
      lra.
    + destruct i; discriminate.
  - destruct (Hfar Scenario.some_face [1; 0]) as (_ & _ & Hbelow).
    apply Hbelow. rewrite scores_far. intros s [<-|[]]. simpl. lra.
  - apply Hfloat; [apply FloatMatcherProps.threshold_nonneg|].
    intros known enc [<-|[]] He. injection He as <-.
    vm_compute. reflexivity.
Defined.

(** C7: whatever the image, the encodings and the threshold,
    [identify_faces] against an empty gallery returns one match result per
    detected face that has an encoding, the call returns a list and does
    not raise; for every query encoding, the match result against the empty
    gallery has identified = false, similarity 0 and no matched entry, and
    so has every result of the call.  On the floats of the code the loop
    over an empty gallery ends with no match and the similarity 0.0. *)
Theorem empty_gallery_identifies_nobody {G : Type} (backend : Backend G)
    (self : t) (image : option ndarray) (g : G) :
  let encoded :=
    encodings backend self (fst (detect_faces backend image g))
      (snd (detect_faces backend image g)) in
  let results := fst (identify_faces backend self image [] g) in
  results = outcomes self [] encoded
  /\ length results
     = length (filter (fun fe => match snd fe with
                                 | Some _ => true
                                 | None => false
                                 end) encoded)
  /\ (forall (face : FaceInfo.t) (q : list R),
         let r := face_result_of self face q [] in
         FaceResult.encoding r = q
         /\ FaceResult.identified r = false
         /\ FaceResult.similarity r = 0
         /\ FaceResult.student_info r = None)
  /\ Forall
       (fun r =>
          FaceResult.identified r = false
          /\ FaceResult.similarity r = 0
          /\ FaceResult.student_info r = None)
       results
  /\ (forall (fmt : Ieee754.format) (threshold : spec_float)
             (q : list spec_float),
         Ieee754.best_match fmt threshold q [] = (None, S754_zero false)).
Proof.
  cbv zeta.
  split; [apply identify_faces_outcomes|].
  split; [rewrite identify_faces_outcomes; apply length_outcomes|].
  split; [intros face q; repeat split|].
  split; [|reflexivity].
  apply identify_faces_Forall. intros face q. repeat split.
Qed.

(** C7 at work: the two faces of the image that have an encoding are both
    reported, not identified, with the similarity 0 and no matched entry. *)
Lemma empty_gallery_identifies_nobody_run :
  let results :=
    fst (identify_faces
           (Scenario.stub (Some Scenario.three_detections)
                          (Some Scenario.mesh))
           __init__ (Some Scenario.image) [] 0%nat) in
  length results = 2%nat
  /\ Forall
       (fun r =>
          FaceResult.identified r = false
          /\ FaceResult.similarity r = 0
          /\ FaceResult.student_info r = None)
       results.
Proof.
  cbv zeta.
  destruct (empty_gallery_identifies_nobody
              (Scenario.stub (Some Scenario.three_detections)
                             (Some Scenario.mesh))
              __init__ (Some Scenario.image) 0%nat)
    as (_ & Hlen & _ & Hall & _).
  split; [rewrite Hlen; vm_compute; reflexivity|exact Hall].
Defined.

End IdentifyProps.

(* ------------------------------------------------------------------------- *)
(** ** Outcomes per detected face, and repeated runs *)
(* ------------------------------------------------------------------------- *)

Module PipelineProps.

Import MediaPipeFaceRecognition MatcherProps IdentifyProps DetectFacesProps.

Section Outcomes.

Context {G : Type}.
Variable backend : Backend G.
Variable self : t.

Lemma empty_crop_has_no_encoding (face_image : ndarray) (g : G) :
  size face_image = 0%Z ->
  generate_face_encoding backend self (Some face_image) g = (None, g).
Proof.
  intro H. unfold generate_face_encoding. rewrite H. reflexivity.
Qed.

(** C4, amended: [identify_faces] reports exactly one outcome for every
    detected face for which [generate_face_encoding] returns an encoding, in
    detection order, and none for a face for which it returns [None]; a face
    whose crop is empty is always such a face. *)
Theorem one_outcome_per_encodable_face (image : option ndarray)
    (known_faces : list KnownFace.t) (g : G) :
  let detected_faces := fst (detect_faces backend image g) in
  let g1 := snd (detect_faces backend image g) in
  let results := fst (identify_faces backend self image known_faces g) in
  results = outcomes self known_faces (encodings backend self detected_faces g1)
  /\ map FaceResult.bbox results
     = map (fun fe => FaceInfo.bbox (fst fe))
           (filter (fun fe => match snd fe with
                              | Some _ => true
                              | None => false
                              end)
                   (encodings backend self detected_faces g1))
  /\ (forall face_image g',
         size face_image = 0%Z ->
         fst (generate_face_encoding backend self (Some face_image) g')
         = None).
Proof.
  cbv zeta. unfold identify_faces.
  destruct (detect_faces backend image g) as [faces g1]. cbn [fst snd].
  rewrite identify_loop_outcomes. split; [reflexivity|]. split.
  - generalize (encodings backend self faces g1) as encoded.
    induction encoded as [|[face [q|]] rest IH]; simpl.
    + reflexivity.
    + rewrite <- IH. reflexivity.
    + exact IH.
  - intros face_image g' H. rewrite empty_crop_has_no_encoding by exact H.
    reflexivity.
Qed.

Lemma detect_faces_stateless (image : option ndarray) (g g' : G) :
  stateless backend ->
  fst (detect_faces backend image g) = fst (detect_faces backend image g').
Proof.
  intros [Hdet _]. destruct image as [image|]; [|reflexivity].
  rewrite !detect_faces_unfold, !detect_faces_try_unfold.
  destruct (rgb_of backend image) as [rgb|]; [|reflexivity].
  specialize (Hdet rgb g g').
  destruct (face_detection_process backend rgb g) as [r1 g1],
           (face_detection_process backend rgb g') as [r2 g2].
  cbn [fst] in Hdet. subst r2.
  destruct r1 as [[[|d ds]|]|]; reflexivity.
Qed.

Lemma generate_face_encoding_stateless (face_image : option ndarray)
    (g g' : G) :
  stateless backend ->
  fst (generate_face_encoding backend self face_image g)
  = fst (generate_face_encoding backend self face_image g').
Proof.
  intros [_ Hmesh]. unfold generate_face_encoding.
  destruct face_image as [face_image|]; [|reflexivity].
  destruct (size face_image =? 0)%Z; [reflexivity|].
  unfold try_except, generate_face_encoding_try, bind, lift, ret.
  destruct (resize backend face_image (160, 160)%Z) as [resized|];
    [|reflexivity].
  destruct (if (ndim resized =? 3)%nat
            then cvtColor backend resized COLOR_BGR2RGB
            else Ok resized) as [rgb|]; [|reflexivity].
  specialize (Hmesh rgb g g').
  destruct (face_mesh_process backend rgb g) as [r1 g1],
           (face_mesh_process backend rgb g') as [r2 g2].
  cbn [fst] in Hmesh. subst r2.
  destruct r1 as [[[|m ms]|]|]; reflexivity.
Qed.

Lemma identify_loop_stateless (known_faces : list KnownFace.t)
    (detected_faces : list FaceInfo.t) (g g' : G) :
  stateless backend ->
  fst (identify_loop backend self detected_faces known_faces g)
  = fst (identify_loop backend self detected_faces known_faces g').
Proof.
  intro Hs. revert g g'.
  induction detected_faces as [|face rest IH]; intros g g'; [reflexivity|].
  cbn [identify_loop].
  pose proof (generate_face_encoding_stateless
                (Some (FaceInfo.face_region face)) g g' Hs) as He.
  destruct (generate_face_encoding backend self
              (Some (FaceInfo.face_region face)) g) as [e1 g1],
           (generate_face_encoding backend self
              (Some (FaceInfo.face_region face)) g') as [e2 g2].
  cbn [fst] in He. subst e2.
  specialize (IH g1 g2).
  destruct (identify_loop backend self rest known_faces g1) as [r1 h1],
           (identify_loop backend self rest known_faces g2) as [r2 h2].
  cbn [fst] in *. subst r2. reflexivity.
Qed.

(** The results of [identify_faces] depend on the state of the MediaPipe
    graphs only through the answers of the graphs.  When the two graphs
    answer a frame alike on every call, [identify_faces] returns the same
    results from any two graph states; in particular a second run on the
    same image and gallery, started in the state the first run left, repeats
    the results of the first.  Whether the graphs do answer alike is a
    property of MediaPipe and is not decided here. *)
Lemma identify_faces_deterministic (image : option ndarray)
    (known_faces : list KnownFace.t) :
  stateless backend ->
  (forall g g',
      fst (identify_faces backend self image known_faces g)
      = fst (identify_faces backend self image known_faces g'))
  /\ (forall g,
         let '(first_run, g1) :=
           identify_faces backend self image known_faces g in
         let '(second_run, _) :=
           identify_faces backend self image known_faces g1 in
         map (fun r => (FaceResult.identified r, FaceResult.student_info r))
             second_run
         = map (fun r => (FaceResult.identified r, FaceResult.student_info r))
               first_run).
Proof.
  intro Hs.
  assert (H : forall g g',
             fst (identify_faces backend self image known_faces g)
             = fst (identify_faces backend self image known_faces g')).
  { intros g g'. unfold identify_faces.
    pose proof (detect_faces_stateless image g g' Hs) as Hd.
    destruct (detect_faces backend image g) as [f1 g1],
             (detect_faces backend image g') as [f2 g2].
    cbn [fst] in Hd. subst f2. apply identify_loop_stateless, Hs. }
  split; [exact H|].
  intro g. specialize (H g).
  destruct (identify_faces backend self image known_faces g) as [r1 g1].
  specialize (H g1).
  destruct (identify_faces backend self image known_faces g1) as [r2 g2].
  cbn [fst] in H. subst r2. reflexivity.
Qed.

End Outcomes.

(** C4, refuted as stated: of the three faces detected in the image, the
    third has an empty crop and no encoding; [identify_faces] returns two
    outcomes, for the first two boxes, and nothing for the third face. *)
Lemma three_faces_two_outcomes :
  let backend := Scenario.stub (Some Scenario.three_detections)
                               (Some Scenario.mesh) in
  let detected_faces :=
    fst (detect_faces backend (Some Scenario.image) 0%nat) in
  let results :=
    fst (identify_faces backend __init__ (Some Scenario.image)
           Scenario.gallery_tie 0%nat) in
  length detected_faces = 3%nat
  /\ map (fun fe => match snd fe with Some _ => true | None => false end)
         (encodings backend __init__ detected_faces 1%nat)
     = [true; true; false]
  /\ length results = 2%nat
  /\ map FaceResult.bbox results = [(0, 0, 2, 2); (2, 2, 2, 2)]%Z.
Proof.
  cbv zeta. repeat split; vm_compute; reflexivity.
Qed.

Lemma stub_stateless (detections : option (list Detection))
    (meshes : option (list (list Landmark))) :
  stateless (Scenario.stub detections meshes).
Proof. split; reflexivity. Qed.

(** On the counting stub, whose state changes with every frame. *)
Lemma identify_faces_deterministic_run :
  fst (identify_faces
         (Scenario.stub (Some Scenario.three_detections)
                        (Some Scenario.mesh))
         __init__ (Some Scenario.image) Scenario.gallery_tie 0%nat)
  = fst (identify_faces
           (Scenario.stub (Some Scenario.three_detections)
                          (Some Scenario.mesh))
           __init__ (Some Scenario.image) Scenario.gallery_tie 7%nat).
Proof.
  exact (proj1 (@identify_faces_deterministic nat
                  (Scenario.stub (Some Scenario.three_detections)
                                 (Some Scenario.mesh))
                  __init__ (Some Scenario.image) Scenario.gallery_tie
                  (stub_stateless _ _))
               0%nat 7%nat).
Defined.

(** C4, amended, at work: an empty crop has no encoding, whatever the state
    of the graphs. *)
Lemma one_outcome_per_encodable_face_run :
  fst (generate_face_encoding
         (Scenario.stub (Some Scenario.three_detections)
                        (Some Scenario.mesh))
         __init__
         (Some {| shape := [2; 0; 3]%Z; data := [] |}) 3%nat)
  = None.
Proof.
  exact (proj2 (proj2 (one_outcome_per_encodable_face
                         (Scenario.stub (Some Scenario.three_detections)
                                        (Some Scenario.mesh))
                         __init__ (Some Scenario.image) Scenario.gallery_tie
                         0%nat))
               {| shape := [2; 0; 3]%Z; data := [] |} 3%nat eq_refl).
Defined.

End PipelineProps.

(* ------------------------------------------------------------------------- *)
(** ** Properties of [generate_face_encoding] *)
(* ------------------------------------------------------------------------- *)

Module EncodingProps.

Import MediaPipeFaceRecognition SimilarityProps.

Local Open Scope R_scope.

Lemma dot_scale (c : R) (u : list R) :
  dot (map (fun v => v / c) u) (map (fun v => v / c) u)
  = dot u u / (c * c).
Proof.
  induction u as [|a u IH]; simpl.
  - unfold Rdiv. ring.
  - rewrite IH. unfold Rdiv.
    destruct (Req_dec_T c 0) as [->|Hc].
    + rewrite Rmult_0_l, Rinv_0. ring.
    + field. assumption.
Qed.

(** In exact arithmetic, dividing a vector of non-zero norm by its norm
    gives a unit vector. *)
Lemma norm_normalised (u : list R) :
  norm u <> 0 -> norm (map (fun v => v / norm u) u) = 1.
Proof.
  intro Hn. apply norm_of_square; [lra|].
  rewrite dot_scale, norm_sqr, <- (norm_sqr u). field. assumption.
Qed.


Section Fallback.

Context {G : Type}.
Variable backend : Backend G.
Variable self : t.

Lemma length_fit (encoding : list R) :
  length (fit self encoding) = encoding_size self.
Proof.
  unfold fit, pad_right.
  destruct (encoding_size self <? length encoding)%nat eqn:E1.
  - apply Nat.ltb_lt in E1. rewrite length_firstn. lia.
  - apply Nat.ltb_ge in E1.
    destruct (length encoding <? encoding_size self)%nat eqn:E2.
    + apply Nat.ltb_lt in E2. rewrite length_app, repeat_length. lia.
    + apply Nat.ltb_ge in E2. lia.
Qed.


Lemma length_basic_encoding (face_image : ndarray) :
  length (_generate_basic_encoding backend self face_image)
  = encoding_size self.
Proof.
  unfold _generate_basic_encoding.
  destruct (gray32 backend face_image).
  - apply length_fit.
  - apply repeat_length.
Qed.


(** The image handed to the face mesh (lines 140-146). *)
Lemma generate_face_encoding_unfold (face_image : ndarray) (g : G) :
  size face_image <> 0%Z ->
  fst (generate_face_encoding backend self (Some face_image) g)
  = match resize backend face_image (160, 160)%Z with
    | Raise => None
    | Ok face_resized =>
        match (if (ndim face_resized =? 3)%nat
               then cvtColor backend face_resized COLOR_BGR2RGB
               else Ok face_resized) with
        | Raise => None
        | Ok face_rgb =>
            match fst (face_mesh_process backend face_rgb g) with
            | Raise => None
            | Ok (Some (landmarks :: _)) =>
                Some (landmark_encoding self landmarks)
            | Ok _ => Some (_generate_basic_encoding backend self face_rgb)
            end
        end
    end.
Proof.
  intro Hsize. unfold generate_face_encoding.
  replace (size face_image =? 0)%Z with false
    by (symmetry; apply Z.eqb_neq; exact Hsize).
  unfold try_except, generate_face_encoding_try, bind, lift, ret.
  destruct (resize backend face_image (160, 160)%Z) as [resized|];
    [|reflexivity].
  destruct (if (ndim resized =? 3)%nat
            then cvtColor backend resized COLOR_BGR2RGB
            else Ok resized) as [rgb|]; [|reflexivity].
  destruct (face_mesh_process backend rgb g) as [[[[|m ms]|]|] g'];
    reflexivity.
Qed.

Lemma length_landmark_encoding (landmarks : list Landmark) :
  length (landmark_encoding self landmarks)
  = Nat.min (encoding_size self) (3 * length landmarks).
Proof.
  unfold landmark_encoding. rewrite length_map, length_firstn.
  f_equal. induction landmarks as [|lm rest IH]; simpl; [reflexivity|].
  rewrite IH. lia.
Qed.

(** The two ways in which [generate_face_encoding] returns an encoding. *)
Lemma generate_face_encoding_paths (face_image : option ndarray) (g : G)
    (encoding : list R) :
  fst (generate_face_encoding backend self face_image g) = Some encoding
  <-> exists face_rgb,
        prepared backend face_image face_rgb
        /\ ((exists landmarks others,
                fst (face_mesh_process backend face_rgb g)
                = Ok (Some (landmarks :: others))
                /\ encoding = landmark_encoding self landmarks)
            \/ ((fst (face_mesh_process backend face_rgb g) = Ok None
                 \/ fst (face_mesh_process backend face_rgb g)
                    = Ok (Some []))
                /\ encoding = _generate_basic_encoding backend self face_rgb)).
Proof.
  split.
  - destruct face_image as [face_image|]; [|discriminate].
    destruct (Z.eq_dec (size face_image) 0) as [Hz|Hnz].
    { unfold generate_face_encoding. rewrite Hz. discriminate. }
    rewrite (generate_face_encoding_unfold face_image g Hnz).
    destruct (resize backend face_image (160, 160)%Z) as [resized|] eqn:Er;
      [|discriminate].
    destruct (if (ndim resized =? 3)%nat
              then cvtColor backend resized COLOR_BGR2RGB
              else Ok resized) as [rgb|] eqn:Ec; [|discriminate].
    intro H. exists rgb. split; [exists face_image, resized; auto|].
    destruct (fst (face_mesh_process backend rgb g)) as [[[|m ms]|]|];
      try discriminate; injection H as <-; eauto.
  - intros (rgb & (image & resized & -> & Hnz & Er & Ec) & Hpath).
    rewrite (generate_face_encoding_unfold image g Hnz), Er, Ec.
    destruct Hpath as [(m & ms & -> & ->)|[[-> | ->] ->]]; reflexivity.
Qed.


End Fallback.


(** The same when OpenCV raises in the fallback: [np.zeros] is returned. *)
Lemma failed_fallback_gives_zero_encoding :
  _generate_basic_encoding Scenario.broken __init__
    {| shape := [0; 0]%Z; data := [] |}
  = zeros 128.
Proof. reflexivity. Qed.


End EncodingProps.

(* ------------------------------------------------------------------------- *)
(** ** Properties of the attendance ledger *)
(* ------------------------------------------------------------------------- *)

Module LedgerProps.

Import App.

Lemma date_eqb_eq (a b : date) : date_eqb a b = true <-> a = b.
Proof.
  unfold date_eqb. rewrite !andb_true_iff, !Z.eqb_eq.
  destruct a, b; simpl. split.
  - intros [[-> ->] ->]. reflexivity.
  - intro H. injection H as -> -> ->. auto.
Qed.

Lemma same_key_true (student_id : Z) (d : date) (r : Attendance.t) :
  same_key student_id d r = true
  <-> Attendance.student_id r = student_id /\ Attendance.date r = d.
Proof.
  unfold same_key. rewrite andb_true_iff, Z.eqb_eq, date_eqb_eq. tauto.
Qed.

Lemma records_for_app (l : ledger) (r : Attendance.t) (student_id : Z)
    (d : date) :
  records_for (l ++ [r]) student_id d
  = (records_for l student_id d
     + if same_key student_id d r then 1 else 0)%nat.
Proof.
  unfold records_for, filter_by. rewrite filter_app, length_app. simpl.
  destruct (same_key student_id d r); reflexivity.
Qed.

Lemma first_none (l : ledger) (student_id : Z) (d : date) :
  first (filter_by l student_id d) = None
  <-> records_for l student_id d = 0%nat.
Proof.
  unfold records_for. destruct (filter_by l student_id d); simpl; split;
    intro H; (reflexivity || discriminate).
Qed.

(** The outcome of the attendance decision, case by case. *)
Lemma mark_student_cases (student : Student.t) (today : date)
    (utcnow : datetime) (l : ledger) :
  (records_for l (Student.id student) today = 0%nat
   /\ mark_student student today utcnow l
      = (Ok {| Recognized.name := Student.name student;
               Recognized.roll_number := Student.roll_number student;
               Recognized.status := "Attendance marked" |},
         l ++ [ {| Attendance.id := next_id l;
                   Attendance.student_id := Student.id student;
                   Attendance.date := today;
                   Attendance.time_in := utcnow;
                   Attendance.status := "Present" |} ]))
  \/ (records_for l (Student.id student) today <> 0%nat
      /\ mark_student student today utcnow l
         = (Ok {| Recognized.name := Student.name student;
                  Recognized.roll_number := Student.roll_number student;
                  Recognized.status := "Already marked today" |}, l)).
Proof.
  unfold mark_student, Py.bind, add_commit, Py.ret.
  destruct (first (filter_by l (Student.id student) today)) eqn:E.
  - right. split; [|reflexivity].
    intro H. apply first_none in H. congruence.
  - left. split; [apply first_none; assumption|reflexivity].
Qed.

Lemma mark_student_unique (student : Student.t) (today : date)
    (utcnow : datetime) (l : ledger) :
  unique l -> unique (snd (mark_student student today utcnow l)).
Proof.
  intro Hu.
  destruct (mark_student_cases student today utcnow l)
    as [[Hzero ->]|[_ ->]]; [|exact Hu].
  intros s d. cbn [snd]. rewrite records_for_app.
  destruct (same_key s d _) eqn:Ek.
  - apply same_key_true in Ek. cbn in Ek. destruct Ek as [<- <-].
    rewrite Hzero. auto.
  - specialize (Hu s d). lia.
Qed.

Section Route.

Context {J : Type}.
Variable json_loads : string -> Py.result J.
Variable compare_faces : J -> list R -> Py.result bool.

Lemma match_students_unique (all_students : list Student.t) (f : face)
    (l : ledger) :
  unique l ->
  unique (snd (match_students json_loads compare_faces all_students f l)).
Proof.
  induction all_students as [|student rest IH]; intro Hu; [exact Hu|].
  cbn [match_students].
  destruct (has_encoding student) as [text|]; [|apply IH, Hu].
  unfold Py.bind at 1, Py.lift.
  destruct (json_loads text) as [stored|]; [|exact Hu].
  unfold Py.bind at 1.
  destruct (compare_faces stored (face_encoding f)) as [[|]|];
    [|apply IH, Hu|exact Hu].
  unfold Py.bind, Py.ret.
  pose proof (mark_student_unique student (today f) (utcnow f) Hu) as Hm.
  destruct (mark_student student (today f) (utcnow f) l) as [[r|] l'];
    exact Hm.
Qed.

Lemma match_faces_unique (all_students : list Student.t) (faces : list face)
    (l : ledger) :
  unique l ->
  unique (snd (match_faces json_loads compare_faces all_students faces l)).
Proof.
  revert l. induction faces as [|f rest IH]; intros l Hu; [exact Hu|].
  cbn [match_faces]. unfold Py.bind at 1.
  pose proof (match_students_unique all_students f Hu) as Hs.
  destruct (match_students json_loads compare_faces all_students f l)
    as [[rs|] l1]; cbn [snd] in Hs; [|exact Hs].
  unfold Py.bind, Py.ret.
  specialize (IH l1 Hs).
  destruct (match_faces json_loads compare_faces all_students rest l1)
    as [[rs'|] l2]; exact IH.
Qed.

Lemma mark_attendance_unique (all_students : list Student.t)
    (request : Py.result (list face)) (l : ledger) :
  unique l ->
  unique (snd (mark_attendance json_loads compare_faces all_students
                 request l)).
Proof.
  intro Hu. unfold mark_attendance.
  destruct request as [[|f faces]|]; try exact Hu.
  pose proof (match_faces_unique all_students (f :: faces) Hu) as Hm.
  destruct (match_faces json_loads compare_faces all_students (f :: faces) l)
    as [[[|r rs]|] l']; exact Hm.
Qed.

Lemma serve_unique (all_students : list Student.t)
    (requests : list (Py.result (list face))) (l : ledger) :
  unique l ->
  unique (serve json_loads compare_faces all_students requests l).
Proof.
  revert l. induction requests as [|request rest IH]; intros l Hu;
    [exact Hu|].
  cbn [serve]. apply IH, mark_attendance_unique, Hu.
Qed.

(** C1: from a ledger with at most one record per student and date, any
    sequence of [/mark_attendance] requests served one after the other
    leaves at most one record per student and date.  For a student without
    a record for the day, two consecutive attendance decisions answer
    'Attendance marked' and then 'Already marked today'; afterwards the
    ledger holds exactly one record for that student and day, and the second
    decision has left the ledger as the first one made it. *)
Theorem at_most_one_record_per_student_and_day
    (all_students : list Student.t)
    (requests : list (Py.result (list face))) (l : ledger) :
  unique l ->
  unique (serve json_loads compare_faces all_students requests l)
  /\ forall student today t1 t2,
       records_for l (Student.id student) today = 0%nat ->
       exists r1 r2 l1,
         mark_student student today t1 l = (Py.Ok r1, l1)
         /\ mark_student student today t2 l1 = (Py.Ok r2, l1)
         /\ Recognized.status r1 = "Attendance marked"%string
         /\ Recognized.status r2 = "Already marked today"%string
         /\ records_for l1 (Student.id student) today = 1%nat.
Proof.
  intro Hu. split; [apply serve_unique, Hu|].
  intros student today t1 t2 Hzero.
  destruct (mark_student_cases student today t1 l)
    as [[_ H1]|[Hn _]]; [|congruence].
  set (l1 := l ++ _) in H1.
  assert (Hone : records_for l1 (Student.id student) today = 1%nat).
  { unfold l1. rewrite records_for_app, Hzero.
    replace (same_key _ _ _) with true; [reflexivity|].
    symmetry. apply same_key_true. split; reflexivity. }
  destruct (mark_student_cases student today t2 l1)
    as [[Hz _]|[_ H2]]; [congruence|].
  do 2 eexists. exists l1.
  split; [exact H1|]. split; [exact H2|]. repeat split. exact Hone.
Qed.

End Route.

(** C1 at work: student A is recognised at 08:05 and again at 08:10 on the
    same day, in two requests, from an empty ledger. *)
Lemma same_day_duplicate_run :
  let json_loads := fun _ : string => Py.Ok [1%R; 0%R] in
  let compare_faces := fun _ _ : list R => Py.Ok true in
  let capture t :=
    Py.Ok [ {| face_encoding := [1%R; 0%R];
               today := Scenario.monday;
               utcnow := t |} ] in
  let '(answer1, l1) :=
    mark_attendance json_loads compare_faces [Scenario.student_a]
      (capture Scenario.at_0805) [] in
  let '(answer2, l2) :=
    mark_attendance json_loads compare_faces [Scenario.student_a]
      (capture Scenario.at_0810) l1 in
  answer1 = Recognised [ {| Recognized.name := "A";
                            Recognized.roll_number := "R7";
                            Recognized.status := "Attendance marked" |} ]
  /\ answer2 = Recognised [ {| Recognized.name := "A";
                               Recognized.roll_number := "R7";
                               Recognized.status := "Already marked today" |} ]
  /\ l2 = l1
  /\ records_for l2 7 Scenario.monday = 1%nat.
Proof. vm_compute. repeat split. Qed.

(** C1 at work from the empty ledger, for two requests and for two
    decisions about student A. *)
Lemma at_most_one_record_per_student_and_day_run :
  unique (serve (fun _ => Py.Ok [1%R; 0%R]) (fun _ _ => Py.Ok true)
            [Scenario.student_a]
            [ Py.Ok [ {| face_encoding := [1%R; 0%R];
                         today := Scenario.monday;
                         utcnow := Scenario.at_0805 |} ];
              Py.Ok [ {| face_encoding := [1%R; 0%R];
                         today := Scenario.monday;
                         utcnow := Scenario.at_0810 |} ] ]
            [])
  /\ exists r1 r2 l1,
       mark_student Scenario.student_a Scenario.monday Scenario.at_0805 []
       = (Py.Ok r1, l1)
       /\ mark_student Scenario.student_a Scenario.monday Scenario.at_0810 l1
          = (Py.Ok r2, l1)
       /\ Recognized.status r1 = "Attendance marked"%string
       /\ Recognized.status r2 = "Already marked today"%string
       /\ records_for l1 (Student.id Scenario.student_a) Scenario.monday
          = 1%nat.
Proof.
  assert (Hu : unique []) by (intros s d; apply Nat.le_0_l).
  destruct (at_most_one_record_per_student_and_day
              (fun _ => Py.Ok [1%R; 0%R]) (fun _ _ => Py.Ok true)
              [Scenario.student_a]
              [ Py.Ok [ {| face_encoding := [1%R; 0%R];
                           today := Scenario.monday;
                           utcnow := Scenario.at_0805 |} ];
                Py.Ok [ {| face_encoding := [1%R; 0%R];
                           today := Scenario.monday;
                           utcnow := Scenario.at_0810 |} ] ]
              Hu) as [Hserve Htwice].
  split; [exact Hserve|].
  apply Htwice. reflexivity.
Defined.

End LedgerProps.

(* ------------------------------------------------------------------------- *)
(** ** Further properties of [detect_faces] *)
(* ------------------------------------------------------------------------- *)

Module DetectFacesMore.

Import MediaPipeFaceRecognition DetectFacesProps.

Lemma for_each_ok {A B} (body : A -> result B) (l : list A) (bs : list B) :
  for_each body l = Ok bs -> Forall2 (fun a b => body a = Ok b) l bs.
Proof.
  revert bs. induction l as [|a l IH]; intros bs H; simpl in H.
  - injection H as <-. constructor.
  - destruct (body a) as [b|] eqn:Eb; [|discriminate]. simpl in H.
    destruct (for_each body l) as [bs'|]; [|discriminate]. simpl in H.
    injection H as <-. constructor; auto.
Qed.

Lemma for_each_total {A B} (body : A -> result B) (l : list A) :
  Forall (fun a => body a <> Raise) l -> for_each body l <> Raise.
Proof.
  induction 1 as [|a l Ha _ IH]; simpl; [discriminate|].
  destruct (body a); [|contradiction]. simpl.
  destruct (for_each body l); [|contradiction]. discriminate.
Qed.

(** What one iteration of the loop of [detect_faces] stores. *)
Lemma face_info_of_ok (image : ndarray) (h w : Z) (detection : Detection)
    (face : FaceInfo.t) :
  face_info_of image h w detection = Ok face ->
  FaceInfo.bbox face = pixel_bbox h w (relative_bounding_box detection)
  /\ hd_error (score detection) = Some (FaceInfo.confidence face)
  /\ FaceInfo.landmarks face = _extract_key_landmarks detection
  /\ (let '(x, y, width, height) := FaceInfo.bbox face in
      getitem2 image y (y + height) x (x + width)
      = Ok (FaceInfo.face_region face)).
Proof.
  unfold face_info_of.
  destruct (pixel_bbox h w (relative_bounding_box detection))
    as [[[x y] width] height].
  destruct (score detection) as [|s rest]; [discriminate|]. simpl.
  destruct (getitem2 image y (y + height) x (x + width)) as [crop|] eqn:E;
    [|discriminate].
  simpl. intro H. injection H as <-. simpl. auto.
Qed.

Section Faces.

Context {G : Type}.
Variable backend : Backend G.

(** The faces returned for an image are the loop's results for the
    detections of the graph, one by one. *)
Lemma detect_faces_from_detections (image : ndarray) (g : G) (h w : Z)
    (rest : list Z) :
  shape image = h :: w :: rest ->
  fst (detect_faces backend (Some image) g) = []
  \/ exists rgb_image detections,
       rgb_of backend image = Ok rgb_image
       /\ fst (face_detection_process backend rgb_image g)
          = Ok (Some detections)
       /\ Forall2 (fun d f => face_info_of image h w d = Ok f) detections
            (fst (detect_faces backend (Some image) g)).
Proof.
  intro Hshape.
  rewrite detect_faces_unfold, detect_faces_try_unfold.
  destruct (rgb_of backend image) as [rgb|]; [|left; reflexivity].
  destruct (face_detection_process backend rgb g) as [r g'] eqn:Ep.
  destruct r as [[[|d ds]|]|]; try (left; reflexivity).
  rewrite Hshape. cbn [fst].
  destruct (for_each (face_info_of image h w) (d :: ds)) as [faces|] eqn:E;
    [|left; reflexivity].
  right. exists rgb, (d :: ds). rewrite Ep.
  split; [reflexivity|]. split; [reflexivity|].
  apply for_each_ok, E.
Qed.

(** X1: every box returned by [detect_faces] starts at a non-negative
    corner and ends at or before the right and bottom edges of the image. *)
Theorem detect_faces_boxes_clamped (image : ndarray) (g : G) (h w : Z)
    (rest : list Z) :
  shape image = h :: w :: rest ->
  Forall (fun face => clamped h w (FaceInfo.bbox face))
         (fst (detect_faces backend (Some image) g)).
Proof.
  intro Hshape.
  destruct (detect_faces_from_detections image g Hshape)
    as [->|(rgb & dets & _ & _ & Hall)]; [constructor|].
  induction Hall as [|d f ds fs Hf _ IH]; constructor; [|exact IH].
  apply face_info_of_ok in Hf. destruct Hf as (-> & _).
  apply pixel_bbox_upper_clamp.
Qed.

(** X2: when the conversion and the graph succeed and every detection
    carries a score, [detect_faces] returns one face per detection, in the
    order of the graph: its box is the pixel box of the detection, its
    confidence the first score, its landmarks the named key points.  The
    code itself filters no detection out. *)
Theorem detect_faces_one_face_per_detection (image rgb_image : ndarray)
    (g : G) (h w : Z) (rest : list Z) (detections : list Detection) :
  shape image = h :: w :: rest ->
  rgb_of backend image = Ok rgb_image ->
  fst (face_detection_process backend rgb_image g) = Ok (Some detections) ->
  Forall (fun d => score d <> []) detections ->
  Forall2
    (fun d face =>
       FaceInfo.bbox face = pixel_bbox h w (relative_bounding_box d)
       /\ hd_error (score d) = Some (FaceInfo.confidence face)
       /\ FaceInfo.landmarks face = _extract_key_landmarks d)
    detections
    (fst (detect_faces backend (Some image) g)).
Proof.
  intros Hshape Hrgb Hdet Hscore.
  rewrite detect_faces_unfold, detect_faces_try_unfold, Hrgb.
  destruct (face_detection_process backend rgb_image g) as [r g'].
  cbn [fst] in Hdet. subst r. rewrite Hshape.
  destruct detections as [|d ds]; [constructor|]. cbn [fst].
  assert (Hok : for_each (face_info_of image h w) (d :: ds) <> Raise).
  { apply for_each_total.
    eapply Forall_impl; [|exact Hscore].
    intros d' Hd'. unfold face_info_of.
    destruct (pixel_bbox h w (relative_bounding_box d'))
      as [[[x y] width] height].
    destruct (score d') as [|s0 srest] eqn:Es; [congruence|]. simpl.
    unfold getitem2. rewrite Hshape. simpl. discriminate. }
  destruct (for_each (face_info_of image h w) (d :: ds)) as [faces|] eqn:E;
    [|congruence].
  apply for_each_ok in E.
  clear Hok Hscore. induction E as [|d' f ds' fs Hf _ IH]; constructor;
    [|exact IH].
  apply face_info_of_ok in Hf. tauto.
Qed.

End Faces.

Lemma int_nonneg (q : Q) : (0 <= q)%Q -> int q = Qfloor q.
Proof.
  destruct q as [n d]. unfold int, Qfloor, Qle. simpl. intro H.
  apply Z.quot_div_nonneg; lia.
Qed.

Lemma int_bounds (q : Q) (lo hi : Z) :
  (0 <= lo)%Z -> (inject_Z lo <= q)%Q -> (q < inject_Z hi)%Q ->
  (lo <= int q < hi)%Z.
Proof.
  intros Hlo Hle Hlt.
  assert (H0 : (0 <= q)%Q).
  { eapply Qle_trans; [|exact Hle]. unfold Qle. simpl. lia. }
  rewrite (int_nonneg H0). split.
  - rewrite <- (Qfloor_Z lo). apply Qfloor_resp_le, Hle.
  - rewrite Zlt_Qlt. eapply Qle_lt_trans; [apply Qfloor_le|exact Hlt].
Qed.

(** X3: a detection whose relative box starts inside the image
    ([0 <= xmin < 1], [0 <= ymin < 1]) and spans at least one pixel each way
    gets a pixel box inside the image, of positive width and height. *)
Theorem pixel_bbox_inside (h w : Z) (bbox : RelativeBoundingBox) :
  (0 < h)%Z -> (0 < w)%Z ->
  (0 <= xmin bbox)%Q -> (xmin bbox < 1)%Q ->
  (0 <= ymin bbox)%Q -> (ymin bbox < 1)%Q ->
  (1 <= width bbox * inject_Z w)%Q ->
  (1 <= height bbox * inject_Z h)%Q ->
  let '(x, y, width, height) := pixel_bbox h w bbox in
  (0 <= x < w /\ 0 <= y < h /\ 0 < width /\ 0 < height
   /\ x + width <= w /\ y + height <= h)%Z.
Proof.
  intros Hh Hw Hx0 Hx1 Hy0 Hy1 Hwd Hht.
  assert (Hscale : forall (r : Q) (n : Z),
             (0 < n)%Z -> (0 <= r)%Q -> (r < 1)%Q ->
             (0 <= int (r * inject_Z n) < n)%Z).
  { intros r n Hn Hr0 Hr1. apply int_bounds; [lia| |].
    - change (inject_Z 0) with 0%Q. apply Qmult_le_0_compat; [exact Hr0|].
      unfold Qle. simpl. lia.
    - setoid_replace (inject_Z n) with (1 * inject_Z n)%Q at 2 by ring.
      apply Qmult_lt_compat_r; [|exact Hr1].
      unfold Qlt. simpl. lia. }
  assert (Hone : forall q : Q, (1 <= q)%Q -> (1 <= int q)%Z).
  { intros q Hq.
    assert (H0 : (0 <= q)%Q) by (eapply Qle_trans; [|exact Hq]; discriminate).
    rewrite (int_nonneg H0). change 1%Z with (Qfloor 1).
    apply Qfloor_resp_le, Hq. }
  pose proof (Hscale (xmin bbox) w Hw Hx0 Hx1) as Hx.
  pose proof (Hscale (ymin bbox) h Hh Hy0 Hy1) as Hy.
  pose proof (Hone _ Hwd) as Hw1.
  pose proof (Hone _ Hht) as Hh1.
  unfold pixel_bbox. cbv zeta. lia.
Qed.

(** X3 at work on the second detection of the scenario. *)
Lemma pixel_bbox_inside_run :
  pixel_bbox 4 4 (relative_bounding_box (Scenario.detection 0.5 0.5 0.5 0.5))
  = (2, 2, 2, 2)%Z
  /\ let '(x, y, width, height) :=
       pixel_bbox 4 4
         (relative_bounding_box (Scenario.detection 0.5 0.5 0.5 0.5)) in
     (0 <= x < 4 /\ 0 <= y < 4 /\ 0 < width /\ 0 < height
      /\ x + width <= 4 /\ y + height <= 4)%Z.
Proof.
  split; [reflexivity|].
  apply (pixel_bbox_inside (h := 4) (w := 4)
           (relative_bounding_box (Scenario.detection 0.5 0.5 0.5 0.5)));
    (reflexivity || discriminate).
Defined.

(** X1 at work on the scenario's image. *)
Lemma detect_faces_boxes_clamped_run :
  Forall (fun face => clamped 4 4 (FaceInfo.bbox face))
         (fst (detect_faces
                 (Scenario.stub (Some Scenario.three_detections)
                                (Some Scenario.mesh))
                 (Some Scenario.image) 0%nat)).
Proof.
  apply (detect_faces_boxes_clamped
           (Scenario.stub (Some Scenario.three_detections)
                          (Some Scenario.mesh))
           Scenario.image 0%nat (h := 4) (w := 4) (rest := [3%Z])).
  reflexivity.
Defined.

(** X2 at work on the scenario's image. *)
Lemma detect_faces_one_face_per_detection_run :
  Forall2
    (fun d face =>
       FaceInfo.bbox face = pixel_bbox 4 4 (relative_bounding_box d)
       /\ hd_error (score d) = Some (FaceInfo.confidence face)
       /\ FaceInfo.landmarks face = _extract_key_landmarks d)
    Scenario.three_detections
    (fst (detect_faces
            (Scenario.stub (Some Scenario.three_detections)
                           (Some Scenario.mesh))
            (Some Scenario.image) 0%nat)).
Proof.
  apply (detect_faces_one_face_per_detection
           (Scenario.stub (Some Scenario.three_detections)
                          (Some Scenario.mesh))
           Scenario.image
           (rgb_image := {| shape := [4; 4; 3]%Z;
                            data := flat_map (@rev Z)
                                      (chunks 3 16 (data Scenario.image)) |})
           0%nat (h := 4) (w := 4) (rest := [3%Z]));
    try reflexivity.
  repeat constructor; discriminate.
Defined.

End DetectFacesMore.

(* ------------------------------------------------------------------------- *)
(** ** The crop and the named key points of a detected face *)
(* ------------------------------------------------------------------------- *)

Module CropProps.

Import MediaPipeFaceRecognition DetectFacesMore.

Lemma Forall_firstn_of {A} (P : A -> Prop) (n : nat) (l : list A) :
  Forall P l -> Forall P (firstn n l).
Proof.
  intro H. rewrite <- (firstn_skipn n l) in H.
  apply Forall_app in H. apply H.
Qed.

Lemma Forall_skipn_of {A} (P : A -> Prop) (n : nat) (l : list A) :
  Forall P l -> Forall P (skipn n l).
Proof.
  intro H. rewrite <- (firstn_skipn n l) in H.
  apply Forall_app in H. apply H.
Qed.

Lemma length_chunks {A} (n k : nat) (l : list A) :
  length (chunks n k l) = k.
Proof.
  revert l. induction k as [|k IH]; intro l; simpl; [reflexivity|].
  rewrite IH. reflexivity.
Qed.

Lemma chunks_full {A} (n k : nat) (l : list A) :
  (k * n <= length l)%nat ->
  Forall (fun c => length c = n) (chunks n k l).
Proof.
  revert l. induction k as [|k IH]; intros l H; simpl; constructor.
  - rewrite length_firstn. simpl in H. lia.
  - apply IH. rewrite length_skipn. simpl in H. lia.
Qed.

Lemma length_flat_map_const {A B} (f : A -> list B) (m : nat) (l : list A) :
  Forall (fun a => length (f a) = m) l ->
  length (flat_map f l) = (length l * m)%nat.
Proof.
  induction 1 as [|a l Ha _ IH]; simpl; [reflexivity|].
  rewrite length_app, Ha, IH. reflexivity.
Qed.

Lemma prod_nonneg (l : list Z) :
  Forall (fun d => (0 <= d)%Z) l -> (0 <= prod l)%Z.
Proof.
  induction 1 as [|d l Hd _ IH]; simpl; [lia|]. apply Z.mul_nonneg_nonneg; assumption.
Qed.

Lemma slice_bound_inside (n i : Z) :
  (0 <= i <= n)%Z -> slice_bound n i = i.
Proof.
  intro H. unfold slice_bound.
  destruct (i <? 0)%Z eqn:E; [apply Z.ltb_lt in E; lia|lia].
Qed.

(** Slicing a box that lies in a well-formed image gives a well-formed
    array with the height and the width of the box. *)
Lemma getitem2_inside (image : ndarray) (h w : Z) (rest : list Z)
    (x y width height : Z) :
  well_formed image ->
  shape image = h :: w :: rest ->
  (0 <= x)%Z -> (0 <= y)%Z -> (0 <= width)%Z -> (0 <= height)%Z ->
  (x + width <= w)%Z -> (y + height <= h)%Z ->
  exists crop,
    getitem2 image y (y + height) x (x + width) = Ok crop
    /\ shape crop = height :: width :: rest
    /\ well_formed crop.
Proof.
  intros [Hdims Hlen] Hshape Hx Hy Hwd Hht Hxw Hyh.
  rewrite Hshape in Hdims, Hlen.
  inversion Hdims as [|? ? Hh Hdims']; subst.
  inversion Hdims' as [|? ? Hw Hrest]; subst.
  pose proof (prod_nonneg Hrest) as Hitem.
  unfold getitem2. rewrite Hshape.
  rewrite !slice_bound_inside by lia.
  replace (Z.max 0 (y + height - y)) with height by lia.
  replace (Z.max 0 (x + width - x)) with width by lia.
  eexists. split; [reflexivity|]. split; [reflexivity|].
  split; cbn [shape data].
  - constructor; [assumption|]. constructor; assumption.
  - set (item := prod rest) in *.
    set (rows := chunks (Z.to_nat (w * item)) (Z.to_nat h) (data image)).
    assert (Hrows : Forall (fun c => length c = Z.to_nat (w * item)) rows).
    { apply chunks_full. rewrite Hlen. simpl. fold item.
      rewrite <- Z2Nat.inj_mul by nia. lia. }
    rewrite (length_flat_map_const _ (m := Z.to_nat (width * item))).
    + rewrite length_firstn, length_skipn. unfold rows.
      rewrite length_chunks. simpl. fold item.
      replace (Nat.min (Z.to_nat height) (Z.to_nat h - Z.to_nat y))
        with (Z.to_nat height) by lia.
      rewrite <- Z2Nat.inj_mul by nia. reflexivity.
    + apply Forall_firstn_of, Forall_skipn_of.
      eapply Forall_impl; [|exact Hrows].
      intros row Hrow. rewrite length_firstn, length_skipn, Hrow.
      assert (Z.to_nat (x * item) + Z.to_nat (width * item)
              <= Z.to_nat (w * item))%nat.
      { rewrite <- Z2Nat.inj_add by nia. apply Z2Nat.inj_le; nia. }
      lia.
Qed.

Section Crops.

Context {G : Type}.
Variable backend : Backend G.

(** X4: in a well-formed image, the crop stored for a returned face whose
    box has non-negative width and height is a well-formed array of exactly
    that height and width, with the channels of the image. *)
Theorem face_region_has_the_size_of_the_box (image : ndarray) (g : G)
    (h w : Z) (rest : list Z) :
  well_formed image ->
  shape image = h :: w :: rest ->
  Forall
    (fun face =>
       let '(x, y, width, height) := FaceInfo.bbox face in
       (0 <= width)%Z -> (0 <= height)%Z ->
       shape (FaceInfo.face_region face) = height :: width :: rest
       /\ well_formed (FaceInfo.face_region face))
    (fst (detect_faces backend (Some image) g)).
Proof.
  intros Hwf Hshape.
  destruct (detect_faces_from_detections backend image g Hshape)
    as [->|(rgb & dets & _ & _ & Hall)]; [constructor|].
  induction Hall as [|d f ds fs Hf _ IH]; constructor; [|exact IH].
  apply face_info_of_ok in Hf. destruct Hf as (Hbox & _ & _ & Hcrop).
  pose proof (DetectFacesProps.pixel_bbox_upper_clamp h w
                (relative_bounding_box d)) as Hclamp.
  rewrite <- Hbox in Hclamp.
  destruct (FaceInfo.bbox f) as [[[x y] width] height].
  intros Hwd Hht.
  destruct (@getitem2_inside image h w rest x y width height Hwf Hshape)
    as (crop & Hget & Hs & Hw'); try lia.
  rewrite Hget in Hcrop. injection Hcrop as <-. auto.
Qed.

End Crops.

(** X4 at work on the scenario's image. *)
Lemma face_region_has_the_size_of_the_box_run :
  Forall
    (fun face =>
       let '(x, y, width, height) := FaceInfo.bbox face in
       (0 <= width)%Z -> (0 <= height)%Z ->
       shape (FaceInfo.face_region face) = height :: width :: [3%Z]
       /\ well_formed (FaceInfo.face_region face))
    (fst (detect_faces
            (Scenario.stub (Some Scenario.three_detections)
                           (Some Scenario.mesh))
            (Some Scenario.image) 0%nat)).
Proof.
  apply (face_region_has_the_size_of_the_box
           (Scenario.stub (Some Scenario.three_detections)
                          (Some Scenario.mesh))
           (image := Scenario.image) 0%nat (h := 4) (w := 4)).
  - split; [repeat constructor; discriminate|reflexivity].
  - reflexivity.
Defined.

(** X5: [_extract_key_landmarks] names at most six key points: the k-th
    name of [point_names] goes with the k-th key point of the detection,
    no name is used twice, and key points beyond the sixth are dropped. *)
Theorem key_landmarks_are_the_first_six (detection : Detection) :
  let named := _extract_key_landmarks detection in
  map fst named
  = firstn (length (relative_keypoints detection)) point_names
  /\ map snd named = firstn 6 (relative_keypoints detection)
  /\ (length named <= 6)%nat
  /\ NoDup (map fst named).
Proof.
  cbv zeta. unfold _extract_key_landmarks.
  set (kps := relative_keypoints detection).
  assert (Hnames : NoDup point_names).
  { unfold point_names. repeat constructor; simpl; intuition discriminate. }
  assert (H1 : map fst (combine point_names (firstn (length point_names) kps))
               = firstn (length kps) point_names).
  { change (length point_names) with 6%nat. unfold point_names.
    destruct kps as [|k1 [|k2 [|k3 [|k4 [|k5 [|k6 rest]]]]]]; simpl;
      try rewrite firstn_nil; reflexivity. }
  assert (H2 : map snd (combine point_names (firstn (length point_names) kps))
               = firstn 6 kps).
  { change (length point_names) with 6%nat. unfold point_names.
    destruct kps as [|k1 [|k2 [|k3 [|k4 [|k5 [|k6 rest]]]]]]; reflexivity. }
  split; [exact H1|]. split; [exact H2|]. split.
  - rewrite length_combine, length_firstn.
    change (length point_names) with 6%nat. lia.
  - rewrite H1.
    rewrite <- (firstn_skipn (length kps) point_names) in Hnames.
    apply NoDup_app_remove_r in Hnames. exact Hnames.
Qed.

End CropProps.

(* ------------------------------------------------------------------------- *)
(** ** Further properties of [compare_faces] *)
(* ------------------------------------------------------------------------- *)

Module SimilarityMore.

Import MediaPipeFaceRecognition SimilarityProps.

Local Open Scope R_scope.

Lemma dot_comm (u v : list R) : dot u v = dot v u.
Proof.
  revert v. induction u as [|a u IH]; intros [|b v]; simpl; try reflexivity.
  rewrite IH. ring.
Qed.

(** X6: [compare_faces] is symmetric in its two arguments. *)
Theorem compare_faces_symmetric (encoding1 encoding2 : option (list R)) :
  compare_faces encoding1 encoding2 = compare_faces encoding2 encoding1.
Proof.
  destruct encoding1 as [a|], encoding2 as [b|]; try reflexivity.
  rewrite !compare_faces_unfold. cbv zeta.
  rewrite (Nat.min_comm (length b) (length a)).
  set (n := Nat.min (length a) (length b)).
  rewrite (dot_comm (firstn n b) (firstn n a)).
  rewrite (Rmult_comm (norm (firstn n b)) (norm (firstn n a))).
  rewrite (orb_comm (Reqb0 (norm (firstn n b)))). reflexivity.
Qed.

(** X7: arrays of unequal length are compared on their common prefix: the
    result is that of the two prefixes, so entries appended to the longer
    array change nothing. *)
Theorem compare_faces_common_prefix (a b : list R) :
  let n := Nat.min (length a) (length b) in
  compare_faces (Some a) (Some b)
  = compare_faces (Some (firstn n a)) (Some (firstn n b))
  /\ forall extra,
       length a = length b ->
       compare_faces (Some a) (Some (b ++ extra))
       = compare_faces (Some a) (Some b).
Proof.
  cbv zeta. split.
  - rewrite !compare_faces_unfold. cbv zeta.
    rewrite !length_firstn.
    set (n := Nat.min (length a) (length b)).
    replace (Nat.min (Nat.min n (length a)) (Nat.min n (length b)))
      with n by (unfold n; lia).
    rewrite !firstn_firstn, Nat.min_id. reflexivity.
  - intros extra Hlen. rewrite !compare_faces_unfold. cbv zeta.
    rewrite length_app, <- Hlen.
    replace (Nat.min (length a) (length a + length extra))
      with (length a) by lia.
    rewrite Nat.min_id, firstn_all, Hlen, firstn_app, firstn_all.
    rewrite Nat.sub_diag, firstn_0, app_nil_r. reflexivity.
Qed.

End SimilarityMore.

(* ------------------------------------------------------------------------- *)
(** ** Further properties of [generate_face_encoding] *)
(* ------------------------------------------------------------------------- *)

Module EncodingMore.

Import MediaPipeFaceRecognition SimilarityProps EncodingProps.

Local Open Scope R_scope.

Section Generator.

Context {G : Type}.
Variable backend : Backend G.
Variable self : t.

(** X9: [generate_face_encoding] answers [None] for a missing crop, for an
    empty crop, and whenever [cv2.resize], the colour conversion or the face
    mesh raises; a failure inside the fallback is not among these cases: it
    yields the zero vector of [np.zeros]. *)
Theorem generate_face_encoding_failures (face_image : ndarray) (g : G) :
  fst (generate_face_encoding backend self None g) = None
  /\ (size face_image = 0%Z ->
      fst (generate_face_encoding backend self (Some face_image) g) = None)
  /\ (resize backend face_image (160, 160)%Z = Raise ->
      fst (generate_face_encoding backend self (Some face_image) g) = None)
  /\ (forall face_resized,
         resize backend face_image (160, 160)%Z = Ok face_resized ->
         ndim face_resized = 3%nat ->
         cvtColor backend face_resized COLOR_BGR2RGB = Raise ->
         fst (generate_face_encoding backend self (Some face_image) g) = None)
  /\ (forall face_resized face_rgb,
         resize backend face_image (160, 160)%Z = Ok face_resized ->
         (if (ndim face_resized =? 3)%nat
          then cvtColor backend face_resized COLOR_BGR2RGB
          else Ok face_resized) = Ok face_rgb ->
         fst (face_mesh_process backend face_rgb g) = Raise ->
         fst (generate_face_encoding backend self (Some face_image) g) = None)
  /\ (forall face_resized face_rgb,
         size face_image <> 0%Z ->
         resize backend face_image (160, 160)%Z = Ok face_resized ->
         (if (ndim face_resized =? 3)%nat
          then cvtColor backend face_resized COLOR_BGR2RGB
          else Ok face_resized) = Ok face_rgb ->
         fst (face_mesh_process backend face_rgb g) = Ok None ->
         gray32 backend face_rgb = Raise ->
         fst (generate_face_encoding backend self (Some face_image) g)
         = Some (zeros (encoding_size self))).
Proof.
  assert (Hempty : size face_image = 0%Z ->
            fst (generate_face_encoding backend self (Some face_image) g)
            = None).
  { intro H. unfold generate_face_encoding. rewrite H. reflexivity. }
  split; [reflexivity|]. split; [exact Hempty|].
  destruct (Z.eq_dec (size face_image) 0) as [Hz|Hnz].
  { repeat split; intros; try (apply Hempty; exact Hz). contradiction. }
  rewrite (generate_face_encoding_unfold backend self face_image g Hnz).
  split; [intros ->; reflexivity|].
  split.
  { intros resized -> Hdim Hcvt. rewrite Hdim. cbn. rewrite Hcvt.
    reflexivity. }
  split.
  { intros resized rgb -> -> ->. reflexivity. }
  intros resized rgb _ -> -> -> Hgray.
  unfold _generate_basic_encoding. rewrite Hgray. reflexivity.
Qed.

(** X10: an encoding returned by [generate_face_encoding] never has more
    than [encoding_size] entries.  Returned after a face mesh that finds
    landmarks in the prepared crop, it has
    [min(encoding_size, 3 * number of landmarks of the first mesh)] entries,
    so a mesh of at least 43 landmarks fills the 128 entries of [__init__];
    returned after a face mesh that finds none, it has exactly
    [encoding_size] entries. *)
Theorem encoding_length (face_image : option ndarray) (g : G)
    (encoding : list R) :
  fst (generate_face_encoding backend self face_image g) = Some encoding ->
  (length encoding <= encoding_size self)%nat
  /\ exists face_rgb,
       prepared backend face_image face_rgb
       /\ ((exists landmarks others,
               fst (face_mesh_process backend face_rgb g)
               = Ok (Some (landmarks :: others))
               /\ length encoding
                  = Nat.min (encoding_size self) (3 * length landmarks))
           \/ ((fst (face_mesh_process backend face_rgb g) = Ok None
                \/ fst (face_mesh_process backend face_rgb g)
                   = Ok (Some []))
               /\ length encoding = encoding_size self)).
Proof.
  intro H. apply (generate_face_encoding_paths backend self) in H.
  destruct H as (rgb & Hprep & [(m & ms & Hmesh & ->)|[Hmesh ->]]).
  - rewrite (length_landmark_encoding self). split; [lia|].
    exists rgb. split; [exact Hprep|]. left. exists m, ms. auto.
  - rewrite length_basic_encoding. split; [lia|].
    exists rgb. split; [exact Hprep|]. right. auto.
Qed.

(** X11: when the grey image delivered by OpenCV holds [uint8] pixels, every
    entry of the fallback encoding lies in [[0, 1]]. *)
Theorem basic_encoding_in_unit_interval (face_image : ndarray) :
  (forall gray,
      gray32 backend face_image = Ok gray ->
      Forall (fun p => (0 <= p <= 255)%Z) (data gray)) ->
  Forall (fun v => 0 <= v <= 1)
         (_generate_basic_encoding backend self face_image).
Proof.
  intro Hpx. unfold _generate_basic_encoding.
  destruct (gray32 backend face_image) as [gray|].
  - specialize (Hpx gray eq_refl).
    assert (Hmap : Forall (fun v => 0 <= v <= 1)
                     (map (fun p => IZR p / 255) (data gray))).
    { rewrite Forall_map. eapply Forall_impl; [|exact Hpx].
      intros p [H0 H255]. apply IZR_le in H0. apply IZR_le in H255.
      split.
      - apply Rmult_le_pos; lra.
      - apply Rmult_le_reg_r with 255; [lra|].
        unfold Rdiv. rewrite Rmult_assoc, Rinv_l by lra. lra. }
    assert (Hzero : forall n, Forall (fun v => 0 <= v <= 1) (repeat 0 n)).
    { intro n. apply Forall_forall. intros v Hv.
      apply repeat_spec in Hv. subst v. lra. }
    unfold fit, pad_right.
    destruct (encoding_size self <? length _)%nat.
    + rewrite <- (firstn_skipn (encoding_size self)) in Hmap.
      apply Forall_app in Hmap. apply Hmap.
    + destruct (length _ <? encoding_size self)%nat; [|exact Hmap].
      apply Forall_app. split; [exact Hmap|apply Hzero].
  - apply Forall_forall. intros v Hv. apply repeat_spec in Hv. subst v. lra.
Qed.

End Generator.

(** X10 at work: with a face mesh of one landmark the encoding of the crop
    has 3 entries; with a face mesh that finds nothing it has 128. *)
Lemma encoding_length_run :
  (exists encoding,
      fst (generate_face_encoding (Scenario.stub None (Some Scenario.mesh))
             __init__ (Some Scenario.black_crop) 0%nat) = Some encoding
      /\ length encoding = 3%nat)
  /\ (exists encoding,
         fst (generate_face_encoding (Scenario.stub None None) __init__
                (Some Scenario.black_crop) 0%nat) = Some encoding
         /\ length encoding = 128%nat).
Proof.
  split.
  - exists (map (fun v => v / norm [1; 0; 0]) [1; 0; 0]).
    assert (Hrun : fst (generate_face_encoding
                          (Scenario.stub None (Some Scenario.mesh))
                          __init__ (Some Scenario.black_crop) 0%nat)
                   = Some (map (fun v => v / norm [1; 0; 0]) [1; 0; 0]))
      by (vm_compute; reflexivity).
    split; [exact Hrun|].
    apply (encoding_length (Scenario.stub None (Some Scenario.mesh))
             __init__) in Hrun.
    destruct Hrun
      as (_ & rgb & _ & [(m & ms & Hmesh & Hlen)|([Hmesh|Hmesh] & _)]);
      [|discriminate|discriminate].
    injection Hmesh as <- <-. rewrite Hlen. reflexivity.
  - exists (map (fun p => IZR p / 255) (repeat 0%Z 128)).
    assert (Hrun : fst (generate_face_encoding (Scenario.stub None None)
                          __init__ (Some Scenario.black_crop) 0%nat)
                   = Some (map (fun p => IZR p / 255) (repeat 0%Z 128)))
      by (vm_compute; reflexivity).
    split; [exact Hrun|].
    apply (encoding_length (Scenario.stub None None) __init__) in Hrun.
    destruct Hrun
      as (_ & rgb & _ & [(m & ms & Hmesh & _)|(_ & Hlen)]);
      [discriminate|exact Hlen].
Defined.

(** X11 at work on the black crop with the stub's resampling. *)
Lemma basic_encoding_in_unit_interval_run :
  Forall (fun v => 0 <= v <= 1)
         (_generate_basic_encoding (Scenario.stub None None) __init__
            Scenario.black_crop).
Proof.
  apply basic_encoding_in_unit_interval.
  intros gray H.
  assert (Hb : forallb (fun p => (0 <=? p)%Z && (p <=? 255)%Z) (data gray)
               = true).
  { vm_compute in H. injection H as <-. vm_compute. reflexivity. }
  apply Forall_forall. intros p Hp. rewrite forallb_forall in Hb.
  specialize (Hb p Hp). lia.
Defined.

End EncodingMore.

(* ------------------------------------------------------------------------- *)
(** ** Further properties of [identify_faces] and of
       [process_image_for_attendance] *)
(* ------------------------------------------------------------------------- *)

Module IdentifyMore.

Import MediaPipeFaceRecognition MatcherProps SimilarityProps IdentifyProps
  SimilarityMore DetectFacesProps.

Local Open Scope R_scope.

(** X9 at work: an empty crop. *)
Lemma generate_face_encoding_failures_run :
  fst (generate_face_encoding Scenario.broken __init__
         (Some {| shape := [2; 0; 3]%Z; data := [] |}) 0%nat)
  = None.
Proof.
  exact (proj1 (proj2 (EncodingMore.generate_face_encoding_failures
                         Scenario.broken __init__
                         {| shape := [2; 0; 3]%Z; data := [] |} 0%nat))
               eq_refl).
Defined.

Section Results.

Context {G : Type}.
Variable backend : Backend G.
Variable self : t.

(** X12: [identify_faces] returns the match result of every detected face
    that has an encoding, and for every query encoding, gallery and
    threshold a match result is consistent.  One that is not identified
    carries the similarity 0 and no student; one that is identified carries
    an entry of the gallery that has an encoding, and its similarity is the
    score of that entry against the query, above the threshold and
    above 0.  The same is true of the loop on the floats of the code. *)
Theorem results_are_consistent (image : option ndarray)
    (known_faces : list KnownFace.t) (g : G) :
  fst (identify_faces backend self image known_faces g)
  = outcomes self known_faces
      (encodings backend self (fst (detect_faces backend image g))
         (snd (detect_faces backend image g)))
  /\ (forall (face : FaceInfo.t) (q : list R),
         let r := face_result_of self face q known_faces in
         FaceResult.encoding r = q
         /\ FaceResult.bbox r = FaceInfo.bbox face
         /\ (FaceResult.identified r = false ->
             FaceResult.similarity r = 0 /\ FaceResult.student_info r = None)
         /\ (FaceResult.identified r = true ->
             exists known_face known_encoding,
               FaceResult.student_info r = Some known_face
               /\ In known_face known_faces
               /\ KnownFace.encoding known_face = Some known_encoding
               /\ FaceResult.similarity r
                  = compare_faces (Some q) known_encoding
               /\ FaceResult.similarity r > similarity_threshold self
               /\ FaceResult.similarity r > 0))
  /\ (forall (fmt : Ieee754.format) (threshold : spec_float)
             (q : list spec_float) (gallery : list Ieee754.known_face),
         let best := Ieee754.best_match fmt threshold q gallery in
         (fst best = None -> snd best = S754_zero false)
         /\ (forall known,
                fst best = Some known ->
                exists known_encoding,
                  In known gallery
                  /\ Ieee754.encoding known = Some known_encoding
                  /\ snd best = float_score fmt q known_encoding
                  /\ SFltb threshold (snd best) = true
                  /\ SFltb (S754_zero false) (snd best) = true)).
Proof.
  split; [apply identify_faces_outcomes|]. split.
  - intros face q. cbv zeta.
    destruct (face_result_of_fields self face q known_faces)
      as (Henc & Hbox & Hinfo & Hsim & Hid).
    rewrite Henc, Hbox, Hinfo, Hsim, Hid. clear Henc Hbox Hinfo Hsim Hid.
    split; [reflexivity|]. split; [reflexivity|].
    pose proof (best_match_inv self q known_faces) as Hinv.
    destruct (best_match self q known_faces) as [[known|] best];
      cbn [fst snd]; unfold loop_inv in Hinv.
    + destruct Hinv as (H0 & Ht & _ & i & Hnth & (enc & He & Hv) & _).
      split; [discriminate|]. intros _. exists known, enc.
      repeat split; auto. eapply nth_error_In; eassumption.
    + destruct Hinv as (-> & _). split; [auto|discriminate].
  - intros fmt threshold q gallery. cbv zeta.
    pose proof (FloatMatcherProps.float_best_match_inv fmt threshold q
                  gallery) as Hinv.
    destruct (Ieee754.best_match fmt threshold q gallery) as [[k|] b];
      cbn [fst snd]; unfold float_loop_inv in Hinv.
    + destruct Hinv as (H0 & Ht & _ & i & Hnth & (enc & He & Hv) & _).
      split; [discriminate|]. intros known Hk. injection Hk as <-.
      exists enc. repeat split; auto. eapply nth_error_In; eassumption.
    + destruct Hinv as (-> & _). split; [reflexivity|discriminate].
Qed.

(** [cv2.imdecode] for the entry point. *)
Variable imdecode : list Z -> result (option ndarray).

(** X14: [process_image_for_attendance] refuses bytes that decode to no
    image with 'Invalid image data' and leaves the graphs untouched.  For
    bytes that decode to an image it always answers success: the count is
    the number of listed faces, the listed boxes are those of
    [detect_faces], no listed face carries an encoding, and a detection
    graph that raises is reported as success with zero faces. *)
Theorem process_image_for_attendance_reports (image_data : list Z) (g : G) :
  (imdecode image_data = Ok None ->
   process_image_for_attendance backend imdecode image_data g
   = (Refused "Invalid image data", g))
  /\ (forall image,
         imdecode image_data = Ok (Some image) ->
         exists faces,
           fst (process_image_for_attendance backend imdecode image_data g)
           = Processed (length faces) faces
           /\ map FaceSummary.bbox faces
              = map FaceInfo.bbox
                    (fst (detect_faces backend (Some image) g))
           /\ Forall (fun f => FaceSummary.encoding f = None) faces)
  /\ (forall image rgb_image,
         imdecode image_data = Ok (Some image) ->
         rgb_of backend image = Ok rgb_image ->
         fst (face_detection_process backend rgb_image g) = Raise ->
         fst (process_image_for_attendance backend imdecode image_data g)
         = Processed 0 []).
Proof.
  unfold process_image_for_attendance. split; [intros ->; reflexivity|].
  split.
  - intros image ->.
    destruct (detect_faces backend (Some image) g) as [faces g1].
    exists (map face_summary faces). cbn [fst].
    rewrite length_map. split; [reflexivity|]. split.
    + rewrite map_map. reflexivity.
    + apply Forall_forall. intros f Hf. apply in_map_iff in Hf.
      destruct Hf as (face & <- & _). reflexivity.
  - intros image rgb -> Hrgb Hraise.
    assert (Hnone : fst (detect_faces backend (Some image) g) = []).
    { rewrite detect_faces_unfold, detect_faces_try_unfold, Hrgb.
      destruct (face_detection_process backend rgb g) as [r g'].
      cbn [fst] in Hraise. subst r. reflexivity. }
    destruct (detect_faces backend (Some image) g) as [faces g1].
    cbn [fst] in *. subst faces. reflexivity.
Qed.

End Results.

(** X14 at work: a decodable image, a detection graph that raises. *)
Lemma process_image_for_attendance_reports_run :
  fst (process_image_for_attendance Scenario.broken
         (fun _ => Ok (Some Scenario.image)) [255%Z; 216%Z] 0%nat)
  = Processed 0 [].
Proof.
  exact (proj2 (proj2 (process_image_for_attendance_reports
                         Scenario.broken
                         (fun _ => Ok (Some Scenario.image))
                         [255%Z; 216%Z] 0%nat))
               Scenario.image Scenario.image eq_refl eq_refl eq_refl).
Defined.

End IdentifyMore.

(* ------------------------------------------------------------------------- *)
(** ** Further properties of [/mark_attendance] *)
(* ------------------------------------------------------------------------- *)

Module LedgerMore.

Import App LedgerProps.

Section Route.

Context {J : Type}.
Variable json_loads : string -> Py.result J.
Variable compare_faces : J -> list R -> Py.result bool.

Lemma marked_app (rs rs' : list Recognized.t) :
  marked (rs ++ rs') = (marked rs + marked rs')%nat.
Proof. unfold marked. rewrite filter_app, length_app. reflexivity. Qed.

Lemma match_students_cons (student : Student.t) (rest : list Student.t)
    (f : face) (l : ledger) :
  match_students json_loads compare_faces (student :: rest) f l
  = match has_encoding student with
    | None => match_students json_loads compare_faces rest f l
    | Some text =>
        match json_loads text with
        | Py.Raise => (Py.Raise, l)
        | Py.Ok stored =>
            match compare_faces stored (face_encoding f) with
            | Py.Raise => (Py.Raise, l)
            | Py.Ok true =>
                match mark_student student (today f) (utcnow f) l with
                | (Py.Ok r, l') => (Py.Ok [r], l')
                | (Py.Raise, l') => (Py.Raise, l')
                end
            | Py.Ok false => match_students json_loads compare_faces rest f l
            end
        end
    end.
Proof.
  cbn [match_students].
  destruct (has_encoding student) as [text|]; [|reflexivity].
  unfold Py.bind, Py.lift, Py.ret.
  destruct (json_loads text) as [stored|]; [|reflexivity].
  destruct (compare_faces stored (face_encoding f)) as [[|]|]; reflexivity.
Qed.

(** What the loop over the students does to the ledger for one face. *)
Lemma match_students_appends (all_students : list Student.t) (f : face)
    (l : ledger) (students : list Student.t) :
  incl students all_students ->
  exists added,
    snd (match_students json_loads compare_faces students f l) = l ++ added
    /\ Forall (written_for json_loads compare_faces all_students f) added
    /\ forall rs,
         fst (match_students json_loads compare_faces students f l)
         = Py.Ok rs ->
         (length rs <= 1)%nat /\ length added = marked rs.
Proof.
  induction students as [|student rest IH]; intro Hincl.
  { exists []. cbn. rewrite app_nil_r. split; [reflexivity|].
    split; [constructor|]. intros rs H. injection H as <-. auto. }
  assert (Hrest : incl rest all_students)
    by (intros s Hs; apply Hincl; right; exact Hs).
  rewrite match_students_cons.
  destruct (has_encoding student) as [text|] eqn:Eenc; [|exact (IH Hrest)].
  destruct (json_loads text) as [stored|] eqn:Ejson.
  2:{ exists []. cbn. rewrite app_nil_r. split; [reflexivity|].
      split; [constructor|]. discriminate. }
  destruct (compare_faces stored (face_encoding f)) as [[|]|] eqn:Ecmp;
    [|exact (IH Hrest)|].
  2:{ exists []. cbn. rewrite app_nil_r. split; [reflexivity|].
      split; [constructor|]. discriminate. }
  destruct (mark_student_cases student (today f) (utcnow f) l)
    as [[_ ->]|[_ ->]].
  - eexists. cbn [fst snd]. split; [reflexivity|]. split.
    + constructor; [|constructor].
      exists student, text, stored. cbn.
      repeat split; auto. apply Hincl. left. reflexivity.
    + intros rs H. injection H as <-. split; reflexivity.
  - exists []. cbn [fst snd]. rewrite app_nil_r. split; [reflexivity|].
    split; [constructor|]. intros rs H. injection H as <-.
    split; [auto|reflexivity].
Qed.

Lemma match_faces_cons (all_students : list Student.t) (f : face)
    (rest : list face) (l : ledger) :
  match_faces json_loads compare_faces all_students (f :: rest) l
  = match match_students json_loads compare_faces all_students f l with
    | (Py.Raise, l1) => (Py.Raise, l1)
    | (Py.Ok rs, l1) =>
        match match_faces json_loads compare_faces all_students rest l1 with
        | (Py.Raise, l2) => (Py.Raise, l2)
        | (Py.Ok rs', l2) => (Py.Ok (rs ++ rs'), l2)
        end
    end.
Proof.
  cbn [match_faces]. unfold Py.bind, Py.ret.
  destruct (match_students json_loads compare_faces all_students f l)
    as [[rs|] l1]; reflexivity.
Qed.

(** What the loop over the faces does to the ledger. *)
Lemma match_faces_appends (all_students : list Student.t)
    (faces : list face) (l : ledger) :
  exists added,
    snd (match_faces json_loads compare_faces all_students faces l)
    = l ++ added
    /\ Forall (fun r => exists f, In f faces
                 /\ written_for json_loads compare_faces all_students f r)
              added
    /\ forall rs,
         fst (match_faces json_loads compare_faces all_students faces l)
         = Py.Ok rs ->
         (length rs <= length faces)%nat /\ length added = marked rs.
Proof.
  revert l. induction faces as [|f rest IH]; intro l.
  { exists []. cbn. rewrite app_nil_r. split; [reflexivity|].
    split; [constructor|]. intros rs H. injection H as <-. auto. }
  rewrite match_faces_cons.
  destruct (match_students_appends (all_students := all_students) f l
              (incl_refl all_students)) as (added1 & Hl1 & Hprov1 & Hcount1).
  destruct (match_students json_loads compare_faces all_students f l)
    as [[rs1|] l1]; cbn [fst snd] in *.
  2:{ exists added1. split; [exact Hl1|]. split; [|discriminate].
      eapply Forall_impl; [|exact Hprov1].
      intros r Hr. exists f. split; [left; reflexivity|exact Hr]. }
  destruct (Hcount1 rs1 eq_refl) as [Hlen1 Hmark1].
  destruct (IH l1) as (added2 & Hl2 & Hprov2 & Hcount2).
  destruct (match_faces json_loads compare_faces all_students rest l1)
    as [[rs2|] l2]; cbn [fst snd] in *.
  - exists (added1 ++ added2). subst l1 l2.
    split; [rewrite app_assoc; reflexivity|]. split.
    + apply Forall_app. split.
      * eapply Forall_impl; [|exact Hprov1].
        intros r Hr. exists f. split; [left; reflexivity|exact Hr].
      * eapply Forall_impl; [|exact Hprov2].
        intros r (f' & Hin & Hr). exists f'. split; [right|]; assumption.
    + intros rs H. injection H as <-.
      destruct (Hcount2 rs2 eq_refl) as [Hlen2 Hmark2].
      rewrite !length_app, marked_app. cbn [length]. lia.
  - exists (added1 ++ added2). subst l1 l2.
    split; [rewrite app_assoc; reflexivity|]. split; [|discriminate].
    apply Forall_app. split.
    + eapply Forall_impl; [|exact Hprov1].
      intros r Hr. exists f. split; [left; reflexivity|exact Hr].
    + eapply Forall_impl; [|exact Hprov2].
      intros r (f' & Hin & Hr). exists f'. split; [right|]; assumption.
Qed.

Lemma mark_attendance_appends_aux (all_students : list Student.t)
    (request : Py.result (list face)) (l : ledger) :
  exists added,
    snd (mark_attendance json_loads compare_faces all_students request l)
    = l ++ added.
Proof.
  unfold mark_attendance.
  destruct request as [[|f faces]|];
    try (exists []; cbn; rewrite app_nil_r; reflexivity).
  destruct (match_faces_appends all_students (f :: faces) l)
    as (added & Hl & _).
  destruct (match_faces json_loads compare_faces all_students (f :: faces) l)
    as [[[|r rs]|] l']; cbn [fst snd] in *; exists added; exact Hl.
Qed.

(** X15: a [/mark_attendance] request only appends to the ledger, and every
    record it appends is a 'Present' record written for one of the faces of
    the request: its student is in the table with a stored encoding that
    parses and matches that face, and its date and time are the clock values
    read for that face.  When the answer lists the recognised students, it
    lists at most one per face and the number of appended records is the
    number of 'Attendance marked' entries; a 'no face' or 'no student
    recognised' answer leaves the ledger as it was. *)
Theorem mark_attendance_appends (all_students : list Student.t)
    (request : Py.result (list face)) (l : ledger) :
  exists added,
    snd (mark_attendance json_loads compare_faces all_students request l)
    = l ++ added
    /\ Forall (fun r => exists faces f,
                 request = Py.Ok faces /\ In f faces
                 /\ written_for json_loads compare_faces all_students f r)
              added
    /\ (forall rs faces,
           fst (mark_attendance json_loads compare_faces all_students
                  request l) = Recognised rs ->
           request = Py.Ok faces ->
           (length rs <= length faces)%nat /\ length added = marked rs)
    /\ (forall message,
           fst (mark_attendance json_loads compare_faces all_students
                  request l) = Failure message ->
           added = []).
Proof.
  unfold mark_attendance.
  destruct request as [[|f faces]|].
  1,3: exists []; cbn; rewrite app_nil_r; split; [reflexivity|];
       split; [constructor|]; split; [discriminate|reflexivity].
  destruct (match_faces_appends all_students (f :: faces) l)
    as (added & Hl & Hprov & Hcount).
  destruct (match_faces json_loads compare_faces all_students (f :: faces) l)
    as [[[|r rs]|] l']; cbn [fst snd] in *; exists added;
    (split; [exact Hl|]);
    (split; [eapply Forall_impl; [|exact Hprov];
             intros r0 (f0 & Hin & Hr); exists (f :: faces), f0; auto|]).
  - split; [discriminate|]. intros _ _.
    destruct (Hcount [] eq_refl) as [_ Hlen]. cbn in Hlen.
    destruct added; [reflexivity|discriminate].
  - split; [|discriminate]. intros rs' faces' H Hreq.
    injection H as <-. injection Hreq as <-. apply Hcount. reflexivity.
  - split; discriminate.
Qed.

(** X16: over any sequence of requests the ledger only grows at its end:
    no request removes or rewrites a record. *)
Theorem serve_appends (all_students : list Student.t)
    (requests : list (Py.result (list face))) (l : ledger) :
  exists added,
    serve json_loads compare_faces all_students requests l = l ++ added.
Proof.
  revert l. induction requests as [|request rest IH]; intro l.
  - exists []. cbn. rewrite app_nil_r. reflexivity.
  - cbn [serve].
    destruct (mark_attendance_appends_aux all_students request l)
      as (added1 & Hl1).
    rewrite Hl1. destruct (IH (l ++ added1)) as (added2 & Hl2).
    exists (added1 ++ added2). rewrite Hl2, app_assoc. reflexivity.
Qed.

End Route.

End LedgerMore.

(* ------------------------------------------------------------------------- *)
(** ** The order of the student table in [/mark_attendance] *)
(* ------------------------------------------------------------------------- *)

Module TableOrderProps.

Import App LedgerProps LedgerMore.

Section Route.

Context {J : Type}.
Variable json_loads : string -> Py.result J.
Variable compare_faces : J -> list R -> Py.result bool.

Lemma match_students_passed_over (before rest : list Student.t) (f : face)
    (l : ledger) :
  Forall (passed_over json_loads compare_faces f) before ->
  match_students json_loads compare_faces (before ++ rest) f l
  = match_students json_loads compare_faces rest f l.
Proof.
  induction 1 as [|student before Hs _ IH]; [reflexivity|].
  rewrite <- app_comm_cons, match_students_cons.
  destruct Hs as [->|(text & stored & -> & -> & ->)]; exact IH.
Qed.

(** X17: a face is given to the first student, in the order of the table,
    whose stored encoding parses and matches it: the attendance decision is
    taken for that student alone and the answer lists that student, whatever
    the students further down the table are. *)
Theorem first_matching_student_is_marked (before after : list Student.t)
    (student : Student.t) (text : string) (stored : J) (f : face)
    (l : ledger) :
  Forall (passed_over json_loads compare_faces f) before ->
  has_encoding student = Some text ->
  json_loads text = Py.Ok stored ->
  compare_faces stored (face_encoding f) = Py.Ok true ->
  exists r l',
    mark_student student (today f) (utcnow f) l = (Py.Ok r, l')
    /\ match_students json_loads compare_faces
         (before ++ student :: after) f l = (Py.Ok [r], l')
    /\ Recognized.name r = Student.name student
    /\ Recognized.roll_number r = Student.roll_number student.
Proof.
  intros Hbefore Henc Hjson Hcmp.
  rewrite (match_students_passed_over _ l Hbefore), match_students_cons.
  rewrite Henc, Hjson, Hcmp.
  destruct (mark_student_cases student (today f) (utcnow f) l)
    as [[_ ->]|[_ ->]]; do 2 eexists; repeat split.
Qed.

(** X18: a stored encoding that does not parse fails the whole request.
    When the first face of a request reaches, before any match, a student
    whose stored encoding makes [json.loads] raise, the answer is the error
    answer and nothing is written, whatever the other faces and students
    are. *)
Theorem unreadable_encoding_fails_the_request
    (before after : list Student.t) (bad : Student.t) (text : string)
    (f : face) (faces : list face) (l : ledger) :
  Forall (passed_over json_loads compare_faces f) before ->
  has_encoding bad = Some text ->
  json_loads text = Py.Raise ->
  mark_attendance json_loads compare_faces (before ++ bad :: after)
    (Py.Ok (f :: faces)) l
  = (Error, l).
Proof.
  intros Hbefore Henc Hjson. unfold mark_attendance.
  rewrite match_faces_cons.
  rewrite (match_students_passed_over _ l Hbefore), match_students_cons.
  rewrite Henc, Hjson. reflexivity.
Qed.

End Route.

(** X17 at work: student A stands first in the table. *)
Lemma first_matching_student_is_marked_run :
  exists r l',
    mark_student Scenario.student_a Scenario.monday Scenario.at_0805 []
    = (Py.Ok r, l')
    /\ match_students (fun _ => Py.Ok [1%R; 0%R]) (fun _ _ => Py.Ok true)
         ([] ++ Scenario.student_a :: [Scenario.student_a])
         {| face_encoding := [1%R; 0%R];
            today := Scenario.monday;
            utcnow := Scenario.at_0805 |} []
       = (Py.Ok [r], l')
    /\ Recognized.name r = Student.name Scenario.student_a
    /\ Recognized.roll_number r = Student.roll_number Scenario.student_a.
Proof.
  apply (@first_matching_student_is_marked (list R)
           (fun _ => Py.Ok [1%R; 0%R]) (fun _ _ => Py.Ok true)
           [] [Scenario.student_a] Scenario.student_a
           "[1.0, 0.0]"%string [1%R; 0%R]
           {| face_encoding := [1%R; 0%R];
              today := Scenario.monday;
              utcnow := Scenario.at_0805 |} []);
    (constructor || reflexivity).
Defined.

(** X18 at work: the only student has an encoding that does not parse. *)
Lemma unreadable_encoding_fails_the_request_run :
  mark_attendance (fun _ : string => @Py.Raise (list R))
    (fun _ _ => Py.Ok true)
    ([] ++ Scenario.student_a :: [])
    (Py.Ok [ {| face_encoding := [1%R; 0%R];
                today := Scenario.monday;
                utcnow := Scenario.at_0805 |} ]) []
  = (Error, []).
Proof.
  apply (@unreadable_encoding_fails_the_request (list R)
           (fun _ => Py.Raise) (fun _ _ => Py.Ok true)
           [] [] Scenario.student_a "[1.0, 0.0]"%string);
    (constructor || reflexivity).
Defined.

End TableOrderProps.

(* ------------------------------------------------------------------------- *)
(** ** Properties of [/add_student] *)
(* ------------------------------------------------------------------------- *)

Module EnrolmentProps.

Import App.

Lemma by_roll_number_none (all_students : list Student.t)
    (roll_number : string) :
  first (by_roll_number all_students roll_number) = None
  <-> ~ In roll_number (map Student.roll_number all_students).
Proof.
  unfold by_roll_number.
  induction all_students as [|s rest IH]; simpl; [tauto|].
  destruct (String.eqb (Student.roll_number s) roll_number) eqn:E; simpl.
  - apply String.eqb_eq in E. split; [discriminate|]. intro H.
    exfalso. apply H. left. exact E.
  - apply String.eqb_neq in E. rewrite IH. tauto.
Qed.

Lemma remove_not_in (path : string) (fs : list string) :
  ~ In path (remove path fs).
Proof.
  unfold remove. rewrite filter_In, negb_true_iff, String.eqb_neq. tauto.
Qed.

Lemma save_in (path : string) (fs : list string) : In path (save path fs).
Proof.
  unfold save. destruct (in_dec string_dec path fs); [assumption|].
  apply in_or_app. right. left. reflexivity.
Qed.

Section AddStudent.

Variable json_dumps : list R -> string.
Variable file_save_raises : string -> bool.
Variable failed_save : string -> list string -> list string.
Variable os_remove_raises : string -> bool.

(** The [except] clause, entered with the photo on disk. *)
Lemma except_clause_cases (filepath : string)
    (all_students : list Student.t) (fs : list string) :
  In filepath fs ->
  (os_remove_raises filepath = true
   /\ except_clause os_remove_raises filepath all_students fs
      = (Crashed, {| students := all_students; files := fs |}))
  \/ (os_remove_raises filepath = false
      /\ except_clause os_remove_raises filepath all_students fs
         = (PhotoError,
            {| students := all_students; files := remove filepath fs |})).
Proof.
  intro Hin. unfold except_clause.
  destruct (in_dec string_dec filepath fs) as [_|Hout]; [|contradiction].
  destruct (os_remove_raises filepath); auto.
Qed.

(** The cases of [add_student]: the request is turned away before the
    photo is saved, or [file.save] raises, or the photo is saved and then
    removed, or it is saved and [os.remove] raises, or the student is
    added. *)
Lemma add_student_cases (request : enrolment) (db : site) :
  let outcome :=
    add_student json_dumps file_save_raises failed_save os_remove_raises
      request db in
  (snd outcome = db
   /\ (fst outcome = Form
       \/ fst outcome = BadRequest
       \/ exists flashed,
            fst outcome = Rejected flashed
            /\ flashed
               <> "No face detected in the photo. Please upload a clear photo with a visible face."%string))
  \/ exists name roll_number file_name,
       method request = POST
       /\ form_name request = Some name
       /\ form_roll_number request = Some roll_number
       /\ ~ In roll_number (map Student.roll_number (students db))
       /\ photo request = Some file_name
       /\ file_name <> EmptyString
       /\ let filepath :=
            os_path_join "static/uploads"
              (roll_number ++ "_" ++ file_name)%string in
          let saved := save filepath (files db) in
          (file_save_raises filepath = true
           /\ outcome
              = (Crashed,
                 {| students := students db;
                    files := failed_save filepath (files db) |}))
          \/ (file_save_raises filepath = false
              /\ os_remove_raises filepath = true
              /\ outcome
                 = (Crashed, {| students := students db; files := saved |}))
          \/ (file_save_raises filepath = false
              /\ os_remove_raises filepath = false
              /\ (fst outcome = PhotoError
                  \/ fst outcome
                     = Rejected
                         "No face detected in the photo. Please upload a clear photo with a visible face.")
              /\ snd outcome
                 = {| students := students db;
                      files := remove filepath saved |})
          \/ exists face_encoding others,
               file_save_raises filepath = false
               /\ photo_encodings request = Py.Ok (face_encoding :: others)
               /\ outcome
                  = (Added,
                     {| students :=
                          students db
                          ++ [ {| Student.id := next_student_id (students db);
                                  Student.name := name;
                                  Student.roll_number := roll_number;
                                  Student.photo_path := filepath;
                                  Student.face_encoding :=
                                    Some (json_dumps face_encoding) |} ];
                        files := saved |}).
Proof.
  cbv zeta. unfold add_student.
  destruct (method request) eqn:Hm; [left; cbn; auto|].
  destruct (form_name request) as [name|] eqn:Hname;
    [|left; cbn; auto].
  destruct (form_roll_number request) as [roll_number|] eqn:Hroll;
    [|left; cbn; auto].
  destruct (first (by_roll_number (students db) roll_number))
    as [existing|] eqn:Efirst.
  { left. cbn. split; [reflexivity|]. do 2 right.
    eexists. split; [reflexivity|discriminate]. }
  destruct (photo request) as [[|c file_name]|] eqn:Hphoto.
  1,3: left; cbn; split; [reflexivity|]; do 2 right;
       eexists; (split; [reflexivity|discriminate]).
  right. exists name, roll_number, (String c file_name).
  split; [reflexivity|]. split; [reflexivity|]. split; [reflexivity|].
  split; [apply by_roll_number_none; exact Efirst|].
  split; [reflexivity|]. split; [discriminate|].
  set (filepath := os_path_join "static/uploads"
                     (roll_number ++ "_" ++ String c file_name)%string).
  destruct (file_save_raises filepath) eqn:Hsave; [left; auto|].
  right.
  pose proof (@except_clause_cases filepath (students db) _
                (save_in filepath (files db))) as Hexcept.
  destruct (photo_encodings request) as [[|e others]|].
  - destruct (os_remove_raises filepath) eqn:Hremove.
    + left. split; [reflexivity|]. split; [reflexivity|].
      destruct Hexcept as [[_ ->]|[H _]]; [reflexivity|congruence].
    + right. left. cbn. auto.
  - unfold add_student_commit. rewrite Efirst.
    right. right. exists e, others. auto.
  - destruct Hexcept as [[Hr ->]|[Hr ->]].
    + left. auto.
    + right. left. cbn. auto.
Qed.

(** X19: [add_student] keeps the roll numbers of the student table
    distinct, whatever the request and the file system. *)
Theorem roll_numbers_stay_distinct (request : enrolment) (db : site) :
  NoDup (map Student.roll_number (students db)) ->
  NoDup (map Student.roll_number
             (students
                (snd (add_student json_dumps file_save_raises failed_save
                        os_remove_raises request db)))).
Proof.
  intro Hnd.
  destruct (add_student_cases request db)
    as [[-> _]|(name & roll_number & file_name & _ & _ & _ & Hout & _ & _
                & Hcases)];
    [exact Hnd|].
  cbv zeta in Hcases.
  destruct Hcases
    as [[_ ->]|[(_ & _ & ->)|[(_ & _ & _ & ->)|(e & others & _ & _ & ->)]]];
    try exact Hnd.
  cbn [snd students]. rewrite map_app. cbn [map Student.roll_number].
  apply NoDup_app; [exact Hnd|repeat constructor; intros []|].
  intros r Hr [<-|[]]. contradiction.
Qed.

(** X20: [add_student] changes the student table only when it answers
    'Student added successfully!'.  It then appends one student with the
    name and the roll number of the form, the path of the saved photo and
    the encoding of the first face found in it, and the photo is on disk.
    When it answers that the photo shows no face or that its processing
    failed, the photo has been saved and removed again: no file is left at
    its path.  When an exception leaves the view, either [file.save]
    raised, or [os.remove] raised after a successful save and the photo is
    still on disk. *)
Theorem add_student_outcome (request : enrolment) (db : site) :
  let outcome :=
    add_student json_dumps file_save_raises failed_save os_remove_raises
      request db in
  let answer := fst outcome in
  let db' := snd outcome in
  (answer <> Added -> students db' = students db)
  /\ (answer = Added ->
      exists name roll_number file_name face_encoding others,
        form_name request = Some name
        /\ form_roll_number request = Some roll_number
        /\ photo request = Some file_name
        /\ photo_encodings request = Py.Ok (face_encoding :: others)
        /\ ~ In roll_number (map Student.roll_number (students db))
        /\ students db'
           = students db
             ++ [ {| Student.id := next_student_id (students db);
                     Student.name := name;
                     Student.roll_number := roll_number;
                     Student.photo_path :=
                       os_path_join "static/uploads"
                         (roll_number ++ "_" ++ file_name)%string;
                     Student.face_encoding :=
                       Some (json_dumps face_encoding) |} ]
        /\ In (os_path_join "static/uploads"
                 (roll_number ++ "_" ++ file_name)%string)
              (files db'))
  /\ (answer = PhotoError
      \/ answer
         = Rejected
             "No face detected in the photo. Please upload a clear photo with a visible face." ->
      exists roll_number file_name,
        form_roll_number request = Some roll_number
        /\ photo request = Some file_name
        /\ ~ In (os_path_join "static/uploads"
                   (roll_number ++ "_" ++ file_name)%string)
                (files db'))
  /\ (answer = Crashed ->
      exists roll_number file_name,
        form_roll_number request = Some roll_number
        /\ photo request = Some file_name
        /\ let filepath :=
             os_path_join "static/uploads"
               (roll_number ++ "_" ++ file_name)%string in
           file_save_raises filepath = true
           \/ (file_save_raises filepath = false
               /\ os_remove_raises filepath = true
               /\ In filepath (files db'))).
Proof.
  cbv zeta.
  destruct (add_student_cases request db)
    as [[Heq Hanswer]|(name & roll_number & file_name & Hm & Hname & Hroll
                       & Hout & Hphoto & Hne & Hcases)].
  - rewrite Heq.
    split; [reflexivity|].
    split; [intro H; destruct Hanswer as [H'|[H'|(m & H' & _)]];
            congruence|].
    split; [intros [H|H]; destruct Hanswer as [H'|[H'|(m & H' & Hm)]];
            congruence|].
    intro H; destruct Hanswer as [H'|[H'|(m & H' & _)]]; congruence.
  - cbv zeta in Hcases.
    destruct Hcases
      as [[Hs ->]|[(Hs & Hr & ->)|[(Hs & Hr & Ha & ->)
                                  |(e & others & Hs & He & ->)]]];
      cbn [fst snd students files].
    + split; [reflexivity|]. split; [discriminate|].
      split; [intros [H|H]; discriminate|]. intros _.
      exists roll_number, file_name. auto.
    + split; [reflexivity|]. split; [discriminate|].
      split; [intros [H|H]; discriminate|]. intros _.
      exists roll_number, file_name.
      split; [exact Hroll|]. split; [exact Hphoto|].
      right. split; [exact Hs|]. split; [exact Hr|apply save_in].
    + split; [reflexivity|].
      split; [intro H; destruct Ha as [Ha|Ha]; congruence|].
      split; [|intro H; destruct Ha as [Ha|Ha]; congruence].
      intros _. exists roll_number, file_name.
      split; [exact Hroll|]. split; [exact Hphoto|]. apply remove_not_in.
    + split; [congruence|].
      split; [|split; [intros [H|H]; discriminate|discriminate]].
      intros _. exists name, roll_number, file_name, e, others.
      repeat split; auto. apply save_in.
Qed.

End AddStudent.

(** X19 at work: enrolling student A again, under the same roll number. *)
Lemma roll_numbers_stay_distinct_run :
  NoDup (map Student.roll_number
           (students
              (snd (add_student (fun _ => "[1.0, 0.0]"%string)
                      (fun _ => false) (fun _ fs => fs) (fun _ => false)
                      {| method := POST;
                         form_name := Some "A"%string;
                         form_roll_number := Some "R7"%string;
                         photo := Some "a.jpg"%string;
                         photo_encodings := Py.Ok [[1%R; 0%R]] |}
                      {| students := [Scenario.student_a];
                         files := ["static/uploads/R7_a.jpg"%string] |})))).
Proof.
  apply roll_numbers_stay_distinct. repeat constructor. intros [].
Defined.

(** X20 at work: the photo of a new student shows no face. *)
Lemma add_student_outcome_run :
  exists roll_number file_name,
    Some "R8"%string = Some roll_number
    /\ Some "b.jpg"%string = Some file_name
    /\ ~ In (os_path_join "static/uploads"
               (roll_number ++ "_" ++ file_name)%string)
            (files
               (snd (add_student (fun _ => "[1.0, 0.0]"%string)
                       (fun _ => false) (fun _ fs => fs) (fun _ => false)
                       {| method := POST;
                          form_name := Some "B"%string;
                          form_roll_number := Some "R8"%string;
                          photo := Some "b.jpg"%string;
                          photo_encodings := Py.Ok [] |}
                       {| students := [Scenario.student_a];
                          files := ["static/uploads/R7_a.jpg"%string] |}))).
Proof.
  apply (proj1 (proj2 (proj2 (add_student_outcome
                         (fun _ => "[1.0, 0.0]"%string)
                         (fun _ => false) (fun _ fs => fs) (fun _ => false)
                         {| method := POST;
                            form_name := Some "B"%string;
                            form_roll_number := Some "R8"%string;
                            photo := Some "b.jpg"%string;
                            photo_encodings := Py.Ok [] |}
                         {| students := [Scenario.student_a];
                            files := ["static/uploads/R7_a.jpg"%string] |})))).
  right. vm_compute. reflexivity.
Defined.

End EnrolmentProps.

(* ------------------------------------------------------------------------- *)
(** ** Properties of the attendance reports *)
(* ------------------------------------------------------------------------- *)

Module ReportProps.

Import App LedgerProps.

Lemma in_report (all_students : list Student.t) (l : ledger) (d : date)
    (a : Attendance.t) (s : Student.t) :
  In (a, s) (report all_students l d)
  <-> In a l /\ Attendance.date a = d /\ In s all_students
      /\ Student.id s = Attendance.student_id a.
Proof.
  unfold report. rewrite in_flat_map. split.
  - intros (a' & Ha & Hrow). apply filter_In in Ha. destruct Ha as [Hin Hd].
    apply date_eqb_eq in Hd. apply in_map_iff in Hrow.
    destruct Hrow as (s' & Heq & Hs). injection Heq as <- <-.
    apply filter_In in Hs. destruct Hs as [Hs Hid]. apply Z.eqb_eq in Hid.
    auto.
  - intros (Hin & Hd & Hs & Hid). exists a. split.
    + apply filter_In. split; [exact Hin|]. apply date_eqb_eq, Hd.
    + apply in_map. apply filter_In. split; [exact Hs|].
      apply Z.eqb_eq, Hid.
Qed.

Lemma filter_all {A} (f : A -> bool) (l : list A) :
  (forall a, In a l -> f a = true) -> filter f l = l.
Proof.
  induction l as [|a l IH]; intro H; [reflexivity|]. cbn [filter].
  rewrite (H a (or_introl eq_refl)), IH; [reflexivity|].
  intros b Hb. apply H. right. exact Hb.
Qed.

Lemma filter_none {A} (f : A -> bool) (l : list A) :
  (forall a, In a l -> f a = false) -> filter f l = [].
Proof.
  induction l as [|a l IH]; intro H; [reflexivity|]. cbn [filter].
  rewrite (H a (or_introl eq_refl)). apply IH.
  intros b Hb. apply H. right. exact Hb.
Qed.

(** A table with distinct ids has exactly one student per id in use. *)
Lemma one_student_per_id (all_students : list Student.t) (student_id : Z) :
  NoDup (map Student.id all_students) ->
  (exists s, In s all_students /\ Student.id s = student_id) ->
  length (filter (fun s => (Student.id s =? student_id)%Z) all_students)
  = 1%nat.
Proof.
  induction all_students as [|s0 rest IH]; intros Hids.
  - intros (s & [] & _).
  - inversion Hids as [|? ? Hnotin Hrest]; subst. cbn [filter].
    destruct (Student.id s0 =? student_id)%Z eqn:E.
    + apply Z.eqb_eq in E. intros _. cbn [length]. f_equal.
      rewrite filter_none; [reflexivity|].
      intros s1 Hs1. apply Z.eqb_neq. intro Heq. apply Hnotin.
      rewrite E, <- Heq. apply in_map, Hs1.
    + apply Z.eqb_neq in E. intros (s & [->|Hin] & Hid); [contradiction|].
      apply IH; eauto.
Qed.

(** Number of rows of a report for the student [student_id]. *)
Lemma rows_of_student (all_students : list Student.t) (l : ledger)
    (d : date) (student_id : Z) :
  NoDup (map Student.id all_students) ->
  (exists s, In s all_students /\ Student.id s = student_id) ->
  length (filter (fun row => (Student.id (snd row) =? student_id)%Z)
                 (report all_students l d))
  = records_for l student_id d.
Proof.
  intros Hids Hex. unfold report, records_for, filter_by.
  induction l as [|a l IH]; [reflexivity|].
  cbn [filter]. unfold same_key at 1.
  destruct (date_eqb (Attendance.date a) d) eqn:Ed.
  - cbn [flat_map]. rewrite filter_app, length_app, IH, andb_true_r.
    destruct (Attendance.student_id a =? student_id)%Z eqn:Esid.
    + apply Z.eqb_eq in Esid. cbn [length].
      rewrite filter_all.
      * rewrite length_map, Esid, one_student_per_id by assumption.
        reflexivity.
      * intros row Hrow. apply in_map_iff in Hrow.
        destruct Hrow as (s' & <- & Hs'). apply filter_In in Hs'.
        destruct Hs' as [_ Hid']. apply Z.eqb_eq in Hid'. cbn [snd].
        apply Z.eqb_eq. congruence.
    + apply Z.eqb_neq in Esid. rewrite filter_none; [reflexivity|].
      intros row Hrow. apply in_map_iff in Hrow.
      destruct Hrow as (s' & <- & Hs'). apply filter_In in Hs'.
      destruct Hs' as [_ Hid']. apply Z.eqb_eq in Hid'. cbn [snd].
      apply Z.eqb_neq. congruence.
  - rewrite andb_false_r. exact IH.
Qed.

(** X21: every row of the report of a date pairs an attendance record of
    that date with the student it belongs to; when the student ids are
    distinct and the ledger holds at most one record per student and date,
    a registered student has at most one row in the report. *)
Theorem report_rows (all_students : list Student.t) (l : ledger) (d : date) :
  Forall (fun row =>
            In (fst row) l
            /\ Attendance.date (fst row) = d
            /\ In (snd row) all_students
            /\ Student.id (snd row) = Attendance.student_id (fst row))
         (report all_students l d)
  /\ (NoDup (map Student.id all_students) -> unique l ->
      forall s, In s all_students ->
        (length (filter (fun row => (Student.id (snd row) =? Student.id s)%Z)
                        (report all_students l d)) <= 1)%nat).
Proof.
  split.
  - apply Forall_forall. intros [a s] Hrow. apply in_report in Hrow.
    exact Hrow.
  - intros Hids Hu s Hs. rewrite rows_of_student by eauto. apply Hu.
Qed.

(** X22: marking and reporting.  After the attendance decision for a
    registered student, whether it wrote a record or found one, the report
    of that day has exactly one row for the student (distinct student ids,
    at most one record per student and date before). *)
Theorem marked_student_is_reported (all_students : list Student.t)
    (student : Student.t) (today : date) (utcnow : datetime) (l : ledger) :
  NoDup (map Student.id all_students) ->
  unique l ->
  In student all_students ->
  length (filter (fun row =>
                    (Student.id (snd row) =? Student.id student)%Z)
                 (report all_students
                    (snd (mark_student student today utcnow l)) today))
  = 1%nat.
Proof.
  intros Hids Hu Hin. rewrite rows_of_student by eauto.
  destruct (mark_student_cases student today utcnow l)
    as [[Hzero ->]|[Hnz ->]]; cbn [snd].
  - rewrite records_for_app, Hzero.
    replace (same_key _ _ _) with true; [reflexivity|].
    symmetry. apply same_key_true. split; reflexivity.
  - specialize (Hu (Student.id student) today). lia.
Qed.

(** X22 at work: student A is marked in an empty ledger. *)
Lemma marked_student_is_reported_run :
  length (filter (fun row =>
                    (Student.id (snd row) =? Student.id Scenario.student_a)%Z)
                 (report [Scenario.student_a]
                    (snd (mark_student Scenario.student_a Scenario.monday
                            Scenario.at_0805 []))
                    Scenario.monday))
  = 1%nat.
Proof.
  apply marked_student_is_reported.
  - repeat constructor. intros [].
  - intros s d. apply Nat.le_0_l.
  - left. reflexivity.
Defined.

End ReportProps.

(* ------------------------------------------------------------------------- *)
(** ** When [/mark_attendance] answers with its error *)
(* ------------------------------------------------------------------------- *)

Module ErrorAnswerProps.

Import App LedgerProps LedgerMore TableOrderProps.

Section Route.

Context {J : Type}.
Variable json_loads : string -> Py.result J.
Variable compare_faces : J -> list R -> Py.result bool.

Lemma match_students_ok (faces : list face) (students : list Student.t)
    (f : face) (l : ledger) :
  In f faces ->
  Forall (comparable json_loads compare_faces faces) students ->
  fst (match_students json_loads compare_faces students f l) <> Py.Raise.
Proof.
  intro Hf. induction 1 as [|student rest Hs _ IH]; [discriminate|].
  rewrite match_students_cons.
  destruct (has_encoding student) as [text|] eqn:Eenc; [|exact IH].
  destruct (Hs text Eenc) as (stored & -> & Hcmp).
  specialize (Hcmp f Hf).
  destruct (compare_faces stored (face_encoding f)) as [[|]|];
    [|exact IH|contradiction].
  destruct (mark_student_cases student (today f) (utcnow f) l)
    as [[_ ->]|[_ ->]]; discriminate.
Qed.

Lemma match_faces_ok (all_faces : list face) (all_students : list Student.t)
    (faces : list face) (l : ledger) :
  incl faces all_faces ->
  Forall (comparable json_loads compare_faces all_faces) all_students ->
  fst (match_faces json_loads compare_faces all_students faces l)
  <> Py.Raise.
Proof.
  intros Hincl Hall. revert l.
  induction faces as [|f rest IH]; intro l; [discriminate|].
  rewrite match_faces_cons.
  assert (Hf : In f all_faces) by (apply Hincl; left; reflexivity).
  pose proof (match_students_ok f l Hf Hall) as Hs.
  destruct (match_students json_loads compare_faces all_students f l)
    as [[rs|] l1]; [|contradiction].
  assert (Hrest : incl rest all_faces)
    by (intros f' Hf'; apply Hincl; right; exact Hf').
  specialize (IH Hrest l1).
  destruct (match_faces json_loads compare_faces all_students rest l1)
    as [[rs'|] l2]; [discriminate|contradiction].
Qed.

(** X23: the error answer of [/mark_attendance] needs a cause outside the
    ledger.  When the posted image decodes, every stored encoding parses
    and [compare_faces] accepts it against every face of the image, the
    request is never answered with the error, on any ledger: the uniqueness
    constraint of the attendance table never rejects a commit.  And a
    [compare_faces] that raises is such a cause: when the first face reaches,
    before any match, a student whose stored encoding it cannot compare (a
    stored array of another length), the answer is the error and nothing is
    written. *)
Theorem error_answer_needs_a_cause (all_students : list Student.t)
    (faces : list face) (l : ledger) :
  (Forall (comparable json_loads compare_faces faces) all_students ->
   fst (mark_attendance json_loads compare_faces all_students
          (Py.Ok faces) l) <> Error)
  /\ (forall before bad after text stored f rest,
         all_students = before ++ bad :: after ->
         faces = f :: rest ->
         Forall (passed_over json_loads compare_faces f) before ->
         has_encoding bad = Some text ->
         json_loads text = Py.Ok stored ->
         compare_faces stored (face_encoding f) = Py.Raise ->
         mark_attendance json_loads compare_faces all_students
           (Py.Ok faces) l
         = (Error, l)).
Proof.
  split.
  - intro Hall. unfold mark_attendance.
    destruct faces as [|f faces']; [discriminate|].
    pose proof (match_faces_ok l (incl_refl (f :: faces')) Hall) as Hok.
    destruct (match_faces json_loads compare_faces all_students
                (f :: faces') l)
      as [[[|r rs]|] l']; cbn [fst] in *; (discriminate || contradiction).
  - intros before bad after text stored f rest -> -> Hbefore Henc Hjson Hcmp.
    unfold mark_attendance. rewrite match_faces_cons.
    rewrite (match_students_passed_over _ l Hbefore), match_students_cons.
    rewrite Henc, Hjson, Hcmp. reflexivity.
Qed.

End Route.

(** X23 at work on a ledger that already holds the record of the day, and
    with a stored encoding of another length than the probe. *)
Lemma error_answer_needs_a_cause_run :
  let capture :=
    [ {| face_encoding := [1%R; 0%R];
         today := Scenario.monday;
         utcnow := Scenario.at_0810 |} ] in
  let l := snd (mark_student Scenario.student_a Scenario.monday
                  Scenario.at_0805 []) in
  let same_length (stored probe : list R) :=
    if (length stored =? length probe)%nat then Py.Ok true else Py.Raise in
  fst (mark_attendance (fun _ => Py.Ok [1%R; 0%R]) same_length
         [Scenario.student_a] (Py.Ok capture) l)
  <> Error
  /\ mark_attendance (fun _ => Py.Ok [1%R]) same_length
       [Scenario.student_a] (Py.Ok capture) l
     = (Error, l).
Proof.
  cbv zeta. split.
  - apply error_answer_needs_a_cause.
    repeat constructor. intros text _. eexists. split; [reflexivity|].
    intros f [<-|[]]. discriminate.
  - eapply (proj2 (error_answer_needs_a_cause _ _ _ _ _))
      with (before := []) (after := []); try reflexivity.
    constructor.
Defined.

End ErrorAnswerProps.
